(** * Replay memory of the DQN landmark-detection agents

    A shallow embedding of [ReplayMemory]
    (examples/AutomaticViewPlanning/DQN/expreplay.py) and of the two
    [_trigger] callbacks that emit scalar metrics
    ([ExpReplay._trigger] in the same file, [Evaluator._trigger] in
    examples/LandmarkDetection/DQN/common.py).

    Conventions of the embedding.
    - Python integers are [Z]; [%] is [Z.modulo] (both take the sign of
      the divisor) and raises [ZeroDivisionError] on a zero divisor.
    - A method that can raise returns a [result]; a method that can
      write to the object returns the object it leaves behind.
    - A numpy array of frames is a [list Frame]; a frame is an array
      of integers, given by its shape and the row-major list of its
      elements.  A transition is taken as the caller passes it: a state
      that is an integer array of any shape, an action that is a Python
      int or a numpy integer, a reward that is a float, a flag that is
      a bool.  Item assignment into the storage arrays converts them
      as numpy 1.x does: the state is broadcast to the shape of a slot
      ([ValueError] when it cannot be) and its elements wrap to uint8,
      the action wraps to int32 ([OverflowError] when it does not fit
      a C long), the reward is rounded to float32.
    - A method that raises ends the scenario: what it had written to
      the object before raising is not followed further.
    - A basic slice of [self.state] is a numpy view, not a copy: it is
      modelled as [View lo hi], and writing through it writes to the
      storage of the memory.  [np.concatenate] and [copy.deepcopy]
      allocate: they give an [Own] array. *)

From Stdlib Require Import String ZArith List Bool Lia.
From Stdlib Require Import Floats.SpecFloat.
Import ListNotations.
Local Open Scope Z_scope.

(** ** Exceptions and fallible computations *)

Inductive exn : Type :=
| ZeroDivisionError
| IndexError
| ValueError
| AssertionError
| OtherException (name : string)  (* any other subclass of Exception *)
| BaseOnly (name : string).       (* BaseException outside Exception *)

(** [isinstance(e, Exception)]: what [except Exception] catches. *)
Definition isinstance_Exception (e : exn) : bool :=
  match e with
  | BaseOnly _ => false
  | _ => true
  end.

Inductive result (A : Type) : Type :=
| Ok (a : A)
| Raise (e : exn).
Arguments Ok {A} a.
Arguments Raise {A} e.

Definition rbind {A B : Type} (c : result A) (k : A -> result B) : result B :=
  match c with
  | Ok a => k a
  | Raise e => Raise e
  end.

Declare Scope py_scope.
Delimit Scope py_scope with py.
Notation "x <- c ;; k" := (rbind c (fun x => k))
  (at level 61, c at next level, right associativity) : py_scope.
Notation "' p <- c ;; k" := (rbind c (fun x => let 'p := x in k))
  (at level 61, p pattern, c at next level, right associativity) : py_scope.
Local Open Scope py_scope.

(** ** The Python and numpy primitives the class uses *)

Module Py.

(** [a % b] *)
Definition mod_ (a b : Z) : result Z :=
  if b =? 0 then Raise ZeroDivisionError else Ok (a mod b).

Definition len {A : Type} (l : list A) : Z := Z.of_nat (length l).

(** A slice bound [i] on a sequence of length [n], as Python clamps it. *)
Definition bound (n i : Z) : Z :=
  if i <? 0 then Z.max 0 (i + n) else Z.min i n.

(** [arr[lo:hi]] *)
Definition slice {A : Type} (arr : list A) (lo hi : Z) : list A :=
  let lo' := bound (len arr) lo in
  let hi' := bound (len arr) hi in
  firstn (Z.to_nat (hi' - lo')) (skipn (Z.to_nat lo') arr).

(** [arr[lo:]] *)
Definition slice_from {A : Type} (arr : list A) (lo : Z) : list A :=
  skipn (Z.to_nat (bound (len arr) lo)) arr.

(** [arr[:hi]] *)
Definition slice_to {A : Type} (arr : list A) (hi : Z) : list A :=
  firstn (Z.to_nat (bound (len arr) hi)) arr.

(** [arr[i]], with negative indices counted from the end. *)
Definition getitem {A : Type} (arr : list A) (i : Z) : result A :=
  let j := if i <? 0 then i + len arr else i in
  if (0 <=? j) && (j <? len arr) then
    match nth_error arr (Z.to_nat j) with
    | Some x => Ok x
    | None => Raise IndexError
    end
  else Raise IndexError.

Fixpoint update {A : Type} (l : list A) (n : nat) (x : A) : list A :=
  match l, n with
  | [], _ => []
  | _ :: t, O => x :: t
  | h :: t, S n' => h :: update t n' x
  end.

(** [arr[i] = x] *)
Definition setitem {A : Type} (arr : list A) (i : Z) (x : A) : result (list A) :=
  let j := if i <? 0 then i + len arr else i in
  if (0 <=? j) && (j <? len arr) then Ok (update arr (Z.to_nat j) x)
  else Raise IndexError.

(** [arr[i] = x] on an array that converts what it is given with
    [cast]: the index is resolved first, then the value converted. *)
Definition setitem_as {A B : Type} (cast : B -> result A) (arr : list A)
    (i : Z) (x : B) : result (list A) :=
  let j := if i <? 0 then i + len arr else i in
  if (0 <=? j) && (j <? len arr)
  then v <- cast x ;; Ok (update arr (Z.to_nat j) v)
  else Raise IndexError.

(** [range(start, -1, -1)]: start, start-1, ..., 0. *)
Definition range_down (start : Z) : list Z :=
  map (fun i => start - Z.of_nat i) (seq 0 (Z.to_nat (start + 1))).

(** [collections.deque(maxlen=...)]: the oldest item is at the head. *)
Record deque (A : Type) : Type := mkDeque { maxlen : Z; items : list A }.
Arguments mkDeque {A} maxlen items.
Arguments maxlen {A} d.
Arguments items {A} d.

Definition deque_new {A : Type} (n : Z) : result (deque A) :=
  if n <? 0 then Raise ValueError else Ok (mkDeque n []).

(** [d.append(x)]: a full deque discards from the opposite end. *)
Definition deque_append {A : Type} (d : deque A) (x : A) : deque A :=
  let it := items d ++ [x] in
  mkDeque (maxlen d) (if maxlen d <? len it then tl it else it).

Definition deque_clear {A : Type} (d : deque A) : deque A :=
  mkDeque (maxlen d) [].

End Py.

(** ** Frames and transitions *)

(** One array of integers, or what is given in the place of one: its
    shape and its elements in row-major order.  The elements are
    Python ints or those of a signed integer dtype. *)
Module Frame.
Record t : Type := make { shape : list Z; data : list Z }.
End Frame.
Abbreviation Frame := Frame.t.

(** A float: a Python float as the caller passes it, a float32 value
    once it is stored. *)
Definition float32 : Type := spec_float.
Definition f32_zero : float32 := S754_zero false.

(** [np.zeros(shape, dtype="uint8")] *)
Definition np_zeros (shape : list Z) : Frame :=
  Frame.make shape (repeat 0 (Z.to_nat (fold_right Z.mul 1 shape))).

(** What [fill(0)] leaves of one frame. *)
Definition zero_fill (f : Frame) : Frame :=
  Frame.make (Frame.shape f) (map (fun _ => 0) (Frame.data f)).

Module Experience.
Record t : Type := make
  { state : Frame; action : Z; reward : float32; isOver : bool }.
End Experience.
Abbreviation Experience := Experience.t.

(** ** Item assignment into the storage arrays *)

(** The value of dtype uint8 an integer is cast to. *)
Definition as_uint8 (v : Z) : Z := v mod 256.

(** The value of dtype int32 an integer is cast to. *)
Definition as_int32 (v : Z) : Z :=
  (v + 2147483648) mod 4294967296 - 2147483648.

(** The float32 value nearest to a float (ties to even). *)
Definition as_float32 (x : spec_float) : float32 :=
  match x with
  | S754_finite s m e => binary_round 24 128 s m e
  | _ => x
  end.

(** An integer that fits a C long. *)
Definition c_long (v : Z) : bool :=
  (-9223372036854775808 <=? v) && (v <? 9223372036854775808).

(** [arr[pos] = v] on an int32 array: a Python int is first taken as
    a C long. *)
Definition astype_int32 (v : Z) : result Z :=
  if c_long v then Ok (as_int32 v)
  else Raise (OtherException "OverflowError").

(** The shape and the elements agree: no negative axis, and as many
    elements as the shape says. *)
Definition is_array (f : Frame) : bool :=
  forallb (fun d => 0 <=? d) (Frame.shape f)
  && (Z.of_nat (length (Frame.data f))
      =? fold_right Z.mul 1 (Frame.shape f)).

(** Broadcasting.  A value with more axes than the slot loses its
    leading axes of length 1; one with fewer gets leading axes of
    length 1; after that every axis must have the length of the
    slot's axis or length 1. *)
Fixpoint strip_ones (extra : nat) (s : list Z) : list Z :=
  match extra, s with
  | S n, 1 :: s' => strip_ones n s'
  | _, _ => s
  end.

Definition aligned (value_shape slot_shape : list Z) : list Z :=
  let s := strip_ones (length value_shape - length slot_shape) value_shape in
  repeat 1 (length slot_shape - length s) ++ s.

Fixpoint compatible (src dst : list Z) : bool :=
  match src, dst with
  | [], [] => true
  | s :: src', d :: dst' => ((s =? d) || (s =? 1)) && compatible src' dst'
  | _, _ => false
  end.

(** [n] consecutive pieces of [l], each of [size] elements. *)
Fixpoint chunks {A : Type} (n size : nat) (l : list A) : list (list A) :=
  match n with
  | O => []
  | S n' => firstn size l :: chunks n' size (skipn size l)
  end.

(** The elements of an array of shape [src] seen with shape [dst]:
    along an axis of length 1 the same elements are read again. *)
Fixpoint broadcast (src dst : list Z) (d : list Z) : list Z :=
  match src, dst with
  | s :: src', t :: dst' =>
      if s =? t
      then flat_map (broadcast src' dst')
             (chunks (Z.to_nat s) (Z.to_nat (fold_right Z.mul 1 src')) d)
      else concat (repeat (broadcast src' dst' d) (Z.to_nat t))
  | _, _ => d
  end.

(** [arr[pos] = value] on the uint8 array of states, for a slot of
    shape [slot_shape]: the value is read as an array (a ragged one is
    refused), its elements are taken as C longs and cast to uint8, and
    the result is broadcast to the slot. *)
Definition astype_slot (slot_shape : list Z) (value : Frame)
    : result Frame :=
  let src := aligned (Frame.shape value) slot_shape in
  if negb (is_array value) then Raise ValueError
  else if negb (forallb c_long (Frame.data value))
  then Raise (OtherException "OverflowError")
  else if compatible src slot_shape
  then Ok (Frame.make slot_shape
             (map as_uint8 (broadcast src slot_shape (Frame.data value))))
  else Raise ValueError.

(** ** class ReplayMemory *)

Module ReplayMemory.

Import Py.

Record t : Type := make
  { max_size : Z;
    state_shape : list Z;
    history_len : Z;
    state : list Frame;
    action : list Z;
    reward : list float32;
    isOver : list bool;
    _curr_size : Z;
    _curr_pos : Z;
    _hist : deque Experience }.

Definition with_storage (m : t) (s : list Frame) (a : list Z)
    (r : list float32) (o : list bool) : t :=
  make (max_size m) (state_shape m) (history_len m) s a r o
       (_curr_size m) (_curr_pos m) (_hist m).

Definition with_state (m : t) (s : list Frame) : t :=
  with_storage m s (action m) (reward m) (isOver m).

Definition with_cursor (m : t) (size pos : Z) : t :=
  make (max_size m) (state_shape m) (history_len m)
       (state m) (action m) (reward m) (isOver m) size pos (_hist m).

Definition with_hist (m : t) (h : deque Experience) : t :=
  make (max_size m) (state_shape m) (history_len m)
       (state m) (action m) (reward m) (isOver m)
       (_curr_size m) (_curr_pos m) h.

(** [__init__]: [np.zeros] refuses a negative dimension and [deque] a
    negative [maxlen]. *)
Definition __init__ (max_size : Z) (state_shape : list Z) (history_len : Z)
    : result t :=
  if (max_size <? 0) || existsb (fun d => d <? 0) state_shape
  then Raise ValueError
  else
    let n := Z.to_nat max_size in
    h <- deque_new (history_len - 1) ;;
    Ok (make max_size state_shape history_len
             (repeat (np_zeros state_shape) n)
             (repeat 0 n) (repeat f32_zero n) (repeat false n)
             0 0 h).

(** [_assign]: four item assignments, into the uint8, float32, int32
    and bool arrays. *)
Definition _assign (m : t) (pos : Z) (exp : Experience) : result t :=
  s <- setitem_as (astype_slot (state_shape m)) (state m) pos
         (Experience.state exp) ;;
  r <- setitem (reward m) pos (as_float32 (Experience.reward exp)) ;;
  a <- setitem_as astype_int32 (action m) pos (Experience.action exp) ;;
  o <- setitem (isOver m) pos (Experience.isOver exp) ;;
  Ok (with_storage m s a r o).

Definition append (m : t) (exp : Experience) : result t :=
  m <- (if _curr_size m <? max_size m then
          m1 <- _assign m (_curr_pos m) exp ;;
          pos <- mod_ (_curr_pos m1 + 1) (max_size m1) ;;
          Ok (with_cursor m1 (_curr_size m1 + 1) pos)
        else
          m1 <- _assign m (_curr_pos m) exp ;;
          pos <- mod_ (_curr_pos m1 + 1) (max_size m1) ;;
          Ok (with_cursor m1 (_curr_size m1) pos)) ;;
  if Experience.isOver exp
  then Ok (with_hist m (deque_clear (_hist m)))
  else Ok (with_hist m (deque_append (_hist m) exp)).

Definition recent_state (m : t) : list Frame :=
  let lst := items (_hist m) in
  let states :=
    repeat (np_zeros (state_shape m)) (Z.to_nat (maxlen (_hist m) - len lst)) in
  states ++ map Experience.state lst.

Definition __len__ (m : t) : Z := _curr_size m.

(** An array of frames met while sampling: a view of [self.state]
    (sharing its memory) or an array with a buffer of its own. *)
Inductive ndarray : Type :=
| View (lo hi : Z)
| Own (data : list Frame).

(** The frames an array holds, read in memory [m]. *)
Definition frames (m : t) (a : ndarray) : list Frame :=
  match a with
  | View lo hi => slice (state m) lo hi
  | Own d => d
  end.

(** [copy.deepcopy(state)] *)
Definition deepcopy (m : t) (a : ndarray) : ndarray := Own (frames m a).

(** [state[:n].fill(0)]: writes through to whatever memory [state]
    refers to. *)
Definition fill_zero_to (m : t) (a : ndarray) (n : Z) : t * ndarray :=
  match a with
  | Own d =>
      let c := Z.to_nat (bound (len d) n) in
      (m, Own (map zero_fill (firstn c d) ++ skipn c d))
  | View lo hi =>
      let st := state m in
      let lo' := bound (len st) lo in
      let hi' := bound (len st) hi in
      let c := Z.to_nat (bound (Z.max 0 (hi' - lo')) n) in
      let p := Z.to_nat lo' in
      (with_state m
         (firstn p st ++ map zero_fill (firstn c (skipn p st))
            ++ skipn (p + c) st),
       View lo hi)
  end.

(** The array [sample] returns: [base] seen through [transpose(axes)]. *)
Record stacked : Type := mkStacked { base : ndarray; axes : list nat }.

(** The loop of [_pad_sample] over the positions [ks]. *)
Fixpoint _pad_loop (ks : list Z) (m : t) (state : ndarray)
    (isOver : list bool) : result (t * ndarray) :=
  match ks with
  | [] => Ok (m, state)
  | k :: ks' =>
      b <- getitem isOver k ;;
      if b : bool then
        let state := deepcopy m state in
        Ok (fill_zero_to m state (k + 1))       (* break *)
      else _pad_loop ks' m state isOver
  end.

Definition _pad_sample (m : t) (state : ndarray) (reward : list float32)
    (action : list Z) (isOver : list bool)
    : result (t * (stacked * float32 * Z * bool)) :=
  '(m, state) <- _pad_loop (range_down (history_len m - 2)) m state isOver ;;
  let ndim := 1 + len (state_shape m) in
  st <- (if ndim =? 4 then Ok (mkStacked state [1; 2; 3; 0]%nat)
         else if ndim =? 3 then Ok (mkStacked state [1; 2; 0]%nat)
         else Raise ValueError) ;;
  r <- getitem reward (-2) ;;
  a <- getitem action (-2) ;;
  o <- getitem isOver (-2) ;;
  Ok (m, (st, r, a, o)).

Definition _slice {A : Type} (arr : list A) (start end_ : Z) : list A :=
  let s1 := slice_from arr start in
  let s2 := slice_to arr end_ in
  s1 ++ s2.

Definition sample (m : t) (idx : Z)
    : result (t * (stacked * float32 * Z * bool)) :=
  idx <- mod_ (_curr_pos m + idx) (_curr_size m) ;;
  let k := history_len m + 1 in
  let '(state, reward, action, isOver) :=
    if idx + k <=? _curr_size m then
      (View idx (idx + k),
       slice (reward m) idx (idx + k),
       slice (action m) idx (idx + k),
       slice (isOver m) idx (idx + k))
    else
      let end_ := idx + k - _curr_size m in
      (Own (_slice (state m) idx end_),
       _slice (reward m) idx end_,
       _slice (action m) idx end_,
       _slice (isOver m) idx end_) in
  _pad_sample m state reward action isOver.

(** The elements of a stacked array in its own (frame-last) order:
    for every pixel position, the value of that pixel in each frame. *)
Definition stacked_data (m : t) (s : stacked) : list Z :=
  let fs := frames m (base s) in
  let npix := Z.to_nat (fold_right Z.mul 1 (state_shape m)) in
  flat_map (fun j => map (fun f => nth j (Frame.data f) 0) fs) (seq 0 npix).

Definition stacked_shape (m : t) (s : stacked) : list Z :=
  state_shape m ++ [len (frames m (base s))].

(** The transition stored in physical slot [p]. *)
Definition slot (m : t) (p : Z) : option Experience :=
  match nth_error (state m) (Z.to_nat p), nth_error (action m) (Z.to_nat p),
        nth_error (reward m) (Z.to_nat p), nth_error (isOver m) (Z.to_nat p)
  with
  | Some s, Some a, Some r, Some o => Some (Experience.make s a r o)
  | _, _, _, _ => None
  end.

(** [append] over a list of transitions, oldest first. *)
Fixpoint appends (m : t) (exps : list Experience) : result t :=
  match exps with
  | [] => Ok m
  | e :: es => m' <- append m e ;; appends m' es
  end.

(** A memory built by [__init__] and filled by [append]. *)
Definition run (max_size : Z) (state_shape : list Z) (history_len : Z)
    (exps : list Experience) : result t :=
  m <- __init__ max_size state_shape history_len ;;
  appends m exps.

(** The three reading methods, each as a transformer of the object:
    what the call leaves of the memory, and what it returns. *)
Inductive query : Type :=
| Sample (idx : Z)
| RecentState
| Len.

Inductive answer : Type :=
| ASample (r : stacked * float32 * Z * bool)
| AStates (l : list Frame)
| ALen (n : Z).

Definition call (q : query) (m : t) : result (t * answer) :=
  match q with
  | Sample idx => '(m', r) <- sample m idx ;; Ok (m', ASample r)
  | RecentState => Ok (m, AStates (recent_state m))
  | Len => Ok (m, ALen (__len__ m))
  end.

End ReplayMemory.

Import Py ReplayMemory.

(** ** Invariants, windows and scenarios *)

(** A transition that does not end its episode. *)
Definition live (e : Experience) : Prop := Experience.isOver e = false.

(** The invariant of a memory of positive capacity: the size and the
    cursor stay in range, the cursor follows the size while the ring
    fills, the four arrays keep the length of the ring, and the queue
    of recent transitions is a bounded queue of live transitions. *)
Record wf (m : t) : Prop := mk_wf
  { wf_cap : 0 < max_size m;
    wf_size : 0 <= _curr_size m <= max_size m;
    wf_pos : 0 <= _curr_pos m < max_size m;
    wf_filling : _curr_size m < max_size m -> _curr_pos m = _curr_size m;
    wf_state : len (state m) = max_size m;
    wf_action : len (action m) = max_size m;
    wf_reward : len (reward m) = max_size m;
    wf_isOver : len (isOver m) = max_size m;
    wf_hl : 1 <= history_len m;
    wf_maxlen : maxlen (_hist m) = history_len m - 1;
    wf_hist_len : len (items (_hist m)) <= history_len m - 1;
    wf_hist_live : Forall live (items (_hist m)) }.

(** The state array has two or three axes besides the frame axis. *)
Definition shape_2d_or_3d (shape : list Z) : Prop :=
  len shape = 2 \/ len shape = 3.

(** The transition as the four arrays hold it once it is assigned to
    a slot of shape [shape], or the error the assignment raises. *)
Definition stored_form (shape : list Z) (e : Experience)
    : result Experience :=
  s <- astype_slot shape (Experience.state e) ;;
  a <- astype_int32 (Experience.action e) ;;
  Ok (Experience.make s a (as_float32 (Experience.reward e))
        (Experience.isOver e)).

(** The assignment does not raise. *)
Definition storable (shape : list Z) (e : Experience) : bool :=
  match stored_form shape e with
  | Ok _ => true
  | Raise _ => false
  end.

(** The stored form of a transition that can be stored. *)
Definition as_stored (shape : list Z) (e : Experience) : Experience :=
  match stored_form shape e with
  | Ok s => s
  | Raise _ => e
  end.

(** What [append] leaves, written out field by field: the arrays get
    the stored form, the queue the transition as it was given. *)
Definition appended (m : t) (e : Experience) : t :=
  let p := Z.to_nat (_curr_pos m) in
  let s := as_stored (state_shape m) e in
  make (max_size m) (state_shape m) (history_len m)
       (update (state m) p (Experience.state s))
       (update (action m) p (Experience.action s))
       (update (reward m) p (Experience.reward s))
       (update (isOver m) p (Experience.isOver s))
       (Z.min (_curr_size m + 1) (max_size m))
       ((_curr_pos m + 1) mod max_size m)
       (if Experience.isOver e then deque_clear (_hist m)
        else deque_append (_hist m) e).

(** After the appends [exps] (oldest first): the size, the cursor, and
    where each of the last [max_size] appends is stored, in its stored
    form. *)
Definition ring_inv (exps : list Experience) (m : t) : Prop :=
  _curr_size m = Z.min (len exps) (max_size m) /\
  _curr_pos m = len exps mod max_size m /\
  forall p, 0 <= p -> len exps - max_size m <= p < len exps ->
    slot m (p mod max_size m)
    = option_map (as_stored (state_shape m)) (nth_error exps (Z.to_nat p)).

(** The first position of [ks] whose flag is set: where the loop stops. *)
Fixpoint first_set (ks : list Z) (flags : list bool) : option Z :=
  match ks with
  | [] => None
  | k :: ks' =>
      match nth_error flags (Z.to_nat k) with
      | Some true => Some k
      | _ => first_set ks' flags
      end
  end.

(** The first [n] frames zeroed, the others kept. *)
Definition zero_prefix (n : nat) (fs : list Frame) : list Frame :=
  map zero_fill (firstn n fs) ++ skipn n fs.

(** The physical index [sample] starts from. *)
Definition phys (m : t) (li : Z) : Z :=
  (_curr_pos m + li) mod _curr_size m.

(** What [sample] takes from one storage array. *)
Definition read_window {A : Type} (m : t) (li : Z) (arr : list A) : list A :=
  let idx := phys m li in
  let k := history_len m + 1 in
  if idx + k <=? _curr_size m then slice arr idx (idx + k)
  else _slice arr idx (idx + k - _curr_size m).

(** The state array [sample] hands to [_pad_sample]. *)
Definition state_window (m : t) (li : Z) : ndarray :=
  let idx := phys m li in
  let k := history_len m + 1 in
  if idx + k <=? _curr_size m then View idx (idx + k)
  else Own (_slice (state m) idx (idx + k - _curr_size m)).

(** The window lies in the valid region, or the ring is full and at
    least as long as the history. *)
Definition window_fits (m : t) (li : Z) : Prop :=
  phys m li + history_len m + 1 <= _curr_size m \/
  (_curr_size m = max_size m /\ history_len m <= max_size m).

(** The entry of the storage array [arr] at position [j] of the window
    that starts at logical index [li]: slot [(phys + j) mod size]. *)
Definition stored {A : Type} (m : t) (li : Z) (arr : list A) (j : Z)
    : option A :=
  nth_error arr (Z.to_nat ((phys m li + j) mod _curr_size m)).

(** The array of shape 1x1 that holds [v]. *)
Definition pixel (v : Z) : Frame := Frame.make [1; 1] [v].

(** States [1], [2], [3] (terminal), [4], [5] of shape 1x1, with any
    actions and rewards. *)
Definition scenario (a1 a2 a3 a4 a5 : Z) (r1 r2 r3 r4 r5 : float32)
    : list Experience :=
  [ Experience.make (pixel 1) a1 r1 false;
    Experience.make (pixel 2) a2 r2 false;
    Experience.make (pixel 3) a3 r3 true;
    Experience.make (pixel 4) a4 r4 false;
    Experience.make (pixel 5) a5 r5 false ].

(** The float32 value of the integer [n]. *)
Definition f32 (n : positive) : float32 :=
  as_float32 (S754_finite false n 0).

(** The scenario with actions 11..15 and rewards 1.0..5.0. *)
Definition scenario_exps : list Experience :=
  scenario 11 12 13 14 15 (f32 1) (f32 2) (f32 3) (f32 4) (f32 5).

(** The memory the scenario leaves (capacity 5, history 2): the
    arrays hold the actions and rewards as converted, the queue the
    last transition as given. *)
Definition scenario_result (a1 a2 a3 a4 a5 : Z) (r1 r2 r3 r4 r5 : float32)
    : t :=
  make 5 [1; 1] 2
       [pixel 1; pixel 2; pixel 3; pixel 4; pixel 5]
       [as_int32 a1; as_int32 a2; as_int32 a3; as_int32 a4; as_int32 a5]
       [as_float32 r1; as_float32 r2; as_float32 r3; as_float32 r4;
        as_float32 r5]
       [false; false; true; false; false]
       5 0 (mkDeque 1 [Experience.make (pixel 5) a5 r5 false]).

Definition scenario_memory : t :=
  scenario_result 11 12 13 14 15 (f32 1) (f32 2) (f32 3) (f32 4) (f32 5).

(** Three appends into a memory of capacity 5 and history 2. *)
Definition three_exps : list Experience :=
  [ Experience.make (pixel 1) 11 (f32 1) false;
    Experience.make (pixel 2) 12 (f32 2) false;
    Experience.make (pixel 3) 13 (f32 3) false ].

Definition three_memory : t :=
  make 5 [1; 1] 2
       [pixel 1; pixel 2; pixel 3; pixel 0; pixel 0] [11; 12; 13; 0; 0]
       [f32 1; f32 2; f32 3; f32_zero; f32_zero]
       [false; false; false; false; false]
       3 3 (mkDeque 1 [Experience.make (pixel 3) 13 (f32 3) false]).

(** Frames of two pixels (shape 2x1), the second one ending an
    episode, in a memory of capacity 4 and history 2. *)
Definition pair (u v : Z) : Frame := Frame.make [2; 1] [u; v].

Definition pairs_exps : list Experience :=
  [ Experience.make (pair 1 10) 11 (f32 1) false;
    Experience.make (pair 2 20) 12 (f32 2) true;
    Experience.make (pair 3 30) 13 (f32 3) false;
    Experience.make (pair 4 40) 14 (f32 4) false ].

Definition pairs_memory : t :=
  make 4 [2; 1] 3
       [pair 1 10; pair 2 20; pair 3 30; pair 4 40] [11; 12; 13; 14]
       [f32 1; f32 2; f32 3; f32 4]
       [false; true; false; false]
       4 0 (mkDeque 2 [Experience.make (pair 3 30) 13 (f32 3) false;
                       Experience.make (pair 4 40) 14 (f32 4) false]).

(** ** The metric callbacks *)

Declare Scope stmt_scope.
Delimit Scope stmt_scope with stmt.

Section Callbacks.

(** What the callbacks reach outside the repository: the monitors of
    the trainer, the statistics of the player, the episode runner and
    the clock.  [Scalar] is a metric value, [Clock] a clock reading,
    [Env] the state of these collaborators. *)
Variables Scalar Clock Env : Type.

Record World : Type := mkWorld { env : Env; log : list string }.

(** A statement: it may change the world and it may raise. *)
Definition M (A : Type) : Type := World -> World * result A.

Definition ret {A : Type} (a : A) : M A := fun w => (w, Ok a).

Definition bind {A B : Type} (c : M A) (k : A -> M B) : M B :=
  fun w =>
    match c w with
    | (w', Ok a) => k a w'
    | (w', Raise e) => (w', Raise e)
    end.

Local Notation "x <- c ;; k" := (bind c (fun x => k))
  (at level 61, c at next level, right associativity) : stmt_scope.
Local Notation "c ;; k" := (bind c (fun _ => k))
  (at level 61, right associativity) : stmt_scope.
Local Open Scope stmt_scope.

(** A call into a collaborator: it acts on [Env], out of reach of
    the log. *)
Definition op (A : Type) : Type := Env -> Env * result A.

Definition lift {A : Type} (f : op A) : M A :=
  fun w => let (e', r) := f (env w) in (mkWorld e' (log w), r).

(** [logger.exception(msg)] *)
Definition logger_exception (msg : string) : M unit :=
  fun w => (mkWorld (env w) (log w ++ [msg]), Ok tt).

(** [try: body] / [except Exception: handler] *)
Definition try_except_Exception (body handler : M unit) : M unit :=
  fun w =>
    match body w with
    | (w', Ok a) => (w', Ok a)
    | (w', Raise e) =>
        if isinstance_Exception e then handler w' else (w', Raise e)
    end.

(** The four [StatCounter]s the callbacks read:
    [self._player_scores], [self._player_distError],
    [self.player.num_games], [self.player.num_success]. *)
Inductive stat : Type := Scores | DistError | NumGames | NumSuccess.

Record Host : Type := mkHost
  { put_scalar : string -> Scalar -> op unit;  (* trainer.monitors.put_scalar *)
    stat_average : stat -> op Scalar;          (* StatCounter.average *)
    stat_max : stat -> op Scalar;              (* StatCounter.max *)
    stat_sum : stat -> op Scalar;              (* StatCounter.sum *)
    stat_count : stat -> op Z;                 (* StatCounter.count *)
    stat_reset : stat -> op unit;              (* StatCounter.reset() *)
    reset_stat : op unit;                      (* player.reset_stat() *)
    asscalar : Scalar -> op Scalar;            (* np.asscalar *)
    truediv : Scalar -> Scalar -> op Scalar;   (* a / b *)
    of_int : Z -> Scalar;
    eval_with_funcs : Z -> op (Scalar * Scalar * Scalar * Scalar);
    time_time : op Clock;                      (* time.time() *)
    elapsed_gt : Clock -> Clock -> Z -> bool;  (* t1 - t0 > n *)
    scale_094 : Z -> Z }.                      (* int(n * 0.94) *)

(** The host [h] with monitors that raise [e] when they are given
    the scalar [name]. *)
Definition refusing (name : string) (e : exn) (h : Host) : Host :=
  mkHost
    (fun n v env =>
       if String.eqb n name then (env, Raise e) else put_scalar h n v env)
    (stat_average h) (stat_max h) (stat_sum h) (stat_count h)
    (stat_reset h) (reset_stat h) (asscalar h) (truediv h) (of_int h)
    (eval_with_funcs h) (time_time h) (elapsed_gt h) (scale_094 h).

(** Collaborators that never raise: each call is given by what it
    leaves of the environment and what it returns. *)
Record Quiet : Type := mkQuiet
  { q_put : string -> Scalar -> Env -> Env;
    q_average : stat -> Env -> Env * Scalar;
    q_max : stat -> Env -> Env * Scalar;
    q_sum : stat -> Env -> Env * Scalar;
    q_count : stat -> Env -> Env * Z;
    q_reset : stat -> Env -> Env;
    q_reset_stat : Env -> Env;
    q_asscalar : Scalar -> Env -> Env * Scalar;
    q_truediv : Scalar -> Scalar -> Env -> Env * Scalar;
    q_of_int : Z -> Scalar;
    q_eval : Z -> Env -> Env * (Scalar * Scalar * Scalar * Scalar);
    q_time : Env -> Env * Clock;
    q_elapsed_gt : Clock -> Clock -> Z -> bool;
    q_scale : Z -> Z }.

Definition quietly {A : Type} (f : Env -> Env * A) : op A :=
  fun env => (fst (f env), Ok (snd (f env))).

Definition host_of (q : Quiet) : Host :=
  mkHost
    (fun n v env => (q_put q n v env, Ok tt))
    (fun s => quietly (q_average q s))
    (fun s => quietly (q_max q s))
    (fun s => quietly (q_sum q s))
    (fun s => quietly (q_count q s))
    (fun s env => (q_reset q s env, Ok tt))
    (fun env => (q_reset_stat q env, Ok tt))
    (fun x => quietly (q_asscalar q x))
    (fun a b => quietly (q_truediv q a b))
    (q_of_int q)
    (fun n => quietly (q_eval q n))
    (quietly (q_time q))
    (q_elapsed_gt q)
    (q_scale q).

Variable h : Host.

(** [ExpReplay._trigger], the body of the [try]. *)
Definition emit_scores : M unit :=
  mean <- lift (stat_average h Scores) ;;
  max <- lift (stat_max h Scores) ;;
  lift (put_scalar h "expreplay/mean_score" mean) ;;
  lift (put_scalar h "expreplay/max_score" max) ;;
  mean <- lift (stat_average h DistError) ;;
  max <- lift (stat_max h DistError) ;;
  lift (put_scalar h "expreplay/mean_dist" mean) ;;
  lift (put_scalar h "expreplay/max_dist" max).

(** [ExpReplay._trigger], the [try] statement. *)
Definition log_scores : M unit :=
  try_except_Exception emit_scores
    (logger_exception "Cannot log training scores.").

(** [ExpReplay._trigger], from [v.reset()] to the end. *)
Definition publish_counts : M unit :=
  lift (stat_reset h Scores) ;;
  lift (stat_reset h DistError) ;;
  c <- lift (stat_count h NumGames) ;;
  (if c =? 0 then lift (put_scalar h "n_games" (of_int h 0))
   else
     s <- lift (stat_sum h NumGames) ;;
     x <- lift (asscalar h s) ;;
     lift (put_scalar h "n_games" x)) ;;
  c <- lift (stat_count h NumSuccess) ;;
  (if c =? 0 then
     lift (put_scalar h "n_success" (of_int h 0)) ;;
     lift (put_scalar h "n_success_ratio" (of_int h 0))
   else
     s <- lift (stat_sum h NumSuccess) ;;
     x <- lift (asscalar h s) ;;
     lift (put_scalar h "n_success" x) ;;
     s1 <- lift (stat_sum h NumSuccess) ;;
     s2 <- lift (stat_sum h NumGames) ;;
     q <- lift (truediv h s1 s2) ;;
     lift (put_scalar h "n_success_ratio" q)) ;;
  lift (reset_stat h).

Definition ExpReplay_trigger : M unit :=
  log_scores ;; publish_counts.

(** [Evaluator._trigger]; [self.eval_episode] goes in and comes out. *)
Definition Evaluator_trigger (eval_episode : Z) : M Z :=
  t0 <- lift (time_time h) ;;
  scores <- lift (eval_with_funcs h eval_episode) ;;
  let '(mean_score, max_score, mean_dist, max_dist) := scores in
  t1 <- lift (time_time h) ;;
  let eval_episode :=
    if elapsed_gt h t1 t0 (10 * 60) then scale_094 h eval_episode
    else eval_episode in
  lift (put_scalar h "mean_score" mean_score) ;;
  lift (put_scalar h "max_score" max_score) ;;
  lift (put_scalar h "mean_distance" mean_dist) ;;
  lift (put_scalar h "max_distance" max_dist) ;;
  ret eval_episode.

(** Statements that leave the log as it is. *)
Definition keeps_log {A : Type} (c : M A) : Prop :=
  forall w, log (fst (c w)) = log w.

End Callbacks.

Arguments mkWorld {Env} env log.
Arguments env {Env} w.
Arguments log {Env} w.
Arguments ret {Env A} a w.
Arguments bind {Env A B} c k w.
Arguments lift {Env A} f w.
Arguments logger_exception {Env} msg w.
Arguments try_except_Exception {Env} body handler w.
Arguments keeps_log {Env A} c.
Arguments mkHost {Scalar Clock Env}.
Arguments refusing {Scalar Clock Env} name e h.
Arguments mkQuiet {Scalar Clock Env}.
Arguments host_of {Scalar Clock Env} q.
Arguments emit_scores {Scalar Clock Env} h w.
Arguments log_scores {Scalar Clock Env} h w.
Arguments publish_counts {Scalar Clock Env} h w.
Arguments ExpReplay_trigger {Scalar Clock Env} h w.
Arguments Evaluator_trigger {Scalar Clock Env} h eval_episode w.

(** Monitors that record the scalars they are given. *)
Definition monitors : Type := list (string * Z).

(** A host with integer metrics: its monitors refuse the names in
    [refused]; its score counters are empty ([average] and [max] fail
    their assertion) when [no_scores] is set. *)
Definition test_host (refused : list string) (no_scores : bool)
    : Host Z Z monitors :=
  let scores_or_fail (s : stat) (mon : monitors) : monitors * result Z :=
    match s with
    | Scores | DistError =>
        if no_scores then (mon, Raise AssertionError) else (mon, Ok 1)
    | _ => (mon, Ok 1)
    end in
  mkHost
    (fun name v mon =>
       if existsb (String.eqb name) refused
       then (mon, Raise (OtherException "monitor"))
       else (mon ++ [(name, v)], Ok tt))
    scores_or_fail
    scores_or_fail
    (fun _ mon => (mon, Ok 1))
    (fun _ mon => (mon, Ok 0))
    (fun _ mon => (mon, Ok tt))
    (fun mon => (mon, Ok tt))
    (fun x mon => (mon, Ok x))
    (fun a b mon =>
       if b =? 0 then (mon, Raise ZeroDivisionError) else (mon, Ok (a / b)))
    (fun n => n)
    (fun _ mon => (mon, Ok (1, 2, 3, 4)))
    (fun mon => (mon, Ok 0))
    (fun t1 t0 n => n <? t1 - t0)
    (fun n => n * 94 / 100).

(** Collaborators that never raise, with integer metrics and
    monitors that record the scalars they are given; three games were
    played and two of them won. *)
Definition test_quiet : Quiet Z Z monitors :=
  mkQuiet
    (fun name v mon => mon ++ [(name, v)])
    (fun _ mon => (mon, 1))
    (fun _ mon => (mon, 1))
    (fun s mon => (mon, match s with NumSuccess => 2 | _ => 3 end))
    (fun _ mon => (mon, 3))
    (fun _ mon => mon)
    (fun mon => mon)
    (fun x mon => (mon, x))
    (fun a b mon => (mon, a / b))
    (fun n => n)
    (fun _ mon => (mon, (1, 2, 3, 4)))
    (fun mon => (mon, 0))
    (fun t1 t0 n => n <? t1 - t0)
    (fun n => n * 94 / 100).

(** ** Sampling in the order of the appends *)

(** The number (from 0) of the append stored at the first position of
    the window of logical index [li], in a memory of capacity [C] that
    received the appends [exps]: the appends before
    [len exps - min (len exps) C] are overwritten. *)
Definition window_start (C : Z) (exps : list Experience) (li : Z) : Z :=
  len exps - Z.min (len exps) C + li.

(** ** Loops and blocking calls *)

(** A statement that may also not return: it runs out of [fuel] in a
    [while] loop, or blocks on an event or a queue.  [None] stands for
    "has not returned". *)
Definition L (Env A : Type) : Type :=
  World Env -> World Env * option (result A).

Definition returns {Env A : Type} (c : M Env A) : L Env A :=
  fun w => let (w', r) := c w in (w', Some r).

Definition lbind {Env A B : Type} (c : L Env A) (k : A -> L Env B)
    : L Env B :=
  fun w =>
    match c w with
    | (w', Some (Ok a)) => k a w'
    | (w', Some (Raise e)) => (w', Some (Raise e))
    | (w', None) => (w', None)
    end.

(** A [result] as a statement. *)
Definition of_result {Env A : Type} (r : result A) : M Env A :=
  fun w => (w, r).

(** [while cond: body], run for at most [fuel] turns. *)
Fixpoint while_ {Env S : Type} (fuel : nat) (cond : S -> bool)
    (body : S -> M Env S) (s : S) : L Env S :=
  if cond s then
    match fuel with
    | O => fun w => (w, None)
    | Datatypes.S fuel' =>
        fun w =>
          match body s w with
          | (w', Ok s') => while_ fuel' cond body s' w'
          | (w', Raise e) => (w', Some (Raise e))
          end
    end
  else fun w => (w, Some (Ok s)).

(** [for _ in range(n): body] *)
Fixpoint for_range {Env S : Type} (n : nat) (body : S -> M Env S) (s : S)
    : M Env S :=
  match n with
  | O => ret s
  | Datatypes.S n' => bind (body s) (for_range n' body)
  end.

(** ** class ExpReplay: filling the memory and reading batches *)

(** What reaches the logger and the progress bar; these calls are
    taken not to raise. *)
Inductive notice (Noise : Type) : Type :=
| Legal_actions (n : Z)        (* logger.info("Number of Legal actions: ...") *)
| Populating (epsilon : Noise) (* logger.info("Populating replay memory ...") *)
| Pbar_open (total : Z)        (* get_tqdm(total=...).__enter__() *)
| Pbar_update                  (* pbar.update() *)
| Pbar_close.                  (* pbar.__exit__(...) *)
Arguments Legal_actions {Noise} n.
Arguments Populating {Noise} epsilon.
Arguments Pbar_open {Noise} total.
Arguments Pbar_update {Noise}.
Arguments Pbar_close {Noise}.

(** [np.asarray(..., dtype="int8")] on one int32 value: the low byte,
    read as a signed number. *)
Definition astype_int8 (a : Z) : Z := (a + 128) mod 256 - 128.

Module ExpReplay.

Section WithCollaborators.

(** [Noise]: a float (a draw of the rng, the exploration rate); [Q]:
    the action values of the predictor; [Info]: the dict [player.step]
    returns; [Env]: the state of the rng, the player, the predictor
    and the statistics. *)
Variables Noise Q Info Env : Type.

Record Collaborators : Type := mkCollaborators
  { num_actions_of_player : op Env Z;              (* player.action_space.n *)
    rng_rand : op Env Noise;                       (* self.rng.rand() *)
    noise_le : Noise -> Noise -> bool;             (* a <= b *)
    rng_choice : Z -> op Env Z;                    (* self.rng.choice(range(n)) *)
    rng_randint : Z -> Z -> Z -> op Env (list Z);  (* self.rng.randint(lo, hi, size=n) *)
    predictor : Z -> list Frame -> op Env Q;       (* self.predictor(np.stack(history, axis)[None])[0][0] *)
    argmax : Q -> Z;                               (* np.argmax *)
    q_zeros : Z -> Q;                              (* [0] * n *)
    player_step : Z -> Q -> op Env (Frame * float32 * bool * Info);
    player_reset : op Env Frame;                   (* self.player.reset() *)
    feed_score : Info -> op Env unit;              (* self._player_scores.feed(info["score"]) *)
    feed_distError : Info -> op Env unit;          (* self._player_distError.feed(info["distError"]) *)
    notify : notice Noise -> Env -> Env }.

Variable c : Collaborators.

Local Notation "x <- c ;; k" := (bind c (fun x => k))
  (at level 61, c at next level, right associativity) : stmt_scope.
Local Notation "c ;; k" := (bind c (fun _ => k))
  (at level 61, right associativity) : stmt_scope.
Local Open Scope stmt_scope.

Definition tell (n : notice Noise) : M Env unit :=
  fun w => (mkWorld (notify c n (env w)) (log w), Ok tt).

Record t : Type := make
  { batch_size : Z;
    memory_size : Z;
    init_memory_size : Z;
    update_frequency : Z;
    history_len : Z;
    exploration : Noise;
    num_actions : Z;
    mem : ReplayMemory.t;
    _current_ob : Frame;
    _init_memory_flag : bool;   (* threading.Event: set or not *)
    _populate_job_queue : Z }.  (* queue.Queue(maxsize=5): tokens waiting *)

(** [self._populate_job_queue.maxsize] *)
Definition queue_maxsize : Z := 5.

Definition with_mem (self : t) (m : ReplayMemory.t) (ob : Frame) : t :=
  make (batch_size self) (memory_size self) (init_memory_size self)
       (update_frequency self) (history_len self) (exploration self)
       (num_actions self) m ob (_init_memory_flag self)
       (_populate_job_queue self).

Definition with_flag (self : t) (flag : bool) : t :=
  make (batch_size self) (memory_size self) (init_memory_size self)
       (update_frequency self) (history_len self) (exploration self)
       (num_actions self) (mem self) (_current_ob self) flag
       (_populate_job_queue self).

Definition with_queue (self : t) (tokens : Z) : t :=
  make (batch_size self) (memory_size self) (init_memory_size self)
       (update_frequency self) (history_len self) (exploration self)
       (num_actions self) (mem self) (_current_ob self)
       (_init_memory_flag self) tokens.

Definition __init__ (state_shape : list Z)
    (batch_size memory_size init_memory_size : Z) (init_exploration : Noise)
    (update_frequency history_len : Z) : M Env t :=
  n <- lift (num_actions_of_player c) ;;
  tell (Legal_actions n) ;;
  m <- of_result (ReplayMemory.__init__ memory_size state_shape history_len) ;;
  ob <- lift (player_reset c) ;;
  ret (make batch_size memory_size init_memory_size update_frequency
            history_len init_exploration n m ob false 0).

(** Two shapes are the same. *)
Definition shape_eqb (s1 s2 : list Z) : bool :=
  if list_eq_dec Z.eq_dec s1 s2 then true else false.

(** The axis [_populate_exp] stacks the history on: 3 when
    [np.ndim(history)] is 4 (3d states), otherwise 2, which [np.stack]
    refuses for states of fewer than two axes; arrays of different
    shapes cannot be stacked, nor can an empty list. *)
Definition stack_axis (history : list Frame) : result Z :=
  match history with
  | [] => Raise ValueError
  | f :: rest =>
      if forallb (fun g => shape_eqb (Frame.shape g) (Frame.shape f)) rest
      then
        let ndim := 1 + len (Frame.shape f) in
        if ndim =? 4 then Ok 3
        else if 3 <=? ndim then Ok 2
        else Raise (OtherException "AxisError")
      else Raise ValueError
  end.

Definition _populate_exp (self : t) : M Env t :=
  let old_s := _current_ob self in
  let q_values := q_zeros c (num_actions self) in
  x <- lift (rng_rand c) ;;
  choice <-
    (if noise_le c x (exploration self)
        || (ReplayMemory.__len__ (mem self) <=? history_len self)
     then
       act <- lift (rng_choice c (num_actions self)) ;;
       ret (act, q_values)
     else
       let history := recent_state (mem self) ++ [old_s] in
       axis <- of_result (stack_axis history) ;;
       q_values <- lift (predictor c axis history) ;;
       ret (argmax c q_values, q_values)) ;;
  let '(act, q_values) := choice in
  stepped <- lift (player_step c act q_values) ;;
  let '(ob, reward, isOver, info) := stepped in
  (if isOver : bool then
     lift (feed_score c info) ;;
     lift (feed_distError c info) ;;
     lift (player_reset c) ;;
     ret tt
   else ret tt) ;;
  m <- of_result
         (append (mem self) (Experience.make old_s act reward isOver)) ;;
  ret (with_mem self m ob).

(** [with get_tqdm(total=...) as pbar: body] *)
Definition with_pbar {A : Type} (total : Z) (body : L Env A) : L Env A :=
  fun w =>
    match body (fst (tell (Pbar_open total) w)) with
    | (w', None) => (w', None)
    | (w', Some r) => (fst (tell Pbar_close w'), Some r)
    end.

(** One turn of the filling loops: [self._populate_exp()] then
    [pbar.update()]. *)
Definition populate_and_update (self : t) : M Env t :=
  self <- _populate_exp self ;;
  tell Pbar_update ;;
  ret self.

Definition _init_memory (fuel : nat) (self : t) : L Env t :=
  lbind (returns (tell (Populating (exploration self)))) (fun _ =>
  lbind (with_pbar (init_memory_size self)
           (while_ fuel
              (fun self =>
                 ReplayMemory.__len__ (mem self) <? init_memory_size self)
              populate_and_update self)) (fun self =>
  returns (ret (with_flag self true)))).

(** The second loop of [_fake_init_memory]:
    [self.mem.append(deepcopy(self.mem._hist[0]))] then
    [pbar.update()]. *)
Definition append_oldest_recent (self : t) : M Env t :=
  e <- of_result (getitem (items (_hist (mem self))) 0) ;;
  m <- of_result (append (mem self) e) ;;
  tell Pbar_update ;;
  ret (with_mem self m (_current_ob self)).

Definition _fake_init_memory (fuel : nat) (self : t) : L Env t :=
  lbind (with_pbar (init_memory_size self)
           (lbind (while_ fuel
                     (fun self => ReplayMemory.__len__ (mem self) <? 5)
                     populate_and_update self) (fun self =>
            while_ fuel
              (fun self =>
                 ReplayMemory.__len__ (mem self) <? init_memory_size self)
              append_oldest_recent self))) (fun self =>
  returns (ret (with_flag self true))).

(** [populate_job_func] of [get_simulator_thread]:
    [self._populate_job_queue.get()] blocks on an empty queue. *)
Definition populate_job_func (self : t) : L Env t :=
  if _populate_job_queue self <=? 0 then fun w => (w, None)
  else
    returns
      (for_range (Z.to_nat (update_frequency self)) _populate_exp
         (with_queue self (_populate_job_queue self - 1))).

(** The four arrays of a batch, in the order [_process_batch] returns
    them. *)
Record batch : Type := mkBatch
  { b_state : list stacked;
    b_action : list Z;
    b_reward : list float32;
    b_isOver : list bool }.

(** [np.asarray] copies the stacked states into one array, which
    needs them to have one shape, and casts the actions to int8. *)
Definition _process_batch (m : ReplayMemory.t)
    (batch_exp : list (stacked * float32 * Z * bool)) : result batch :=
  let windows := map (fun e => frames m (base (fst (fst (fst e))))) batch_exp in
  let same_shape :=
    match windows with
    | [] => true
    | w0 :: ws => forallb (fun w => len w =? len w0) ws
    end in
  if same_shape then
    Ok (mkBatch
          (map (fun e => let st := fst (fst (fst e)) in
                         mkStacked (Own (frames m (base st))) (axes st))
               batch_exp)
          (map (fun e => astype_int8 (snd (fst e))) batch_exp)
          (map (fun e => snd (fst (fst e))) batch_exp)
          (map (fun e => snd e) batch_exp))
  else Raise ValueError.

(** [[self.mem.sample(i) for i in idx]] *)
Fixpoint sample_all (m : ReplayMemory.t) (idx : list Z)
    : result (ReplayMemory.t * list (stacked * float32 * Z * bool)) :=
  match idx with
  | [] => Ok (m, [])
  | i :: rest =>
      rbind (sample m i) (fun '(m1, e) =>
      rbind (sample_all m1 rest) (fun '(m2, es) => Ok (m2, e :: es)))
  end.

(** [get_data], one turn of its loop once the memory is initialised:
    from the draw of the indices to the batch yielded.  It blocks
    while [_init_memory_flag] is not set. *)
Definition get_data_turn (self : t) : L Env (t * batch) :=
  if _init_memory_flag self then
    returns
      (idx <- lift (rng_randint c
                      (queue_maxsize * update_frequency self)
                      (ReplayMemory.__len__ (mem self) - history_len self - 1)
                      (batch_size self)) ;;
       sampled <- of_result (sample_all (mem self) idx) ;;
       let '(m, batch_exp) := sampled in
       b <- of_result (_process_batch m batch_exp) ;;
       ret (with_mem self m (_current_ob self), b))
  else fun w => (w, None).

(** The same collaborators with another predictor. *)
Definition with_predictor (p : Z -> list Frame -> op Env Q) : Collaborators :=
  mkCollaborators (num_actions_of_player c) (rng_rand c) (noise_le c)
    (rng_choice c) (rng_randint c) p (argmax c) (q_zeros c)
    (player_step c) (player_reset c) (feed_score c) (feed_distError c)
    (notify c).

(** What [__init__] establishes and the methods keep: the memory is
    well formed and has the history length and the capacity the
    object was configured with. *)
Definition consistent (self : t) : Prop :=
  wf (mem self) /\
  history_len self = ReplayMemory.history_len (mem self) /\
  memory_size self = max_size (mem self).

(** An array of shape [shape], of integers that fit a C long. *)
Definition shaped (shape : list Z) (f : Frame) : Prop :=
  Frame.shape f = shape /\ is_array f = true /\
  forallb c_long (Frame.data f) = true.

(** The observations the object holds are arrays of the state shape,
    the current one and those of the recent transitions, and the
    actions of the recent transitions fit a C long. *)
Definition tidy (self : t) : Prop :=
  shaped (state_shape (mem self)) (_current_ob self) /\
  Forall (fun e => shaped (state_shape (mem self)) (Experience.state e) /\
                   c_long (Experience.action e) = true)
    (items (_hist (mem self))).

(** Collaborators that do not raise: every call returns, the actions
    are integers that fit a C long (numpy integers do), and the
    observations of the player are arrays of shape [shape]. *)
Record dependable (shape : list Z) : Prop := mk_dependable
  { dep_num_actions :
      forall env, exists env' n,
        num_actions_of_player c env = (env', Ok n);
    dep_rand :
      forall env, exists env' x, rng_rand c env = (env', Ok x);
    dep_choice :
      forall n env, exists env' a,
        rng_choice c n env = (env', Ok a) /\ c_long a = true;
    dep_predictor :
      forall axis history env, exists env' q,
        predictor c axis history env = (env', Ok q);
    dep_argmax : forall q, c_long (argmax c q) = true;
    dep_step :
      forall act q env, exists env' ob r o info,
        player_step c act q env = (env', Ok (ob, r, o, info)) /\
        shaped shape ob;
    dep_reset :
      forall env, exists env' ob,
        player_reset c env = (env', Ok ob) /\ shaped shape ob;
    dep_feed_score :
      forall info env, exists env', feed_score c info env = (env', Ok tt);
    dep_feed_distError :
      forall info env, exists env',
        feed_distError c info env = (env', Ok tt) }.

End WithCollaborators.

Arguments mkCollaborators {Noise Q Info Env}.
Arguments num_actions_of_player {Noise Q Info Env} _.
Arguments rng_rand {Noise Q Info Env} _.
Arguments noise_le {Noise Q Info Env} _.
Arguments rng_choice {Noise Q Info Env} _.
Arguments rng_randint {Noise Q Info Env} _.
Arguments predictor {Noise Q Info Env} _.
Arguments argmax {Noise Q Info Env} _.
Arguments q_zeros {Noise Q Info Env} _.
Arguments player_step {Noise Q Info Env} _.
Arguments player_reset {Noise Q Info Env} _.
Arguments feed_score {Noise Q Info Env} _.
Arguments feed_distError {Noise Q Info Env} _.
Arguments notify {Noise Q Info Env} _.
Arguments make {Noise}.
Arguments batch_size {Noise} _.
Arguments memory_size {Noise} _.
Arguments init_memory_size {Noise} _.
Arguments update_frequency {Noise} _.
Arguments history_len {Noise} _.
Arguments exploration {Noise} _.
Arguments num_actions {Noise} _.
Arguments mem {Noise} _.
Arguments _current_ob {Noise} _.
Arguments _init_memory_flag {Noise} _.
Arguments _populate_job_queue {Noise} _.
Arguments with_mem {Noise} self m ob.
Arguments with_flag {Noise} self flag.
Arguments with_queue {Noise} self tokens.
Arguments tell {Noise Q Info Env} c n w.
Arguments __init__ {Noise Q Info Env} c.
Arguments _populate_exp {Noise Q Info Env} c self w.
Arguments populate_and_update {Noise Q Info Env} c self w.
Arguments with_pbar {Noise Q Info Env} c {A} total body w.
Arguments _init_memory {Noise Q Info Env} c fuel self w.
Arguments append_oldest_recent {Noise Q Info Env} c self w.
Arguments _fake_init_memory {Noise Q Info Env} c fuel self w.
Arguments populate_job_func {Noise Q Info Env} c self w.
Arguments get_data_turn {Noise Q Info Env} c self w.
Arguments with_predictor {Noise Q Info Env} c p.
Arguments consistent {Noise} self.
Arguments tidy {Noise} self.
Arguments dependable {Noise Q Info Env} c shape.
Arguments mk_dependable {Noise Q Info Env} c shape.
Arguments dep_num_actions {Noise Q Info Env c shape} _.
Arguments dep_rand {Noise Q Info Env c shape} _.
Arguments dep_choice {Noise Q Info Env c shape} _.
Arguments dep_predictor {Noise Q Info Env c shape} _.
Arguments dep_argmax {Noise Q Info Env c shape} _.
Arguments dep_step {Noise Q Info Env c shape} _.
Arguments dep_reset {Noise Q Info Env c shape} _.
Arguments dep_feed_score {Noise Q Info Env c shape} _.
Arguments dep_feed_distError {Noise Q Info Env c shape} _.

End ExpReplay.

(** ** dataReader.py: the lists of files and the images *)

(** Text as Python reads it from a file opened in text mode (newlines
    already translated to ["\n"]). *)
Definition newline : Ascii.ascii := Ascii.ascii_of_nat 10.

(** [for line in open(name)]: the lines of a file, each with its
    newline, the last one possibly without. *)
Fixpoint file_lines (content : string) : list string :=
  match content with
  | EmptyString => []
  | String ch rest =>
      if Ascii.eqb ch newline then String ch EmptyString :: file_lines rest
      else
        match file_lines rest with
        | [] => [String ch EmptyString]
        | l :: ls => String ch l :: ls
        end
  end.

(** [line.split('\n')[0]] *)
Fixpoint before_newline (line : string) : string :=
  match line with
  | EmptyString => EmptyString
  | String ch rest =>
      if Ascii.eqb ch newline then EmptyString
      else String ch (before_newline rest)
  end.

(** [pat in s] *)
Fixpoint contains (pat s : string) : bool :=
  prefix pat s ||
  match s with
  | EmptyString => false
  | String _ rest => contains pat rest
  end.

(** ['\n' not in s] *)
Fixpoint newline_free (s : string) : bool :=
  match s with
  | EmptyString => true
  | String ch rest => negb (Ascii.eqb ch newline) && newline_free rest
  end.

(** The content of a file written one name per line. *)
Fixpoint unlines (names : list string) : string :=
  match names with
  | [] => EmptyString
  | n :: rest => (n ++ String newline (unlines rest))%string
  end.

(** The files the reader can open: path to content. *)
Definition Files : Type := string -> option string.

(** [open(name)] then reading it whole. *)
Definition open_ (fs : Files) (name : string) : result string :=
  match fs name with
  | Some content => Ok content
  | None => Raise (OtherException "FileNotFoundError")
  end.

(** What the reader gets from SimpleITK, itk, pandas and numpy: the
    decoding pipeline behind [NiftiImage.decode], the two parsers of
    landmark files, the change of coordinates and the rounding. *)
Record Imaging (Sitk Image Point Landmark Spacing : Type) : Type :=
  mkImaging
  { sitk_pipeline : string -> bool -> result (Sitk * Image);
    getLandmarksFromFCSVFile : string -> result (list Point);
    getLandmarksFromTXTFile : string -> result (list Point);
    TransformPhysicalPointToContinuousIndex : Sitk -> Point -> result Point;
    round_astype_int : Point -> Landmark;   (* np.round(p).astype('int') *)
    GetSpacing : Sitk -> Spacing }.
Arguments mkImaging {Sitk Image Point Landmark Spacing}.
Arguments sitk_pipeline {Sitk Image Point Landmark Spacing} _.
Arguments getLandmarksFromFCSVFile {Sitk Image Point Landmark Spacing} _.
Arguments getLandmarksFromTXTFile {Sitk Image Point Landmark Spacing} _.
Arguments TransformPhysicalPointToContinuousIndex
  {Sitk Image Point Landmark Spacing} _.
Arguments round_astype_int {Sitk Image Point Landmark Spacing} _.
Arguments GetSpacing {Sitk Image Point Landmark Spacing} _.

Module NiftiImage.

Definition extensions : list string :=
  [".nii"; ".nii.gz"; ".img"; ".hdr"]%string.

Definition _is_nifti (filename : string) : bool :=
  existsb (fun i => contains i filename) extensions.

(** [decode]: the assertion on the name, then the imaging pipeline. *)
Definition decode {Sitk Image Point Landmark Spacing : Type}
    (im : Imaging Sitk Image Point Landmark Spacing)
    (filename : string) (label : bool) : result (Sitk * Image) :=
  if _is_nifti filename then sitk_pipeline im filename label
  else Raise AssertionError.

End NiftiImage.

Module filesListBrainMRLandmark.

Record t : Type := make
  { image_files : list string;
    returnLandmarks : bool;
    fiducial : Z;
    landmark_files : option (list string) }.  (* set when returnLandmarks *)

(** [files_list] is [None] or the list of the names of the files
    given. *)
Definition __init__ (fs : Files) (files_list : option (list string))
    (returnLandmarks : bool) (fiducial : Z) : result t :=
  match files_list with
  | None | Some [] => Raise AssertionError
  | Some names =>
      name0 <- getitem names 0 ;;
      content0 <- open_ fs name0 ;;
      let image_files := map before_newline (file_lines content0) in
      if returnLandmarks then
        name1 <- getitem names 1 ;;
        content1 <- open_ fs name1 ;;
        let landmark_files := map before_newline (file_lines content1) in
        if len image_files =? len landmark_files
        then Ok (make image_files returnLandmarks fiducial
                      (Some landmark_files))
        else Raise AssertionError
      else Ok (make image_files returnLandmarks fiducial None)
  end.

Definition num_files (self : t) : Z := len (image_files self).

(** [np.arange(n)] *)
Definition arange (n : Z) : list Z :=
  map Z.of_nat (seq 0 (Z.to_nat n)).

Section SampleCircular.

Context {Sitk Image Point Landmark Spacing : Type}
        (im : Imaging Sitk Image Point Landmark Spacing).

(** What one turn of the [for] loop of [sample_circular] yields. *)
Definition yield_for (self : t) (idx : Z)
    : result (Image * option Landmark * string * Spacing) :=
  name <- getitem (image_files self) idx ;;
  '(sitk_image, image) <- NiftiImage.decode im name false ;;
  landmark <-
    (if returnLandmarks self then
       files <- match landmark_files self with
                | Some l => Ok l
                | None => Raise (OtherException "AttributeError")
                end ;;
       landmark_file <- getitem files idx ;;
       all_landmarks <-
         (if contains ".fcsv" landmark_file
          then getLandmarksFromFCSVFile im landmark_file
          else getLandmarksFromTXTFile im landmark_file) ;;
       landmark <- getitem all_landmarks (fiducial self) ;;
       landmark <-
         (if contains ".fcsv" landmark_file
          then TransformPhysicalPointToContinuousIndex im sitk_image landmark
          else Ok landmark) ;;
       Ok (Some (round_astype_int im landmark))
     else Ok None) ;;
  image_filename <- getitem (image_files self) idx ;;
  Ok (image, landmark, image_filename, GetSpacing im sitk_image).

(** The generator [sample_circular(shuffle)]: not started, inside the
    [for] loop with the indices still to visit, or finished. *)
Inductive generator : Type :=
| NotStarted (shuffle : bool)
| Running (pending : list Z)
| Finished.

(** The [while True] loop from inside the [for] loop, up to the next
    [yield]; every new pass over the indices takes one unit of fuel. *)
Fixpoint resume (fuel : nat) (self : t) (pending : list Z)
    : option (result (Image * option Landmark * string * Spacing)
              * generator) :=
  match pending with
  | idx :: rest =>
      match yield_for self idx with
      | Ok item => Some (Ok item, Running rest)
      | Raise e => Some (Raise e, Finished)
      end
  | [] =>
      match fuel with
      | O => None
      | S fuel' =>
          match arange (num_files self) with
          | [] => resume fuel' self []
          | idx :: rest =>
              match yield_for self idx with
              | Ok item => Some (Ok item, Running rest)
              | Raise e => Some (Raise e, Finished)
              end
          end
      end
  end.

(** [next(g)]; [None]: the call does not return.  With [shuffle] the
    body evaluates [rng.choice(x, len(x), replace=False)], and neither
    [rng] nor [x] is a name of the module. *)
Definition next (fuel : nat) (self : t) (g : generator)
    : option (result (Image * option Landmark * string * Spacing)
              * generator) :=
  match g with
  | NotStarted true => Some (Raise (OtherException "NameError"), Finished)
  | NotStarted false => resume fuel self (arange (num_files self))
  | Running pending => resume fuel self pending
  | Finished => Some (Raise (OtherException "StopIteration"), Finished)
  end.

(** The first [k] items a fresh generator yields. *)
Fixpoint take (k : nat) (fuel : nat) (self : t) (g : generator)
    : option (result (list (Image * option Landmark * string * Spacing))) :=
  match k with
  | O => Some (Ok [])
  | S k' =>
      match next fuel self g with
      | None => None
      | Some (Raise e, _) => Some (Raise e)
      | Some (Ok item, g') =>
          match take k' fuel self g' with
          | None => None
          | Some (Raise e) => Some (Raise e)
          | Some (Ok items) => Some (Ok (item :: items))
          end
      end
  end.

End SampleCircular.

End filesListBrainMRLandmark.

(** ** common.py: playing one episode *)

Module Play.

Section WithGame.

(** [Ob]: an observation; [Qv]: the action values; [Reward] and
    [Score]: a reward and a sum of rewards; [Info]: the dict of
    [env.step] and [Value] its values; [Env]: the state of the
    environment and of the predictor. *)
Variables Ob Qv Reward Score Info Value Env : Type.

Record Game : Type := mkGame
  { env_reset : op Env Ob;                      (* env.reset() *)
    func : Ob -> op Env Qv;                     (* func(s[None, :, :, :])[0][0] *)
    q_argmax : Qv -> Z;                         (* q_values.argmax() *)
    env_step : Z -> Qv -> op Env (Ob * Reward * bool * Info);
    env_render : op Env unit;                   (* env.render() *)
    score_zero : Score;                         (* 0 *)
    score_add : Score -> Reward -> Score;       (* sum_r + r *)
    info_get : Info -> string -> result Value }. (* info[key] *)

Variable g : Game.

Local Notation "x <- c ;; k" := (bind c (fun x => k))
  (at level 61, c at next level, right associativity) : stmt_scope.
Local Notation "c ;; k" := (bind c (fun _ => k))
  (at level 61, right associativity) : stmt_scope.
Local Open Scope stmt_scope.

(** One turn of the loop, up to [sum_r += r]: [predict], [env.step],
    [env.render] when asked. *)
Definition turn (render : bool) (ob : Ob)
    : M Env (Ob * Reward * bool * Info * Qv) :=
  q_values <- lift (func g ob) ;;
  let act := q_argmax g q_values in
  stepped <- lift (env_step g act q_values) ;;
  (if render then lift (env_render g) else ret tt) ;;
  ret (stepped, q_values).

(** The tuple returned when the episode is over. *)
Definition episode_result (sum_r : Score) (info : Info) (q_values : Qv)
    : result (Score * Value * Value * Qv * Value) :=
  (filename <- info_get g info "filename" ;;
   distError <- info_get g info "distError" ;;
   location <- info_get g info "location" ;;
   Ok (sum_r, filename, distError, q_values, location))%py.

(** [while True: ...], for at most [fuel] turns. *)
Fixpoint play_loop (fuel : nat) (render : bool) (ob : Ob) (sum_r : Score)
    : L Env (Score * Value * Value * Qv * Value) :=
  match fuel with
  | O => fun w => (w, None)
  | S fuel' =>
      lbind (returns (turn render ob)) (fun t =>
        let '(ob', r, isOver, info, q_values) := t in
        let sum_r := score_add g sum_r r in
        if isOver : bool
        then returns (of_result (episode_result sum_r info q_values))
        else play_loop fuel' render ob' sum_r)
  end.

Definition play_one_episode (fuel : nat) (render : bool)
    : L Env (Score * Value * Value * Qv * Value) :=
  lbind (returns (lift (env_reset g))) (fun ob =>
  play_loop fuel render ob (score_zero g)).

(** An episode seen from outside: from observation [ob] the turns
    give the rewards [rs], the last turn being the first to report
    the end, with the dict and the action values [last]. *)
Inductive episode (render : bool)
    : World Env -> Ob -> list Reward -> World Env -> Info * Qv -> Prop :=
| episode_ends w ob w' ob' r info q :
    turn render ob w = (w', Ok (ob', r, true, info, q)) ->
    episode render w ob [r] w' (info, q)
| episode_goes_on w ob w1 ob1 r info1 q1 rs w' last :
    turn render ob w = (w1, Ok (ob1, r, false, info1, q1)) ->
    episode render w1 ob1 rs w' last ->
    episode render w ob (r :: rs) w' last.

End WithGame.

Arguments mkGame {Ob Qv Reward Score Info Value Env}.
Arguments env_reset {Ob Qv Reward Score Info Value Env} _.
Arguments func {Ob Qv Reward Score Info Value Env} _.
Arguments q_argmax {Ob Qv Reward Score Info Value Env} _.
Arguments env_step {Ob Qv Reward Score Info Value Env} _.
Arguments env_render {Ob Qv Reward Score Info Value Env} _.
Arguments score_zero {Ob Qv Reward Score Info Value Env} _.
Arguments score_add {Ob Qv Reward Score Info Value Env} _.
Arguments info_get {Ob Qv Reward Score Info Value Env} _.
Arguments turn {Ob Qv Reward Score Info Value Env} g render ob w.
Arguments episode_result {Ob Qv Reward Score Info Value Env} g.
Arguments play_loop {Ob Qv Reward Score Info Value Env} g fuel render ob sum_r w.
Arguments play_one_episode {Ob Qv Reward Score Info Value Env} g fuel render w.
Arguments episode {Ob Qv Reward Score Info Value Env} g render.

End Play.

(** ** Collaborators, files and games for the examples *)

(** The environment is a clock.  The player shows the time as its
    observation and ends an episode at every third step; the rng never
    explores by itself ([rand()] is 1), picks action [t mod 4] and
    draws the lowest index allowed; the predictor sums each frame. *)
Definition test_collaborators : ExpReplay.Collaborators Z (list Z) unit Z :=
  ExpReplay.mkCollaborators
    (fun t => (t, Ok 4))
    (fun t => (t, Ok 1))
    Z.leb
    (fun n t => (t, Ok (t mod 4)))
    (fun lo hi n t => (t, Ok (repeat lo (Z.to_nat n))))
    (fun axis history t =>
       (t, Ok (map (fun f => fold_right Z.add 0 (Frame.data f)) history)))
    (fun q => 0)
    (fun n => repeat 0 (Z.to_nat n))
    (fun act q t => (t + 1, Ok (pixel (t mod 256), f32 1, t mod 3 =? 2, tt)))
    (fun t => (t, Ok (pixel 0)))
    (fun _ t => (t, Ok tt))
    (fun _ t => (t, Ok tt))
    (fun _ t => t).

(** An [ExpReplay] object of batch size 2, capacity [capacity],
    history 2 and exploration 0, holding the observation [[9]]. *)
Definition test_replay (capacity init_memory_size update_frequency : Z)
    (m : ReplayMemory.t) (flag : bool) (tokens : Z) : ExpReplay.t Z :=
  ExpReplay.make 2 capacity init_memory_size update_frequency 2 0 4 m
    (pixel 9) flag tokens.

(** The scenario in a memory of capacity 7. *)
Definition seven_memory : t :=
  make 7 [1; 1] 2
       [pixel 1; pixel 2; pixel 3; pixel 4; pixel 5; pixel 0; pixel 0]
       [11; 12; 13; 14; 15; 0; 0]
       [f32 1; f32 2; f32 3; f32 4; f32 5; f32_zero; f32_zero]
       [false; false; true; false; false; false; false]
       5 5 (mkDeque 1 [Experience.make (pixel 5) 15 (f32 5) false]).

(** Two lists of two names, the first without its last newline. *)
Definition test_files : Files :=
  fun name =>
    if String.eqb name "images.txt"
    then Some (unlines ["a.nii.gz"] ++ "b.nii.gz")%string
    else if String.eqb name "landmarks.txt"
    then Some (unlines ["a.fcsv"; "b.txt"])%string
    else None.

Definition test_list : filesListBrainMRLandmark.t :=
  filesListBrainMRLandmark.make ["a.nii.gz"; "b.nii.gz"]%string true 0
    (Some ["a.fcsv"; "b.txt"]%string).

(** An imaging library that answers with the name of the file for
    the image and with one landmark for every landmark file. *)
Definition test_imaging : Imaging string string (list Z) (list Z) unit :=
  mkImaging
    (fun name label => Ok (name, name))
    (fun file => Ok [[1; 2; 3]])
    (fun file => Ok [[4; 5; 6]])
    (fun sitk_image p => Ok p)
    (fun p => p)
    (fun sitk_image => tt).

(** [info[key]] on an association list. *)
Fixpoint assoc_get (info : list (string * Z)) (key : string) : result Z :=
  match info with
  | [] => Raise (OtherException "KeyError")
  | (k, v) :: rest => if String.eqb k key then Ok v else assoc_get rest key
  end.

(** A game on a clock: every step gives the reward 10, and the step
    taken at time 2 ends the episode. *)
Definition test_game
    : Play.Game Z (list Z) Z Z (list (string * Z)) Z Z :=
  Play.mkGame
    (fun t => (t, Ok t))
    (fun ob t => (t, Ok [ob; 0]))
    (fun q => 0)
    (fun act q t =>
       (t + 1,
        Ok (t + 1, 10, 2 <=? t,
            [("filename", 7); ("distError", t); ("location", 3)]%string)))
    (fun t => (t, Ok tt))
    0
    Z.add
    assoc_get.

(** ** Lists, slices and indices *)

Section PyFacts.
Context {A : Type}.
Implicit Types (arr : list A) (x : A).

Lemma update_length arr n x : length (update arr n x) = length arr.
Proof.
  revert n; induction arr as [|h t IH]; intros [|n]; simpl; auto.
Qed.

Lemma update_nth_same arr n x :
  (n < length arr)%nat -> nth_error (update arr n x) n = Some x.
Proof.
  revert n; induction arr as [|h t IH]; intros [|n] H; simpl in *;
    try lia; auto.
  apply IH; lia.
Qed.

Lemma update_nth_other arr n q x :
  q <> n -> nth_error (update arr n x) q = nth_error arr q.
Proof.
  revert n q; induction arr as [|h t IH]; intros [|n] [|q] H; simpl;
    auto; try congruence.
Qed.

Lemma setitem_in_range arr i x :
  0 <= i < len arr -> setitem arr i x = Ok (update arr (Z.to_nat i) x).
Proof.
  intros H. unfold setitem.
  destruct (i <? 0) eqn:E; [apply Z.ltb_lt in E; lia|].
  replace ((0 <=? i) && (i <? len arr)) with true; [reflexivity|].
  symmetry; apply andb_true_iff; split;
    [apply Z.leb_le | apply Z.ltb_lt]; lia.
Qed.

Lemma setitem_as_in_range {B : Type} (cast : B -> result A) arr i (y : B) :
  0 <= i < len arr ->
  setitem_as cast arr i y = (v <- cast y ;; Ok (update arr (Z.to_nat i) v)).
Proof.
  intros H. unfold setitem_as.
  destruct (i <? 0) eqn:E; [apply Z.ltb_lt in E; lia|].
  replace ((0 <=? i) && (i <? len arr)) with true; [reflexivity|].
  symmetry; apply andb_true_iff; split;
    [apply Z.leb_le | apply Z.ltb_lt]; lia.
Qed.

Lemma getitem_in_range arr i :
  0 <= i < len arr ->
  exists x, nth_error arr (Z.to_nat i) = Some x /\ getitem arr i = Ok x.
Proof.
  intros H. unfold getitem, len in *.
  destruct (i <? 0) eqn:E; [apply Z.ltb_lt in E; lia|].
  replace ((0 <=? i) && (i <? Z.of_nat (length arr))) with true.
  2:{ symmetry; apply andb_true_iff; split;
      [apply Z.leb_le | apply Z.ltb_lt]; lia. }
  destruct (nth_error arr (Z.to_nat i)) as [x|] eqn:N; [eauto|].
  apply nth_error_None in N. lia.
Qed.

(** [arr[-2]] is the element before the last. *)
Lemma getitem_minus2 arr :
  2 <= len arr ->
  exists x, nth_error arr (length arr - 2) = Some x /\ getitem arr (-2) = Ok x.
Proof.
  intros H. unfold getitem, len in *.
  change (-2 <? 0) with true. cbv iota zeta.
  replace ((0 <=? -2 + Z.of_nat (length arr))
           && (-2 + Z.of_nat (length arr) <? Z.of_nat (length arr))) with true.
  2:{ symmetry; apply andb_true_iff; split;
      [apply Z.leb_le | apply Z.ltb_lt]; lia. }
  replace (Z.to_nat (-2 + Z.of_nat (length arr))) with (length arr - 2)%nat
    by lia.
  destruct (nth_error arr (length arr - 2)) as [x|] eqn:N.
  - exists x; split; reflexivity.
  - apply nth_error_None in N. lia.
Qed.

Lemma bound_in_range n i : 0 <= i <= n -> bound n i = i.
Proof.
  intros H. unfold bound.
  destruct (i <? 0) eqn:E; [apply Z.ltb_lt in E|]; lia.
Qed.

(** A slice that lies inside the array. *)
Lemma slice_inside arr lo hi :
  0 <= lo <= hi -> hi <= len arr ->
  slice arr lo hi = firstn (Z.to_nat (hi - lo)) (skipn (Z.to_nat lo) arr).
Proof.
  intros H1 H2. unfold slice. rewrite !bound_in_range by lia. reflexivity.
Qed.

Lemma slice_inside_length arr lo hi :
  0 <= lo <= hi -> hi <= len arr ->
  length (slice arr lo hi) = Z.to_nat (hi - lo).
Proof.
  intros H1 H2. rewrite slice_inside by assumption.
  rewrite length_firstn, length_skipn. unfold len in *. lia.
Qed.

Lemma slice_inside_nth arr lo hi (j : nat) :
  0 <= lo <= hi -> hi <= len arr -> Z.of_nat j < hi - lo ->
  nth_error (slice arr lo hi) j = nth_error arr (Z.to_nat lo + j).
Proof.
  intros H1 H2 H3. rewrite slice_inside by assumption.
  rewrite nth_error_firstn.
  destruct (Nat.ltb_spec j (Z.to_nat (hi - lo))); [|lia].
  apply nth_error_skipn.
Qed.

(** The two-part window [arr[start:] ++ arr[:end]]. *)
Lemma _slice_length arr start end_ :
  0 <= start <= len arr -> 0 <= end_ <= len arr ->
  len (_slice arr start end_) = len arr - start + end_.
Proof.
  intros H1 H2. unfold _slice, slice_from, slice_to, len in *.
  rewrite !bound_in_range by (unfold len; lia).
  rewrite length_app, length_skipn, length_firstn. lia.
Qed.

Lemma _slice_nth arr start end_ (j : nat) :
  0 <= start <= len arr -> 0 <= end_ <= len arr ->
  nth_error (_slice arr start end_) j =
    if Z.of_nat j <? len arr - start
    then nth_error arr (Z.to_nat start + j)
    else if Z.of_nat j <? len arr - start + end_
         then nth_error arr (j - (length arr - Z.to_nat start))
         else None.
Proof.
  intros H1 H2. unfold _slice, slice_from, slice_to, len in *.
  rewrite !bound_in_range by (unfold len; lia).
  destruct (Z.ltb_spec (Z.of_nat j) (Z.of_nat (length arr) - start)).
  - rewrite nth_error_app1 by (rewrite length_skipn; lia).
    apply nth_error_skipn.
  - rewrite nth_error_app2 by (rewrite length_skipn; lia).
    rewrite length_skipn, nth_error_firstn.
    destruct (Z.ltb_spec (Z.of_nat j) (Z.of_nat (length arr) - start + end_));
      destruct (Nat.ltb_spec (j - (length arr - Z.to_nat start))
                             (Z.to_nat end_)); try lia; reflexivity.
Qed.

End PyFacts.

(** ** The conversions of item assignment *)

Lemma as_uint8_range (v : Z) : 0 <= as_uint8 v < 256.
Proof. unfold as_uint8. apply Z.mod_pos_bound. lia. Qed.

Lemma as_uint8_exact (v : Z) : 0 <= v < 256 -> as_uint8 v = v.
Proof. intros H. unfold as_uint8. apply Z.mod_small. exact H. Qed.

Lemma as_int32_range (v : Z) : -2147483648 <= as_int32 v < 2147483648.
Proof.
  unfold as_int32.
  pose proof (Z.mod_pos_bound (v + 2147483648) 4294967296 ltac:(lia)). lia.
Qed.

Lemma as_int32_exact (v : Z) :
  -2147483648 <= v < 2147483648 -> as_int32 v = v.
Proof. intros H. unfold as_int32. rewrite Z.mod_small; lia. Qed.

(** The cast to int32 changes exactly the integers outside int32. *)
Lemma as_int32_fixed (v : Z) :
  as_int32 v = v <-> -2147483648 <= v < 2147483648.
Proof.
  split; [|apply as_int32_exact].
  intros H. rewrite <- H. apply as_int32_range.
Qed.

Lemma size_nonneg (shape : list Z) :
  Forall (fun d => 0 <= d) shape -> 0 <= fold_right Z.mul 1 shape.
Proof.
  induction 1 as [|d l Hd _ IH]; simpl; [lia|]. apply Z.mul_nonneg_nonneg; assumption.
Qed.

Lemma chunks_concat {A : Type} (n size : nat) (l : list A) :
  length l = (n * size)%nat -> concat (chunks n size l) = l.
Proof.
  revert l. induction n as [|n IH]; intros l H; simpl in *.
  - destruct l; [reflexivity | discriminate].
  - rewrite IH by (rewrite length_skipn; lia). apply firstn_skipn.
Qed.

Lemma chunks_sizes {A : Type} (n size : nat) (l : list A) :
  length l = (n * size)%nat ->
  Forall (fun c => length c = size) (chunks n size l).
Proof.
  revert l. induction n as [|n IH]; intros l H; simpl in *; constructor.
  - rewrite length_firstn. lia.
  - apply IH. rewrite length_skipn. lia.
Qed.

(** Broadcasting an array to its own shape changes nothing. *)
Lemma broadcast_same (shape : list Z) :
  Forall (fun d => 0 <= d) shape ->
  forall d, Z.of_nat (length d) = fold_right Z.mul 1 shape ->
    broadcast shape shape d = d.
Proof.
  induction 1 as [|x l Hx Hl IH]; intros d Hd; simpl in *; [reflexivity|].
  rewrite Z.eqb_refl.
  pose proof (size_nonneg l Hl) as Hn.
  set (k := fold_right Z.mul 1 l) in *.
  assert (Ld : length d = (Z.to_nat x * Z.to_nat k)%nat).
  { rewrite <- Z2Nat.inj_mul by assumption. lia. }
  rewrite flat_map_concat_map.
  rewrite <- (chunks_concat _ _ d Ld) at 2. f_equal.
  pose proof (chunks_sizes _ _ d Ld) as F.
  induction F as [|c cs Hc _ IHF]; simpl; [reflexivity|].
  rewrite IHF. f_equal. apply IH. lia.
Qed.

Lemma strip_ones_0 (s : list Z) : strip_ones 0 s = s.
Proof. destruct s; reflexivity. Qed.

Lemma aligned_same (shape : list Z) : aligned shape shape = shape.
Proof.
  unfold aligned. rewrite Nat.sub_diag, strip_ones_0, Nat.sub_diag.
  reflexivity.
Qed.

Lemma compatible_same (shape : list Z) : compatible shape shape = true.
Proof.
  induction shape as [|d l IH]; simpl; [reflexivity|].
  rewrite Z.eqb_refl, IH. reflexivity.
Qed.

(** What a slot of the state array holds after an assignment: an
    array of the shape of the slot, of dtype uint8. *)
Lemma astype_slot_uint8 (shape : list Z) (f g : Frame) :
  astype_slot shape f = Ok g ->
  Frame.shape g = shape /\
  Forall (fun v => 0 <= v < 256) (Frame.data g).
Proof.
  unfold astype_slot.
  destruct (is_array f); [|discriminate].
  destruct (forallb c_long (Frame.data f)); [|discriminate].
  destruct (compatible (aligned (Frame.shape f) shape) shape);
    [|discriminate].
  intros H. injection H as <-. simpl. split; [reflexivity|].
  apply Forall_map, Forall_forall. intros v _. apply as_uint8_range.
Qed.

Lemma product_strip_ones (n : nat) (s : list Z) :
  fold_right Z.mul 1 (strip_ones n s) = fold_right Z.mul 1 s.
Proof.
  revert s. induction n as [|n IH]; intros [|x s]; try reflexivity.
  destruct x as [|[q|q|]|q]; try reflexivity.
  cbn [strip_ones fold_right]. rewrite IH. lia.
Qed.

Lemma product_repeat_ones (n : nat) (s : list Z) :
  fold_right Z.mul 1 (repeat 1 n ++ s) = fold_right Z.mul 1 s.
Proof.
  induction n as [|n IH]; [reflexivity|].
  cbn [repeat app fold_right]. rewrite IH. lia.
Qed.

Lemma product_aligned (value_shape slot_shape : list Z) :
  fold_right Z.mul 1 (aligned value_shape slot_shape)
  = fold_right Z.mul 1 value_shape.
Proof.
  unfold aligned. rewrite product_repeat_ones. apply product_strip_ones.
Qed.

Lemma compatible_nonneg (src dst : list Z) :
  compatible src dst = true -> Forall (fun d => 0 <= d) dst ->
  Forall (fun d => 0 <= d) src.
Proof.
  revert dst. induction src as [|x src IH]; intros [|y dst] H F;
    simpl in H; try discriminate; constructor.
  - apply andb_true_iff in H as (H & _). inversion F; subst.
    apply orb_true_iff in H as [H | H]; apply Z.eqb_eq in H; lia.
  - apply andb_true_iff in H as (_ & H). inversion F; subst.
    apply (IH dst); assumption.
Qed.

Lemma length_flat_map_const {A B : Type} (f : A -> list B) (l : list A)
    (k : nat) :
  Forall (fun x => length (f x) = k) l ->
  length (flat_map f l) = (length l * k)%nat.
Proof.
  induction 1 as [|x l Hx _ IH]; simpl; [reflexivity|].
  rewrite length_app, Hx, IH. reflexivity.
Qed.

Lemma length_concat_repeat {A : Type} (x : list A) (n : nat) :
  length (concat (repeat x n)) = (n * length x)%nat.
Proof.
  induction n as [|n IH]; simpl; [reflexivity|].
  rewrite length_app, IH. reflexivity.
Qed.

Lemma chunks_length {A : Type} (n size : nat) (l : list A) :
  length (chunks n size l) = n.
Proof.
  revert l. induction n as [|n IH]; intros l; simpl; [reflexivity|].
  rewrite IH. reflexivity.
Qed.

(** A broadcast array has as many elements as its shape says. *)
Lemma broadcast_length (src dst : list Z) :
  compatible src dst = true -> Forall (fun d => 0 <= d) dst ->
  forall d, Z.of_nat (length d) = fold_right Z.mul 1 src ->
    Z.of_nat (length (broadcast src dst d)) = fold_right Z.mul 1 dst.
Proof.
  revert dst. induction src as [|x src IH]; intros [|y dst] H F d Hd;
    simpl in H; try discriminate; [exact Hd|].
  apply andb_true_iff in H as (Hxy & H).
  inversion F as [|? ? Hy F']; subst.
  pose proof (compatible_nonneg src dst H F') as Fs.
  pose proof (size_nonneg src Fs) as Hn.
  pose proof (size_nonneg dst F') as Hm.
  cbn [broadcast fold_right] in *.
  set (k := fold_right Z.mul 1 src) in *.
  set (k' := fold_right Z.mul 1 dst) in *.
  destruct (Z.eqb_spec x y) as [->|Hne].
  - assert (Ld : length d = (Z.to_nat y * Z.to_nat k)%nat).
    { rewrite <- Z2Nat.inj_mul by assumption. lia. }
    rewrite (length_flat_map_const _ _ (Z.to_nat k')).
    + rewrite chunks_length. rewrite <- Z2Nat.inj_mul by assumption. lia.
    + pose proof (chunks_sizes _ _ d Ld) as C.
      induction C as [|c cs Hc _ IHC]; constructor; [|exact IHC].
      specialize (IH dst H F' c ltac:(lia)). fold k' in IH. lia.
  - cbn [orb] in Hxy. apply Z.eqb_eq in Hxy. subst x.
    rewrite length_concat_repeat.
    specialize (IH dst H F' d ltac:(lia)). fold k' in IH.
    rewrite Nat2Z.inj_mul, IH. lia.
Qed.

(** What a slot holds has as many elements as the shape of the slot
    says. *)
Lemma astype_slot_size (shape : list Z) (f g : Frame) :
  Forall (fun d => 0 <= d) shape ->
  astype_slot shape f = Ok g ->
  length (Frame.data g) = Z.to_nat (fold_right Z.mul 1 shape).
Proof.
  intros F. unfold astype_slot.
  destruct (is_array f) eqn:Ea; [|discriminate].
  destruct (forallb c_long (Frame.data f)); [|discriminate].
  destruct (compatible (aligned (Frame.shape f) shape) shape) eqn:Ec;
    [|discriminate].
  intros H. injection H as <-. cbn [Frame.data].
  unfold is_array in Ea. apply andb_true_iff in Ea as (_ & Ea).
  apply Z.eqb_eq in Ea.
  rewrite length_map.
  pose proof (broadcast_length _ _ Ec F (Frame.data f)
                ltac:(rewrite product_aligned; exact Ea)).
  lia.
Qed.

(** An array of the shape of the slot is stored element by element,
    each one reduced modulo 256. *)
Lemma astype_slot_same_shape (f g : Frame) :
  astype_slot (Frame.shape f) f = Ok g ->
  g = Frame.make (Frame.shape f) (map (fun v => v mod 256) (Frame.data f)).
Proof.
  unfold astype_slot.
  destruct (is_array f) eqn:H; [|discriminate].
  destruct (forallb c_long (Frame.data f)); [|discriminate].
  rewrite aligned_same, compatible_same. cbn [negb].
  intros E. injection E as <-.
  unfold is_array in H. apply andb_true_iff in H as (Hn & Hl).
  rewrite broadcast_same.
  - reflexivity.
  - apply Forall_forall. intros d Hd.
    rewrite forallb_forall in Hn. apply Z.leb_le, Hn, Hd.
  - apply Z.eqb_eq, Hl.
Qed.

Lemma astype_slot_same (f : Frame) :
  is_array f = true -> forallb c_long (Frame.data f) = true ->
  astype_slot (Frame.shape f) f
  = Ok (Frame.make (Frame.shape f)
          (map (fun v => v mod 256) (Frame.data f))).
Proof.
  intros H1 H2.
  destruct (astype_slot (Frame.shape f) f) as [g|x] eqn:E.
  - rewrite (astype_slot_same_shape f g E). reflexivity.
  - exfalso. unfold astype_slot in E.
    rewrite H1, H2, aligned_same, compatible_same in E. discriminate.
Qed.

Lemma map_as_uint8_exact (l : list Z) :
  Forall (fun v => 0 <= v < 256) l -> map as_uint8 l = l.
Proof.
  induction 1 as [|v l Hv _ IH]; simpl; [reflexivity|].
  rewrite IH, as_uint8_exact by assumption. reflexivity.
Qed.

(** An array of the shape of the slot and of dtype uint8 is stored as
    it is. *)
Lemma astype_slot_exact (f : Frame) :
  is_array f = true -> Forall (fun v => 0 <= v < 256) (Frame.data f) ->
  astype_slot (Frame.shape f) f = Ok f.
Proof.
  intros Ha Hv.
  assert (Hc : forallb c_long (Frame.data f) = true).
  { apply forallb_forall. intros v Hin.
    rewrite Forall_forall in Hv. specialize (Hv v Hin).
    unfold c_long. apply andb_true_iff.
    split; [apply Z.leb_le | apply Z.ltb_lt]; lia. }
  rewrite (astype_slot_same f Ha Hc).
  change (fun v => v mod 256) with as_uint8.
  rewrite (map_as_uint8_exact _ Hv). destruct f; reflexivity.
Qed.

(** A transition already in the shape and the dtypes of the arrays
    is stored as it is. *)
Lemma stored_form_exact (e : Experience) :
  is_array (Experience.state e) = true ->
  Forall (fun v => 0 <= v < 256) (Frame.data (Experience.state e)) ->
  -2147483648 <= Experience.action e < 2147483648 ->
  as_float32 (Experience.reward e) = Experience.reward e ->
  stored_form (Frame.shape (Experience.state e)) e = Ok e.
Proof.
  intros Ha Hv Hact Hr. unfold stored_form.
  rewrite astype_slot_exact by assumption. cbn [rbind].
  unfold astype_int32, c_long.
  replace ((-9223372036854775808 <=? Experience.action e)
           && (Experience.action e <? 9223372036854775808)) with true.
  2:{ symmetry. apply andb_true_iff. split;
      [apply Z.leb_le | apply Z.ltb_lt]; lia. }
  cbn [rbind]. rewrite as_int32_exact, Hr by assumption.
  destruct e; reflexivity.
Qed.

Lemma stored_form_storable (shape : list Z) (e : Experience) :
  storable shape e = true -> stored_form shape e = Ok (as_stored shape e).
Proof.
  unfold storable, as_stored.
  destruct (stored_form shape e); [reflexivity | discriminate].
Qed.

Lemma stored_form_fields (shape : list Z) (e s : Experience) :
  stored_form shape e = Ok s ->
  astype_slot shape (Experience.state e) = Ok (Experience.state s) /\
  astype_int32 (Experience.action e) = Ok (Experience.action s) /\
  Experience.reward s = as_float32 (Experience.reward e) /\
  Experience.isOver s = Experience.isOver e.
Proof.
  unfold stored_form. intros H.
  destruct (astype_slot shape (Experience.state e)) as [f|]; [|discriminate].
  destruct (astype_int32 (Experience.action e)) as [a|]; [|discriminate].
  simpl in H. injection H as <-. auto.
Qed.

Lemma as_stored_isOver (shape : list Z) (e : Experience) :
  Experience.isOver (as_stored shape e) = Experience.isOver e.
Proof.
  unfold as_stored. destruct (stored_form shape e) eqn:E; [|reflexivity].
  apply stored_form_fields in E. apply E.
Qed.

(** The stored form, field by field. *)
Lemma as_stored_fields (shape : list Z) (e : Experience) :
  storable shape e = true ->
  Frame.shape (Experience.state (as_stored shape e)) = shape /\
  Forall (fun v => 0 <= v < 256)
    (Frame.data (Experience.state (as_stored shape e))) /\
  Experience.action (as_stored shape e)
  = (Experience.action e + 2147483648) mod 4294967296 - 2147483648 /\
  Experience.reward (as_stored shape e) = as_float32 (Experience.reward e) /\
  Experience.isOver (as_stored shape e) = Experience.isOver e.
Proof.
  intros H. apply stored_form_storable in H.
  apply stored_form_fields in H as (Fs & Fa & Fr & Fo).
  apply astype_slot_uint8 in Fs as (F1 & F2).
  unfold astype_int32 in Fa.
  destruct (c_long (Experience.action e)); [|discriminate].
  injection Fa as Fa. unfold as_int32 in Fa. auto.
Qed.

(** The state of the stored form is an array of the shape of the
    slot. *)
Lemma as_stored_state_size (shape : list Z) (e : Experience) :
  Forall (fun d => 0 <= d) shape -> storable shape e = true ->
  Frame.shape (Experience.state (as_stored shape e)) = shape /\
  length (Frame.data (Experience.state (as_stored shape e)))
  = Z.to_nat (fold_right Z.mul 1 shape).
Proof.
  intros F H. apply stored_form_storable in H.
  apply stored_form_fields in H as (Fs & _).
  split.
  - apply (astype_slot_uint8 _ _ _ Fs).
  - apply (astype_slot_size _ _ _ F Fs).
Qed.

(** The state of the stored form, for a state of the shape of the
    slot. *)
Lemma as_stored_state_same (e : Experience) :
  is_array (Experience.state e) = true ->
  storable (Frame.shape (Experience.state e)) e = true ->
  Experience.state (as_stored (Frame.shape (Experience.state e)) e)
  = Frame.make (Frame.shape (Experience.state e))
      (map (fun v => v mod 256) (Frame.data (Experience.state e))).
Proof.
  intros Ha H. apply stored_form_storable in H.
  apply stored_form_fields in H as (Fs & _).
  exact (astype_slot_same_shape _ _ Fs).
Qed.

(** ** Well-formed memories *)

Lemma len_repeat {A : Type} (x : A) (n : Z) :
  0 <= n -> len (repeat x (Z.to_nat n)) = n.
Proof. intros H. unfold len. rewrite repeat_length. lia. Qed.

Lemma init_ok (C hl : Z) (shape : list Z) :
  0 < C -> 1 <= hl -> Forall (fun d => 0 <= d) shape ->
  exists m, __init__ C shape hl = Ok m /\ wf m /\
    max_size m = C /\ state_shape m = shape /\ history_len m = hl /\
    _curr_size m = 0 /\ _curr_pos m = 0 /\ items (_hist m) = [].
Proof.
  intros HC Hhl Hs. unfold __init__, deque_new.
  assert (E1 : (C <? 0) = false) by (apply Z.ltb_ge; lia).
  assert (E2 : existsb (fun d => d <? 0) shape = false).
  { induction Hs as [|d l Hd _ IH]; simpl; [reflexivity|].
    rewrite IH, orb_false_r. apply Z.ltb_ge; lia. }
  assert (E3 : (hl - 1 <? 0) = false) by (apply Z.ltb_ge; lia).
  rewrite E1, E2, E3. simpl.
  eexists; split; [reflexivity|].
  split; [|repeat split; reflexivity].
  constructor; simpl; try lia; try (apply len_repeat; lia).
  - unfold len; simpl; lia.
  - constructor.
Qed.

(** [append] on a well-formed memory: the assignment raises and
    nothing else is done, or the stored form goes to the slot under
    the cursor and the transition itself to the queue. *)
Lemma append_spec (m : t) (e : Experience) :
  wf m ->
  append m e = match stored_form (state_shape m) e with
               | Ok _ => Ok (appended m e)
               | Raise x => Raise x
               end.
Proof.
  intros W. destruct W. unfold append, _assign, appended, as_stored.
  rewrite !setitem_as_in_range, !setitem_in_range by lia.
  unfold stored_form.
  destruct (astype_slot (state_shape m) (Experience.state e)) as [f|x];
    cbn [rbind]; [|destruct (_curr_size m <? max_size m); reflexivity].
  destruct (astype_int32 (Experience.action e)) as [a|x];
    cbn [rbind]; [|destruct (_curr_size m <? max_size m); reflexivity].
  simpl. unfold mod_.
  destruct (Z.eqb_spec (max_size m) 0) as [E|_]; [lia|].
  destruct (Z.ltb_spec (_curr_size m) (max_size m)); simpl;
    destruct (Experience.isOver e); simpl; unfold with_hist; simpl;
    do 2 f_equal; lia.
Qed.

Lemma append_ok (m : t) (e : Experience) :
  wf m -> storable (state_shape m) e = true -> append m e = Ok (appended m e).
Proof.
  intros W H. rewrite append_spec by exact W.
  rewrite (stored_form_storable _ _ H). reflexivity.
Qed.

Lemma append_raise (m : t) (e : Experience) (x : exn) :
  wf m -> stored_form (state_shape m) e = Raise x -> append m e = Raise x.
Proof. intros W H. rewrite append_spec by exact W. rewrite H. reflexivity. Qed.

Lemma append_inv (m m' : t) (e : Experience) :
  wf m -> append m e = Ok m' ->
  storable (state_shape m) e = true /\ m' = appended m e.
Proof.
  intros W H. rewrite append_spec in H by exact W. unfold storable.
  destruct (stored_form (state_shape m) e); [|discriminate].
  injection H as <-. auto.
Qed.

Lemma deque_append_live (d : deque Experience) (e : Experience) :
  Forall live (items d) -> live e -> Forall live (items (deque_append d e)).
Proof.
  intros Hd He. unfold deque_append. simpl.
  assert (F : Forall live (items d ++ [e])).
  { apply Forall_app; split; [assumption | constructor; [assumption|constructor]]. }
  destruct (maxlen d <? len (items d ++ [e])); [|assumption].
  destruct (items d ++ [e]); simpl; [constructor|].
  inversion F; assumption.
Qed.

Lemma deque_append_len (d : deque Experience) (e : Experience) :
  0 <= maxlen d -> len (items d) <= maxlen d ->
  len (items (deque_append d e)) <= maxlen d.
Proof.
  intros H0 H. unfold deque_append, len in *. simpl.
  destruct (Z.ltb_spec (maxlen d) (Z.of_nat (length (items d ++ [e]))));
    [|assumption].
  rewrite length_app in *. simpl in *.
  destruct (items d ++ [e]) eqn:E; simpl; [lia|].
  apply (f_equal (@length _)) in E. rewrite length_app in E. simpl in E. lia.
Qed.

Lemma appended_wf (m : t) (e : Experience) : wf m -> wf (appended m e).
Proof.
  intros W. destruct W.
  assert (0 <= (_curr_pos m + 1) mod max_size m < max_size m)
    by (apply Z.mod_pos_bound; lia).
  constructor; simpl; try lia; unfold len in *;
    rewrite ?update_length; try lia.
  - intros Hlt.
    assert (_curr_size m < max_size m) by lia.
    rewrite wf_filling0 by assumption.
    rewrite Z.mod_small; lia.
  - destruct (Experience.isOver e); reflexivity || assumption.
  - destruct (Experience.isOver e) eqn:E; simpl; [lia|].
    pose proof (deque_append_len (_hist m) e) as L. unfold len in L.
    rewrite wf_maxlen0 in L. apply L; lia.
  - destruct (Experience.isOver e) eqn:E; simpl; [constructor|].
    apply deque_append_live; assumption.
Qed.

Lemma appends_app (m : t) (l1 l2 : list Experience) :
  appends m (l1 ++ l2) = (m' <- appends m l1 ;; appends m' l2).
Proof.
  revert m; induction l1 as [|e l1 IH]; intros m; simpl; [reflexivity|].
  destruct (append m e); simpl; auto.
Qed.

(** ** The ring of stored transitions *)

Lemma mod_distinct (C p n : Z) :
  0 < C -> p < n -> n - p < C -> p mod C <> n mod C.
Proof.
  intros HC H1 H2 E.
  assert (Z : (n - p) mod C = 0)
    by (rewrite Zminus_mod, E, Z.sub_diag; apply Z.mod_0_l; lia).
  rewrite Z.mod_small in Z; lia.
Qed.

Lemma slot_appended_same (m : t) (e : Experience) :
  wf m ->
  slot (appended m e) (_curr_pos m) = Some (as_stored (state_shape m) e).
Proof.
  intros W. destruct W. unfold slot, appended, len in *. simpl.
  rewrite !update_nth_same by lia.
  destruct (as_stored (state_shape m) e); reflexivity.
Qed.

Lemma slot_appended_other (m : t) (e : Experience) (q : Z) :
  wf m -> 0 <= q -> q <> _curr_pos m -> slot (appended m e) q = slot m q.
Proof.
  intros W H0 Hq. destruct W. unfold slot, appended. simpl.
  rewrite !update_nth_other by lia. reflexivity.
Qed.

Lemma ring_inv_appended (exps : list Experience) (m : t) (e : Experience) :
  wf m -> ring_inv exps m -> ring_inv (exps ++ [e]) (appended m e).
Proof.
  intros W (Hs & Hp & Hslots). pose proof W as W0. destruct W.
  assert (L : len (exps ++ [e]) = len exps + 1)
    by (unfold len; rewrite length_app; simpl; lia).
  unfold ring_inv. rewrite L. simpl. repeat split.
  - lia.
  - rewrite Hp. apply Z.add_mod_idemp_l. lia.
  - intros p Hp0 Hr.
    destruct (Z.eq_dec p (len exps)) as [->|Hne].
    + rewrite <- Hp, slot_appended_same by assumption.
      unfold len. rewrite Nat2Z.id, nth_error_app2 by lia.
      rewrite Nat.sub_diag. reflexivity.
    + rewrite slot_appended_other.
      * rewrite Hslots by lia. f_equal.
        symmetry; apply nth_error_app1. unfold len in *; lia.
      * assumption.
      * apply Z.mod_pos_bound; lia.
      * rewrite Hp. apply mod_distinct; lia.
Qed.

Lemma appends_snoc (m : t) (l : list Experience) (e : Experience) :
  appends m (l ++ [e]) = (m' <- appends m l ;; append m' e).
Proof.
  rewrite appends_app. destruct (appends m l) as [m'|]; simpl; [|reflexivity].
  destruct (append m' e); reflexivity.
Qed.

Lemma run_snoc (C hl : Z) (shape : list Z) (l : list Experience)
    (e : Experience) :
  run C shape hl (l ++ [e]) = (m <- run C shape hl l ;; append m e).
Proof.
  unfold run. destruct (__init__ C shape hl) as [m0|]; simpl; [|reflexivity].
  apply appends_snoc.
Qed.

(** Every run of transitions that can be stored, in a memory of
    positive capacity, succeeds and leaves a well-formed ring. *)
Lemma run_ok (C hl : Z) (shape : list Z) (exps : list Experience) :
  0 < C -> 1 <= hl -> Forall (fun d => 0 <= d) shape ->
  Forall (fun e => storable shape e = true) exps ->
  exists m, run C shape hl exps = Ok m /\ wf m /\ ring_inv exps m /\
    max_size m = C /\ state_shape m = shape /\ history_len m = hl.
Proof.
  intros HC Hhl Hs. induction exps as [|e l IH] using rev_ind; intros Hst.
  - destruct (init_ok C hl shape HC Hhl Hs)
      as (m & E & W & H1 & H2 & H3 & H4 & H5 & _).
    exists m. unfold run. rewrite E. simpl.
    split; [reflexivity|]. split; [assumption|]. split; [|auto].
    unfold ring_inv, len. simpl. rewrite H4, H5, H1.
    split; [lia|]. split; [symmetry; apply Z.mod_0_l; lia|].
    intros; lia.
  - apply Forall_app in Hst as (Hl & He). inversion He as [|? ? He' _]; subst.
    destruct (IH Hl) as (m & E & W & R & H1 & H2 & H3).
    exists (appended m e). rewrite run_snoc, E. simpl.
    split; [apply append_ok; [assumption | rewrite H2; exact He']|].
    split; [apply appended_wf; assumption|].
    split; [apply ring_inv_appended; assumption|]. auto.
Qed.

(** A run that succeeded stored every transition. *)
Lemma run_inv (C hl : Z) (shape : list Z) (exps : list Experience) (m : t) :
  0 < C -> 1 <= hl -> Forall (fun d => 0 <= d) shape ->
  run C shape hl exps = Ok m ->
  Forall (fun e => storable shape e = true) exps.
Proof.
  intros HC Hhl Hs. revert m.
  induction exps as [|e l IH] using rev_ind; intros m E; [constructor|].
  rewrite run_snoc in E.
  destruct (run C shape hl l) as [m1|] eqn:E1; [|discriminate].
  simpl in E. pose proof (IH m1 eq_refl) as Hl.
  destruct (run_ok C hl shape l HC Hhl Hs Hl) as (m2 & E2 & W & _ & _ & H2 & _).
  rewrite E1 in E2. injection E2 as <-.
  apply append_inv in E as (He & _); [|exact W]. rewrite H2 in He.
  apply Forall_app. split; [exact Hl | constructor; [exact He | constructor]].
Qed.

(** C1.  A memory of capacity [C] that received the appends [exps],
    transitions that item assignment accepts, has length
    [n = len exps] while [n <= C]; once [n > C] its length stays [C],
    the slot under the write cursor (the one the next append
    overwrites) holds the [C]-th most recent append, and the slots
    after it hold the later appends in order.  What a slot holds of
    an append is its stored form: the state broadcast to the shape of
    the slot with its elements taken modulo 256, the action wrapped
    to int32, the reward rounded to float32, the flag; a transition
    already in that shape and these dtypes is held as it was given.
    A transition that item assignment refuses makes [append] raise
    what the assignment raises. *)
Theorem C1_length_and_ring_overwrite
    (C hl : Z) (shape : list Z) (exps : list Experience) :
  0 < C -> 1 <= hl -> Forall (fun d => 0 <= d) shape ->
  Forall (fun e => storable shape e = true) exps ->
  exists m, run C shape hl exps = Ok m /\
    let n := len exps in
    (n <= C -> __len__ m = n) /\
    (C < n ->
       __len__ m = C /\
       slot m (_curr_pos m)
       = option_map (as_stored shape) (nth_error exps (Z.to_nat (n - C))) /\
       (forall j, 0 <= j < C ->
          slot m ((_curr_pos m + j) mod C)
          = option_map (as_stored shape)
              (nth_error exps (Z.to_nat (n - C + j)))) /\
       (forall e, storable shape e = true ->
          exists m', append m e = Ok m' /\ __len__ m' = C /\
            slot m' (_curr_pos m) = Some (as_stored shape e) /\
            forall q, 0 <= q -> q <> _curr_pos m -> slot m' q = slot m q)) /\
    (forall e x, stored_form shape e = Raise x -> append m e = Raise x) /\
    (forall e, storable shape e = true ->
       Frame.shape (Experience.state (as_stored shape e)) = shape /\
       Forall (fun v => 0 <= v < 256)
         (Frame.data (Experience.state (as_stored shape e))) /\
       Experience.action (as_stored shape e)
       = (Experience.action e + 2147483648) mod 4294967296 - 2147483648 /\
       Experience.reward (as_stored shape e)
       = as_float32 (Experience.reward e) /\
       Experience.isOver (as_stored shape e) = Experience.isOver e) /\
    (forall e,
       Frame.shape (Experience.state e) = shape ->
       is_array (Experience.state e) = true ->
       Forall (fun v => 0 <= v < 256) (Frame.data (Experience.state e)) ->
       -2147483648 <= Experience.action e < 2147483648 ->
       as_float32 (Experience.reward e) = Experience.reward e ->
       storable shape e = true /\ as_stored shape e = e).
Proof.
  intros HC Hhl Hs Hst.
  destruct (run_ok C hl shape exps HC Hhl Hs Hst)
    as (m & E & W & (Rs & Rp & Rslots) & H1 & H2 & _).
  exists m. split; [exact E|]. cbv zeta. unfold __len__.
  rewrite H1, H2 in *. split; [intros; lia|].
  split; [|split; [|split]].
  - intros Hn.
    assert (J : forall j, 0 <= j < C ->
              slot m ((_curr_pos m + j) mod C)
              = option_map (as_stored shape)
                  (nth_error exps (Z.to_nat (len exps - C + j)))).
    { intros j Hj. rewrite <- Rslots by lia. f_equal.
      rewrite Rp, Z.add_mod_idemp_l by lia.
      replace (len exps - C + j) with (len exps + j + (-1) * C) by lia.
      symmetry; apply Z.mod_add; lia. }
    split; [lia|]. split; [|split; [exact J|]].
    + specialize (J 0 ltac:(lia)).
      rewrite !Z.add_0_r in J. rewrite <- J. f_equal.
      rewrite Rp. symmetry; apply Z.mod_mod; lia.
    + intros e He. exists (appended m e).
      split; [apply append_ok; [assumption | rewrite H2; exact He]|].
      split; [simpl; rewrite H1; lia|].
      split; [rewrite <- H2; apply slot_appended_same; assumption|].
      intros q Hq Hne. apply slot_appended_other; assumption.
  - intros e x Hx. apply append_raise; [exact W | rewrite H2; exact Hx].
  - intros e He. apply as_stored_fields. exact He.
  - intros e Hshape Ha Hv Hact Hr.
    pose proof (stored_form_exact e Ha Hv Hact Hr) as X.
    rewrite Hshape in X. unfold storable, as_stored. rewrite X. auto.
Qed.

(** The slots no append has reached still hold what [__init__] put
    there. *)
Lemma never_written_slots (C hl : Z) (shape : list Z)
    (exps : list Experience) :
  0 < C -> 1 <= hl -> Forall (fun d => 0 <= d) shape ->
  Forall (fun e => storable shape e = true) exps ->
  exists m, run C shape hl exps = Ok m /\
    forall p, len exps <= p < C ->
      slot m p = Some (Experience.make (np_zeros shape) 0 f32_zero false).
Proof.
  intros HC Hhl Hs. induction exps as [|e l IH] using rev_ind; intros Hst.
  - unfold run, __init__, deque_new.
    assert (E1 : (C <? 0) = false) by (apply Z.ltb_ge; lia).
    assert (E2 : existsb (fun d => d <? 0) shape = false).
    { clear Hst. induction Hs as [|d l Hd _ IH]; simpl; [reflexivity|].
      rewrite IH, orb_false_r. apply Z.ltb_ge; lia. }
    assert (E3 : (hl - 1 <? 0) = false) by (apply Z.ltb_ge; lia).
    rewrite E1, E2, E3. simpl. eexists; split; [reflexivity|].
    intros p Hp. unfold len in Hp. simpl in Hp. unfold slot. simpl.
    rewrite !nth_error_repeat by lia. reflexivity.
  - apply Forall_app in Hst as (Hl & He). inversion He as [|? ? He' _]; subst.
    destruct (IH Hl) as (m & E & Hslots).
    destruct (run_ok C hl shape l HC Hhl Hs Hl)
      as (m0 & E0 & W & (_ & Rp & _) & H1 & H2 & _).
    rewrite E in E0. injection E0 as <-.
    exists (appended m e). rewrite run_snoc, E. simpl.
    split; [apply append_ok; [assumption | rewrite H2; exact He']|].
    intros p Hp. unfold len in Hp. rewrite length_app in Hp. simpl in Hp.
    rewrite slot_appended_other; try assumption; try lia.
    + apply Hslots. unfold len. lia.
    + rewrite Rp, H1, Z.mod_small by (unfold len; lia). unfold len. lia.
Qed.

(** ** The queue of recent transitions *)

Lemma appends_live (m : t) (post : list Experience) :
  wf m -> Forall live post ->
  Forall (fun e => storable (state_shape m) e = true) post ->
  len (items (_hist m)) + len post <= history_len m - 1 ->
  exists m', appends m post = Ok m' /\ wf m' /\
    items (_hist m') = items (_hist m) ++ post /\
    state_shape m' = state_shape m /\ history_len m' = history_len m.
Proof.
  revert m. induction post as [|e l IH]; intros m W L Hst Hlen; simpl.
  - exists m. rewrite app_nil_r. auto.
  - inversion L as [|? ? He Hl]; subst.
    inversion Hst as [|? ? Hse Hsl]; subst.
    rewrite append_ok by assumption. simpl.
    assert (Hq : len (items (_hist m) ++ [e]) = len (items (_hist m)) + 1)
      by (unfold len; rewrite length_app; simpl; lia).
    assert (Hc : len (e :: l) = len l + 1) by (unfold len; simpl; lia).
    assert (Hi : items (_hist (appended m e)) = items (_hist m) ++ [e]).
    { simpl. rewrite He. unfold deque_append. simpl.
      rewrite (wf_maxlen m W).
      destruct (Z.ltb_spec (history_len m - 1) (len (items (_hist m) ++ [e])));
        [unfold len in *; lia | reflexivity]. }
    destruct (IH (appended m e)) as (m' & E & W' & Hi' & Hs & Hh).
    + apply appended_wf; assumption.
    + assumption.
    + exact Hsl.
    + rewrite Hi, Hq. change (history_len (appended m e)) with (history_len m).
      unfold len in *; lia.
    + exists m'. rewrite Hi' , Hi, <- app_assoc. simpl. auto.
Qed.

Lemma recent_state_length (m : t) :
  wf m -> len (recent_state m) = history_len m - 1.
Proof.
  intros W. destruct W. unfold recent_state, len in *.
  rewrite length_app, repeat_length, length_map, wf_maxlen0. lia.
Qed.

Lemma run_ends_an_episode (C hl : Z) (shape : list Z)
    (pre : list Experience) (m : t) :
  0 < C -> 1 <= hl -> Forall (fun d => 0 <= d) shape ->
  (pre = [] \/ exists l e, pre = l ++ [e] /\ Experience.isOver e = true) ->
  run C shape hl pre = Ok m -> items (_hist m) = [].
Proof.
  intros HC Hhl Hs Hpre E.
  destruct Hpre as [->|(l & e & -> & He)].
  - destruct (init_ok C hl shape HC Hhl Hs) as (m0 & E0 & _ & H).
    unfold run in E. rewrite E0 in E. simpl in E.
    injection E as <-. apply H.
  - pose proof (run_inv C hl shape _ m HC Hhl Hs E) as Hst.
    apply Forall_app in Hst as (Hl & _).
    rewrite run_snoc in E.
    destruct (run_ok C hl shape l HC Hhl Hs Hl) as (m1 & E1 & W1 & _).
    rewrite E1 in E. simpl in E.
    apply append_inv in E as (_ & ->); [|exact W1].
    simpl. rewrite He. reflexivity.
Qed.

(** C5.  [recent_state()] returns [history_len - 1] arrays after every
    sequence of appends the arrays accept.  If the appends are
    [pre ++ post], where [pre] is empty (the buffer was just created)
    or ends with a terminal transition and [post] holds
    [N <= history_len - 1] non-terminal transitions, the result is
    [history_len - 1 - N] arrays of the state shape whose elements are
    all 0, followed by the states of [post] as they were given, oldest
    first; with [post] empty these are [history_len - 1] arrays of
    zeros. *)
Theorem C5_recent_state_left_padding (C hl : Z) (shape : list Z) :
  0 < C -> 1 <= hl -> Forall (fun d => 0 <= d) shape ->
  (forall exps,
      Forall (fun e => storable shape e = true) exps ->
      exists m,
        run C shape hl exps = Ok m /\ len (recent_state m) = hl - 1) /\
  (forall pre post,
      (pre = [] \/
       exists l e, pre = l ++ [e] /\ Experience.isOver e = true) ->
      Forall live post -> len post <= hl - 1 ->
      Forall (fun e => storable shape e = true) (pre ++ post) ->
      exists m, run C shape hl (pre ++ post) = Ok m /\
        recent_state m =
          repeat (Frame.make shape
                    (repeat 0 (Z.to_nat (fold_right Z.mul 1 shape))))
                 (Z.to_nat (hl - 1 - len post))
            ++ map Experience.state post).
Proof.
  intros HC Hhl Hs. split.
  - intros exps Hst.
    destruct (run_ok C hl shape exps HC Hhl Hs Hst)
      as (m & E & W & _ & _ & _ & Hh).
    exists m. split; [exact E|]. rewrite <- Hh. apply recent_state_length, W.
  - intros pre post Hpre Hlive Hlen Hst.
    apply Forall_app in Hst as (Hst1 & Hst2).
    destruct (run_ok C hl shape pre HC Hhl Hs Hst1)
      as (m & E & W & _ & _ & Hsh & Hh).
    pose proof (run_ends_an_episode C hl shape pre m HC Hhl Hs Hpre E)
      as Hempty.
    destruct (appends_live m post W Hlive) as (m' & E' & W' & Hi & Hs' & Hh').
    { rewrite Hsh. exact Hst2. }
    { rewrite Hempty, Hh. unfold len at 1. simpl. lia. }
    exists m'. split.
    + unfold run in *. destruct (__init__ C shape hl); simpl in *;
        [|discriminate]. rewrite appends_app, E. exact E'.
    + unfold recent_state.
      rewrite (wf_maxlen m' W'), Hi, Hempty, Hs', Hh', Hsh, Hh. reflexivity.
Qed.

(** C6.  After every sequence of appends the queue of recent
    transitions holds no terminal transition and at most
    [history_len - 1] entries; a terminal append leaves it empty, a
    non-terminal append adds the transition at the end and drops the
    oldest entry when the bound is exceeded. *)
Theorem C6_recent_history_bounded_and_live
    (C hl : Z) (shape : list Z) (exps : list Experience) :
  0 < C -> 1 <= hl -> Forall (fun d => 0 <= d) shape ->
  Forall (fun e => storable shape e = true) exps ->
  exists m, run C shape hl exps = Ok m /\
    Forall (fun e => Experience.isOver e = false) (items (_hist m)) /\
    len (items (_hist m)) <= hl - 1 /\
    (forall e, storable shape e = true ->
       exists m', append m e = Ok m' /\
         items (_hist m') =
           if Experience.isOver e then []
           else let q := items (_hist m) ++ [e] in
                if hl - 1 <? len q then tl q else q) /\
    (forall e m', append m e = Ok m' -> storable shape e = true).
Proof.
  intros HC Hhl Hs Hst.
  destruct (run_ok C hl shape exps HC Hhl Hs Hst)
    as (m & E & W & _ & _ & Hsh & Hh).
  exists m. split; [exact E|].
  split; [apply (wf_hist_live m W)|].
  split; [rewrite <- Hh; apply (wf_hist_len m W)|].
  split.
  - intros e He. exists (appended m e).
    split; [apply append_ok; [assumption | rewrite Hsh; exact He]|].
    simpl. destruct (Experience.isOver e); simpl; [reflexivity|].
    rewrite (wf_maxlen m W), Hh. reflexivity.
  - intros e m' Ha. apply append_inv in Ha as (He & _); [|exact W].
    rewrite Hsh in He. exact He.
Qed.

(** ** The backward scan of [_pad_sample] *)

Lemma zero_prefix_length (n : nat) (fs : list Frame) :
  length (zero_prefix n fs) = length fs.
Proof.
  unfold zero_prefix.
  rewrite length_app, length_map, <- length_app, firstn_skipn. reflexivity.
Qed.

Lemma zero_prefix_nth (n : nat) (fs : list Frame) (j : nat) :
  nth_error (zero_prefix n fs) j =
    if (j <? n)%nat then option_map zero_fill (nth_error fs j)
    else nth_error fs j.
Proof.
  unfold zero_prefix.
  destruct (Nat.ltb_spec j n) as [Hlt|Hge].
  - destruct (Nat.lt_ge_cases j (length fs)) as [Hin|Hout].
    + rewrite nth_error_app1 by (rewrite length_map, length_firstn; lia).
      rewrite nth_error_map, nth_error_firstn.
      destruct (Nat.ltb_spec j n); [reflexivity | lia].
    + replace (nth_error fs j) with (@None Frame)
        by (symmetry; apply nth_error_None; lia).
      apply nth_error_None.
      rewrite length_app, length_map, <- length_app, firstn_skipn. lia.
  - destruct (Nat.le_gt_cases n (length fs)) as [Hn|Hn].
    + rewrite nth_error_app2 by (rewrite length_map, length_firstn; lia).
      rewrite length_map, length_firstn, nth_error_skipn. f_equal. lia.
    + replace (nth_error fs j) with (@None Frame)
        by (symmetry; apply nth_error_None; lia).
      apply nth_error_None.
      rewrite length_app, length_map, <- length_app, firstn_skipn. lia.
Qed.

Lemma range_down_neg (s : Z) : s < 0 -> range_down s = [].
Proof.
  intros H. unfold range_down.
  replace (Z.to_nat (s + 1)) with 0%nat by lia. reflexivity.
Qed.

Lemma range_down_step (s : Z) :
  0 <= s -> range_down s = s :: range_down (s - 1).
Proof.
  intros H. unfold range_down.
  replace (Z.to_nat (s + 1)) with (S (Z.to_nat (s - 1 + 1))) by lia.
  rewrite <- cons_seq, <- seq_shift, map_cons, map_map.
  f_equal; [simpl; lia|].
  apply map_ext. intros i. lia.
Qed.

Lemma range_down_In (s k : Z) : In k (range_down s) -> 0 <= k <= s.
Proof.
  unfold range_down. intros H. apply in_map_iff in H.
  destruct H as (i & <- & Hi). apply in_seq in Hi. lia.
Qed.

(** Where the scan from [s] down to [0] stops. *)
Lemma first_set_spec (flags : list bool) (s : Z) :
  match first_set (range_down s) flags with
  | None =>
      forall p, 0 <= p <= s -> nth_error flags (Z.to_nat p) <> Some true
  | Some kk =>
      0 <= kk <= s /\ nth_error flags (Z.to_nat kk) = Some true /\
      forall p, kk < p <= s -> nth_error flags (Z.to_nat p) <> Some true
  end.
Proof.
  assert (G : forall (n : nat) (s : Z), s = Z.of_nat n - 1 ->
    match first_set (range_down s) flags with
    | None =>
        forall p, 0 <= p <= s -> nth_error flags (Z.to_nat p) <> Some true
    | Some kk =>
        0 <= kk <= s /\ nth_error flags (Z.to_nat kk) = Some true /\
        forall p, kk < p <= s -> nth_error flags (Z.to_nat p) <> Some true
    end).
  { induction n as [|n IH]; intros s0 Hs0.
    - rewrite range_down_neg by lia. simpl. intros; lia.
    - rewrite range_down_step by lia. simpl.
      destruct (nth_error flags (Z.to_nat s0)) as [[|]|] eqn:N.
      + split; [lia|]. split; [assumption|]. intros; lia.
      + specialize (IH (s0 - 1) ltac:(lia)).
        destruct (first_set (range_down (s0 - 1)) flags) as [kk|].
        * destruct IH as (H1 & H2 & H3). split; [lia|]. split; [assumption|].
          intros p Hp. destruct (Z.eq_dec p s0) as [->|]; [congruence|].
          apply H3; lia.
        * intros p Hp. destruct (Z.eq_dec p s0) as [->|]; [congruence|].
          apply IH; lia.
      + specialize (IH (s0 - 1) ltac:(lia)).
        destruct (first_set (range_down (s0 - 1)) flags) as [kk|].
        * destruct IH as (H1 & H2 & H3). split; [lia|]. split; [assumption|].
          intros p Hp. destruct (Z.eq_dec p s0) as [->|]; [congruence|].
          apply H3; lia.
        * intros p Hp. destruct (Z.eq_dec p s0) as [->|]; [congruence|].
          apply IH; lia. }
  destruct (Z_lt_le_dec s 0) as [Hneg|Hpos].
  - rewrite range_down_neg by assumption. simpl. intros; lia.
  - apply (G (Z.to_nat (s + 1))). lia.
Qed.

(** The loop never writes to the memory: it fills a copy. *)
Lemma _pad_loop_memory (ks : list Z) (m m' : t) (win win' : ndarray)
    (flags : list bool) :
  _pad_loop ks m win flags = Ok (m', win') -> m' = m.
Proof.
  induction ks as [|k ks IH]; simpl; intros H.
  - injection H as <- _. reflexivity.
  - destruct (getitem flags k) as [[|]|]; simpl in H.
    + injection H as <- _. reflexivity.
    + auto.
    + discriminate.
Qed.

Lemma _pad_loop_spec (ks : list Z) (m : t) (win : ndarray)
    (flags : list bool) :
  (forall k, In k ks -> 0 <= k < len flags) ->
  _pad_loop ks m win flags =
    Ok (m, match first_set ks flags with
           | None => win
           | Some kk =>
               Own (zero_prefix
                      (Z.to_nat (bound (len (frames m win)) (kk + 1)))
                      (frames m win))
           end).
Proof.
  induction ks as [|k ks IH]; intros Hin; simpl; [reflexivity|].
  destruct (getitem_in_range flags k (Hin k (or_introl eq_refl)))
    as (b & N & G).
  rewrite G, N. simpl. destruct b; [reflexivity|].
  apply IH. intros k' Hk'. apply Hin. right; assumption.
Qed.

(** [_pad_sample] on a window of at least two transitions that covers
    the scanned positions. *)
Lemma _pad_sample_spec (m : t) (win : ndarray) (rs : list float32)
    (acts : list Z) (flags : list bool) :
  shape_2d_or_3d (state_shape m) ->
  len rs = len flags -> len acts = len flags ->
  2 <= len flags -> history_len m - 1 <= len flags ->
  exists ax r a o,
    nth_error rs (length flags - 2) = Some r /\
    nth_error acts (length flags - 2) = Some a /\
    nth_error flags (length flags - 2) = Some o /\
    _pad_sample m win rs acts flags =
      Ok (m, (mkStacked
                (match first_set (range_down (history_len m - 2)) flags with
                 | None => win
                 | Some kk =>
                     Own (zero_prefix
                            (Z.to_nat (bound (len (frames m win)) (kk + 1)))
                            (frames m win))
                 end) ax, r, a, o)).
Proof.
  intros Hsh Hr Ha H2 Hh. unfold _pad_sample.
  rewrite _pad_loop_spec
    by (intros k Hk; apply range_down_In in Hk; lia).
  simpl.
  destruct (getitem_minus2 rs ltac:(lia)) as (r & Nr & Gr).
  destruct (getitem_minus2 acts ltac:(lia)) as (a & Na & Ga).
  destruct (getitem_minus2 flags ltac:(lia)) as (o & No & Go).
  assert (Lr : length rs = length flags) by (unfold len in *; lia).
  assert (La : length acts = length flags) by (unfold len in *; lia).
  rewrite Lr in Nr. rewrite La in Na. rewrite Gr, Ga, Go.
  destruct Hsh as [E|E]; rewrite E; simpl; eauto 10.
Qed.

(** ** The window [sample] reads *)

Lemma sample_unfold (m : t) (li : Z) :
  _curr_size m <> 0 ->
  sample m li =
    _pad_sample m (state_window m li) (read_window m li (reward m))
      (read_window m li (action m)) (read_window m li (isOver m)).
Proof.
  intros H. unfold sample, mod_, state_window, read_window, phys.
  destruct (Z.eqb_spec (_curr_size m) 0) as [E|_]; [contradiction|]. simpl.
  destruct ((_curr_pos m + li) mod _curr_size m + (history_len m + 1)
            <=? _curr_size m); reflexivity.
Qed.

Lemma frames_state_window (m : t) (li : Z) :
  frames m (state_window m li) = read_window m li (state m).
Proof.
  unfold state_window, read_window.
  destruct (phys m li + (history_len m + 1) <=? _curr_size m); reflexivity.
Qed.

Lemma phys_range (m : t) (li : Z) :
  0 < _curr_size m -> 0 <= phys m li < _curr_size m.
Proof. intros H. apply Z.mod_pos_bound; assumption. Qed.

Lemma mod_wrap (C x : Z) : 0 < C -> C <= x < 2 * C -> x mod C = x - C.
Proof.
  intros HC Hx. replace x with (x - C + 1 * C) at 1 by lia.
  rewrite Z.mod_add by lia. apply Z.mod_small; lia.
Qed.

(** Whatever the index, the window of a non-empty memory has at least
    [history_len + 1] entries; it has more when the memory is not full
    and the window runs past the valid region. *)
Lemma read_window_length {A : Type} (m : t) (li : Z) (arr : list A) :
  wf m -> 0 < _curr_size m -> history_len m <= max_size m ->
  len arr = max_size m ->
  len (read_window m li arr) =
    if phys m li + (history_len m + 1) <=? _curr_size m
    then history_len m + 1
    else max_size m - _curr_size m + (history_len m + 1).
Proof.
  intros W Hs Hh La. pose proof (phys_range m li Hs) as Hi. destruct W.
  unfold read_window.
  destruct (Z.leb_spec (phys m li + (history_len m + 1)) (_curr_size m)).
  - unfold len at 1. rewrite slice_inside_length by lia. lia.
  - rewrite _slice_length by lia. lia.
Qed.

(** A window that fits is [history_len + 1] consecutive slots of the
    ring. *)
Lemma read_window_nth {A : Type} (m : t) (li : Z) (arr : list A) (j : nat) :
  wf m -> 0 < _curr_size m -> window_fits m li -> len arr = max_size m ->
  Z.of_nat j < history_len m + 1 ->
  nth_error (read_window m li arr) j =
    nth_error arr (Z.to_nat ((phys m li + Z.of_nat j) mod _curr_size m)).
Proof.
  intros W Hs Hf La Hj. pose proof (phys_range m li Hs) as Hi. destruct W.
  unfold read_window.
  destruct (Z.leb_spec (phys m li + (history_len m + 1)) (_curr_size m))
    as [Hle|Hgt].
  - rewrite slice_inside_nth by lia.
    rewrite Z.mod_small by lia. f_equal. lia.
  - destruct Hf as [Hf|(Hfull & Hh)]; [lia|].
    rewrite _slice_nth by lia. rewrite La, Hfull in *.
    destruct (Z.ltb_spec (Z.of_nat j) (max_size m - phys m li)).
    + rewrite Z.mod_small by lia. f_equal. lia.
    + destruct (Z.ltb_spec (Z.of_nat j)
                 (max_size m - phys m li
                  + (phys m li + (history_len m + 1) - max_size m))); [|lia].
      rewrite mod_wrap by lia. f_equal. unfold len in La. lia.
Qed.

Lemma window_fits_history (m : t) (li : Z) :
  wf m -> 0 < _curr_size m -> window_fits m li ->
  history_len m <= max_size m.
Proof.
  intros W Hs [H|[_ H]]; [|assumption].
  pose proof (phys_range m li Hs). destruct W. lia.
Qed.

Lemma read_window_fits_length {A : Type} (m : t) (li : Z) (arr : list A) :
  wf m -> 0 < _curr_size m -> window_fits m li -> len arr = max_size m ->
  len (read_window m li arr) = history_len m + 1.
Proof.
  intros W Hs Hf La.
  rewrite read_window_length
    by (try assumption; eapply window_fits_history; eassumption).
  destruct (Z.leb_spec (phys m li + (history_len m + 1)) (_curr_size m));
    [reflexivity|].
  destruct Hf as [Hf|[Hfull _]]; lia.
Qed.

(** [sample] on a non-empty well-formed memory: it succeeds, leaves the
    memory as it was, and returns the fields of the entry before the
    last of its window. *)
Lemma sample_spec (m : t) (li : Z) :
  wf m -> shape_2d_or_3d (state_shape m) -> 0 < _curr_size m ->
  history_len m <= max_size m ->
  exists ax r a o,
    let n := length (read_window m li (isOver m)) in
    nth_error (read_window m li (reward m)) (n - 2) = Some r /\
    nth_error (read_window m li (action m)) (n - 2) = Some a /\
    nth_error (read_window m li (isOver m)) (n - 2) = Some o /\
    sample m li =
      Ok (m, (mkStacked
                (match first_set (range_down (history_len m - 2))
                         (read_window m li (isOver m)) with
                 | None => state_window m li
                 | Some kk =>
                     Own (zero_prefix
                            (Z.to_nat
                               (bound (len (read_window m li (state m)))
                                      (kk + 1)))
                            (read_window m li (state m)))
                 end) ax, r, a, o)).
Proof.
  intros W Hsh Hs Hh.
  rewrite sample_unfold by lia. rewrite <- frames_state_window.
  pose proof (read_window_length m li (reward m) W Hs Hh (wf_reward m W)) as Lr.
  pose proof (read_window_length m li (action m) W Hs Hh (wf_action m W)) as La.
  pose proof (read_window_length m li (isOver m) W Hs Hh (wf_isOver m W)) as Lo.
  pose proof (wf_hl m W). pose proof (wf_size m W).
  apply _pad_sample_spec; try assumption; try congruence;
    rewrite Lo;
    destruct (phys m li + (history_len m + 1) <=? _curr_size m); lia.
Qed.

Lemma stored_some {A : Type} (m : t) (li : Z) (arr : list A) (j : Z) :
  wf m -> 0 < _curr_size m -> len arr = max_size m ->
  exists x, stored m li arr j = Some x.
Proof.
  intros W Hs La. unfold stored.
  pose proof (Z.mod_pos_bound (phys m li + j) (_curr_size m) Hs).
  pose proof (wf_size m W).
  destruct (nth_error arr
              (Z.to_nat ((phys m li + j) mod _curr_size m))) as [x|] eqn:N;
    [eauto|].
  apply nth_error_None in N. unfold len in La. lia.
Qed.

(** [sample] on a window that fits. *)
Lemma sample_fits_spec (m : t) (li : Z) :
  wf m -> shape_2d_or_3d (state_shape m) -> 0 < _curr_size m ->
  window_fits m li ->
  exists st r a o,
    sample m li = Ok (m, (st, r, a, o)) /\
    stored m li (reward m) (history_len m - 1) = Some r /\
    stored m li (action m) (history_len m - 1) = Some a /\
    stored m li (isOver m) (history_len m - 1) = Some o /\
    len (frames m (base st)) = history_len m + 1 /\
    match first_set (range_down (history_len m - 2))
            (read_window m li (isOver m)) with
    | None =>
        forall j : nat, Z.of_nat j < history_len m + 1 ->
          nth_error (frames m (base st)) j = stored m li (state m) (Z.of_nat j)
    | Some kk =>
        forall j : nat, Z.of_nat j < history_len m + 1 ->
          nth_error (frames m (base st)) j =
            if Z.of_nat j <=? kk
            then option_map zero_fill (stored m li (state m) (Z.of_nat j))
            else stored m li (state m) (Z.of_nat j)
    end.
Proof.
  intros W Hsh Hs Hf.
  pose proof (window_fits_history m li W Hs Hf) as Hh.
  pose proof (wf_hl m W) as Hhl.
  destruct (sample_spec m li W Hsh Hs Hh) as (ax & r & a & o & Nr & Na & No & E).
  cbv zeta in Nr, Na, No.
  pose proof (read_window_fits_length m li (isOver m) W Hs Hf (wf_isOver m W))
    as Lo.
  pose proof (read_window_fits_length m li (state m) W Hs Hf (wf_state m W))
    as Ls.
  assert (Ln : (length (read_window m li (isOver m)) - 2)%nat
               = Z.to_nat (history_len m - 1)) by (unfold len in Lo; lia).
  rewrite Ln in Nr, Na, No.
  rewrite read_window_nth in Nr by (try assumption; try apply W; lia).
  rewrite read_window_nth in Na by (try assumption; try apply W; lia).
  rewrite read_window_nth in No by (try assumption; try apply W; lia).
  rewrite Z2Nat.id in Nr, Na, No by lia.
  eexists _, r, a, o. split; [exact E|].
  repeat (split; [assumption|]). simpl.
  pose proof (first_set_spec (read_window m li (isOver m)) (history_len m - 2))
    as FS.
  destruct (first_set (range_down (history_len m - 2))
              (read_window m li (isOver m))) as [kk|].
  - destruct FS as (Hk & _). simpl.
    split; [unfold len in *; rewrite zero_prefix_length; exact Ls|].
    intros j Hj. rewrite zero_prefix_nth.
    rewrite bound_in_range by lia.
    rewrite read_window_nth by (try assumption; apply W).
    fold (stored m li (state m) (Z.of_nat j)).
    destruct (Nat.ltb_spec j (Z.to_nat (kk + 1)));
      destruct (Z.leb_spec (Z.of_nat j) kk); try lia; reflexivity.
  - rewrite frames_state_window. split; [exact Ls|].
    intros j Hj. apply read_window_nth; try assumption. apply W.
Qed.

(** ** Sampling *)

(** What the scan of [_pad_sample] does to the frames of a window
    that fits. *)
Lemma sample_zero_padding (m : t) (li : Z) :
  wf m -> shape_2d_or_3d (state_shape m) ->
  0 <= li < _curr_size m -> window_fits m li ->
  exists st r a o,
    sample m li = Ok (m, (st, r, a, o)) /\
    ((forall p, 0 <= p <= history_len m - 2 ->
        stored m li (isOver m) p = Some false) ->
     forall j, 0 <= j < history_len m + 1 ->
       nth_error (frames m (base st)) (Z.to_nat j)
       = stored m li (state m) j) /\
    (forall kk, 0 <= kk <= history_len m - 2 ->
       stored m li (isOver m) kk = Some true ->
       (forall p, kk < p <= history_len m - 2 ->
          stored m li (isOver m) p = Some false) ->
       forall j, 0 <= j < history_len m + 1 ->
         nth_error (frames m (base st)) (Z.to_nat j)
         = if j <=? kk
           then option_map zero_fill (stored m li (state m) j)
           else stored m li (state m) j).
Proof.
  intros W Hsh Hli Hf.
  assert (Hs : 0 < _curr_size m) by lia.
  destruct (sample_fits_spec m li W Hsh Hs Hf)
    as (st & r & a & o & E & _ & _ & _ & _ & FR).
  exists st, r, a, o. split; [exact E|].
  assert (T : forall p, 0 <= p <= history_len m - 2 ->
            nth_error (read_window m li (isOver m)) (Z.to_nat p)
            = stored m li (isOver m) p).
  { intros p Hp. rewrite read_window_nth by (try assumption; try apply W; lia).
    unfold stored. rewrite Z2Nat.id by lia. reflexivity. }
  pose proof (first_set_spec (read_window m li (isOver m)) (history_len m - 2))
    as FS.
  destruct (first_set (range_down (history_len m - 2))
              (read_window m li (isOver m))) as [k0|].
  - destruct FS as (Hk0 & Hset & Hlater). rewrite T in Hset by lia. split.
    + intros Hnone. rewrite Hnone in Hset by lia. discriminate.
    + intros kk Hkk Hk Hafter j Hj.
      assert (k0 = kk).
      { destruct (Z.lt_trichotomy k0 kk) as [Hlt|[Heq|Hgt]]; [|assumption|].
        - exfalso. apply (Hlater kk); [lia|]. rewrite T by lia. exact Hk.
        - rewrite Hafter in Hset by lia. discriminate. }
      subst k0. rewrite FR by lia. rewrite Z2Nat.id by lia. reflexivity.
  - split.
    + intros _ j Hj. rewrite FR by lia. rewrite Z2Nat.id by lia. reflexivity.
    + intros kk Hkk Hk. exfalso. apply (FS kk); [lia|].
      rewrite T by lia. exact Hk.
Qed.

(** What [fill(0)] leaves: an array of the same shape whose elements
    are all 0. *)
Lemma zero_fill_zeros (f : Frame) :
  zero_fill f
  = Frame.make (Frame.shape f) (repeat 0 (length (Frame.data f))).
Proof.
  unfold zero_fill. f_equal.
  induction (Frame.data f) as [|v l IH]; simpl; [reflexivity|].
  rewrite IH. reflexivity.
Qed.

(** C2.  For a sample whose window fits: if none of the window
    positions [history_len - 2 .. 0] holds a terminal flag, the frames
    returned are the stored frames of the window; if [kk] is the latest
    of these positions that holds one, the frames at positions [<= kk]
    come back as arrays of the same shape whose elements are all 0,
    and the later ones as stored. *)
Theorem C2_zero_padding_at_episode_boundary (m : t) (li : Z) :
  wf m -> shape_2d_or_3d (state_shape m) ->
  0 <= li < _curr_size m -> window_fits m li ->
  exists st r a o,
    sample m li = Ok (m, (st, r, a, o)) /\
    ((forall p, 0 <= p <= history_len m - 2 ->
        stored m li (isOver m) p = Some false) ->
     forall j, 0 <= j < history_len m + 1 ->
       exists f,
         stored m li (state m) j = Some f /\
         nth_error (frames m (base st)) (Z.to_nat j) = Some f) /\
    (forall kk, 0 <= kk <= history_len m - 2 ->
       stored m li (isOver m) kk = Some true ->
       (forall p, kk < p <= history_len m - 2 ->
          stored m li (isOver m) p = Some false) ->
       forall j, 0 <= j < history_len m + 1 ->
         exists f,
           stored m li (state m) j = Some f /\
           nth_error (frames m (base st)) (Z.to_nat j)
           = Some (if j <=? kk
                   then Frame.make (Frame.shape f)
                          (repeat 0 (length (Frame.data f)))
                   else f)).
Proof.
  intros W Hsh Hli Hf.
  assert (Hs : 0 < _curr_size m) by lia.
  destruct (sample_zero_padding m li W Hsh Hli Hf)
    as (st & r & a & o & E & Hnone & Hsome).
  exists st, r, a, o. split; [exact E|]. split.
  - intros Hp j Hj.
    destruct (stored_some m li (state m) j W Hs (wf_state m W)) as (f & Sf).
    exists f. split; [exact Sf|]. rewrite (Hnone Hp j Hj). exact Sf.
  - intros kk Hkk Hk Hafter j Hj.
    destruct (stored_some m li (state m) j W Hs (wf_state m W)) as (f & Sf).
    exists f. split; [exact Sf|].
    rewrite (Hsome kk Hkk Hk Hafter j Hj), Sf.
    destruct (j <=? kk); simpl; [rewrite zero_fill_zeros|]; reflexivity.
Qed.

(** C4 (for windows that fit).  With [0 <= li < size] and a window that
    lies in the valid region, or a full ring at least as long as the
    history, [sample] reads the [history_len + 1] slots
    [(phys + j) mod size], [phys = (_curr_pos + li) mod size]: every
    frame it returns is the frame of its slot or that frame zero-filled,
    and the reward, action and flag it returns are those of the slot
    before the last of the window. *)
Theorem C4_sample_reads_consecutive_slots (m : t) (li : Z) :
  wf m -> shape_2d_or_3d (state_shape m) ->
  0 <= li < _curr_size m -> window_fits m li ->
  let idx := (_curr_pos m + li) mod _curr_size m in
  let k := history_len m + 1 in
  exists st r a o,
    sample m li = Ok (m, (st, r, a, o)) /\
    len (frames m (base st)) = k /\
    (forall j, 0 <= j < k ->
       exists f,
         nth_error (state m) (Z.to_nat ((idx + j) mod _curr_size m)) = Some f /\
         (nth_error (frames m (base st)) (Z.to_nat j) = Some f \/
          nth_error (frames m (base st)) (Z.to_nat j) = Some (zero_fill f))) /\
    exists f,
      slot m ((idx + (k - 2)) mod _curr_size m)
      = Some (Experience.make f a r o).
Proof.
  intros W Hsh Hli Hf idx k. subst idx k.
  assert (Hs : 0 < _curr_size m) by lia.
  destruct (sample_fits_spec m li W Hsh Hs Hf)
    as (st & r & a & o & E & Nr & Na & No & Lf & FR).
  exists st, r, a, o. split; [exact E|]. split; [exact Lf|].
  fold (phys m li). split.
  - intros j Hj.
    destruct (stored_some m li (state m) j W Hs (wf_state m W)) as (f & Sf).
    exists f. split; [exact Sf|].
    destruct (first_set (range_down (history_len m - 2))
                (read_window m li (isOver m))) as [k0|];
      rewrite FR by lia; rewrite Z2Nat.id by lia.
    + destruct (j <=? k0); rewrite Sf; simpl; auto.
    + left. exact Sf.
  - replace (history_len m + 1 - 2) with (history_len m - 1) by lia.
    destruct (stored_some m li (state m) (history_len m - 1) W Hs
                (wf_state m W)) as (f & Sf).
    exists f. unfold slot. unfold stored in Sf, Nr, Na, No.
    rewrite Sf, Nr, Na, No. reflexivity.
Qed.

Lemma slot_fields (m : t) (q : Z) (e : Experience) :
  slot m q = Some e ->
  nth_error (reward m) (Z.to_nat q) = Some (Experience.reward e) /\
  nth_error (action m) (Z.to_nat q) = Some (Experience.action e) /\
  nth_error (isOver m) (Z.to_nat q) = Some (Experience.isOver e).
Proof.
  unfold slot. intros H.
  destruct (nth_error (state m) (Z.to_nat q)); [|discriminate].
  destruct (nth_error (action m) (Z.to_nat q)); [|discriminate].
  destruct (nth_error (reward m) (Z.to_nat q)); [|discriminate].
  destruct (nth_error (isOver m) (Z.to_nat q)); [|discriminate].
  injection H as <-. auto.
Qed.

(** C7 (on a full ring).  When the append of [t0] leaves the ring full
    and the history is not longer than the ring, sampling the logical
    index [C - hl], whose window has [t0] before its last entry,
    returns the terminal flag of [t0], its action wrapped to int32 and
    its reward rounded to float32.  The action comes back as it was
    appended exactly when it lies within int32. *)
Theorem C7_round_trip_on_full_ring
    (C hl : Z) (shape : list Z) (exps : list Experience) (t0 : Experience) :
  0 < C -> 1 <= hl <= C -> Forall (fun d => 0 <= d) shape ->
  shape_2d_or_3d shape -> C <= len exps + 1 ->
  Forall (fun e => storable shape e = true) exps ->
  storable shape t0 = true ->
  exists m m' st,
    run C shape hl exps = Ok m /\ append m t0 = Ok m' /\ __len__ m' = C /\
    sample m' (C - hl)
    = Ok (m', (st, as_float32 (Experience.reward t0),
               (Experience.action t0 + 2147483648) mod 4294967296
               - 2147483648,
               Experience.isOver t0)) /\
    ((Experience.action t0 + 2147483648) mod 4294967296 - 2147483648
     = Experience.action t0
     <-> -2147483648 <= Experience.action t0 < 2147483648).
Proof.
  intros HC Hhl Hs Hsh Hfull Hst Ht0.
  destruct (run_ok C hl shape exps HC ltac:(lia) Hs Hst)
    as (m & E & W & R & H1 & H2 & H3).
  pose proof (appended_wf m t0 W) as W'.
  pose proof (ring_inv_appended exps m t0 W R) as (Rs & Rp & Rslots).
  assert (Hcap : max_size (appended m t0) = C) by exact H1.
  assert (Hh' : history_len (appended m t0) = hl) by exact H3.
  assert (Hsh' : state_shape (appended m t0) = shape) by exact H2.
  assert (L : len (exps ++ [t0]) = len exps + 1)
    by (unfold len; rewrite length_app; simpl; lia).
  rewrite Hcap, L in Rs, Rp, Rslots. rewrite Hsh' in Rslots.
  assert (Hsz : _curr_size (appended m t0) = C) by lia.
  specialize (Rslots (len exps) ltac:(unfold len; lia) ltac:(lia)).
  unfold len in Rslots at 2.
  rewrite Nat2Z.id, nth_error_app2, Nat.sub_diag in Rslots by lia.
  simpl in Rslots. apply slot_fields in Rslots.
  destruct Rslots as (Fr & Fa & Fo).
  destruct (as_stored_fields shape t0 Ht0) as (_ & _ & Ga & Gr & Go).
  rewrite Gr in Fr. rewrite Ga in Fa. rewrite Go in Fo.
  remember (appended m t0) as m' eqn:Em.
  assert (Hfit : window_fits m' (C - hl)) by (right; lia).
  destruct (sample_fits_spec m' (C - hl) W' ltac:(rewrite Hsh'; exact Hsh)
              ltac:(lia) Hfit)
    as (st & r & a & o & Es & Nr & Na & No & _).
  assert (Q : (phys m' (C - hl) + (history_len m' - 1)) mod _curr_size m'
              = len exps mod C).
  { unfold phys. rewrite Hsz, Hh', Rp.
    rewrite Z.add_mod_idemp_l by lia.
    rewrite <- Z.add_assoc, Z.add_mod_idemp_l by lia.
    replace (len exps + 1 + (C - hl + (hl - 1))) with (len exps + 1 * C)
      by lia.
    apply Z.mod_add; lia. }
  unfold stored in Nr, Na, No. rewrite Q in Nr, Na, No.
  exists m, m', st. split; [exact E|].
  split; [subst m'; apply append_ok; [assumption | rewrite H2; exact Ht0]|].
  split; [exact Hsz|].
  split; [rewrite Es; repeat f_equal; congruence|].
  apply (as_int32_fixed (Experience.action t0)).
Qed.

(** A window that runs past the valid region starts with the physical
    slots from [phys] to the end of the array. *)
Lemma read_window_tail {A : Type} (m : t) (li : Z) (arr : list A) (q : Z) :
  wf m -> 0 < _curr_size m -> len arr = max_size m ->
  _curr_size m < phys m li + (history_len m + 1) ->
  phys m li <= q < max_size m ->
  nth_error (read_window m li arr) (Z.to_nat (q - phys m li))
  = nth_error arr (Z.to_nat q).
Proof.
  intros W Hs La Hpast Hq. pose proof (phys_range m li Hs) as Hi.
  pose proof (wf_size m W). unfold read_window.
  destruct (Z.leb_spec (phys m li + (history_len m + 1)) (_curr_size m));
    [lia|].
  unfold _slice, slice_from.
  rewrite bound_in_range by lia.
  rewrite nth_error_app1 by (rewrite length_skipn; unfold len in La; lia).
  rewrite nth_error_skipn. f_equal. lia.
Qed.

(** C8 (what the code does).  [sample] validates nothing.  On a
    well-formed memory that holds at least one transition, with a
    history not longer than the ring, every call succeeds, whatever the
    index and however few transitions are valid; a window that runs
    past the valid region is put together from the physical slices
    [arr[idx:]] and [arr[:end]]: it has [max_size - size] entries more
    than [history_len + 1] and begins with every physical slot from
    [idx] to the end of the array, the slots past [size] included.
    On an empty memory the modulo raises [ZeroDivisionError]. *)
Theorem C8_sample_validates_nothing (m : t) (li : Z) :
  wf m -> shape_2d_or_3d (state_shape m) -> history_len m <= max_size m ->
  (_curr_size m = 0 -> sample m li = Raise ZeroDivisionError) /\
  (0 < _curr_size m ->
   exists st r a o,
     sample m li = Ok (m, (st, r, a, o)) /\
     (_curr_size m < phys m li + (history_len m + 1) ->
      len (frames m (base st))
      = max_size m - _curr_size m + (history_len m + 1) /\
      forall q, phys m li <= q < max_size m ->
        exists f,
          nth_error (state m) (Z.to_nat q) = Some f /\
          (nth_error (frames m (base st)) (Z.to_nat (q - phys m li)) = Some f \/
           nth_error (frames m (base st)) (Z.to_nat (q - phys m li))
           = Some (zero_fill f)))).
Proof.
  intros W Hsh Hh. split.
  - intros Hz. unfold sample, mod_. rewrite Hz. reflexivity.
  - intros Hs.
    destruct (sample_spec m li W Hsh Hs Hh) as (ax & r & a & o & _ & _ & _ & E).
    eexists _, r, a, o. split; [exact E|].
    intros Hpast. simpl.
    pose proof (read_window_length m li (state m) W Hs Hh (wf_state m W)) as L.
    destruct (Z.leb_spec (phys m li + (history_len m + 1)) (_curr_size m));
      [lia|].
    assert (T : forall q, phys m li <= q < max_size m ->
              exists f, nth_error (state m) (Z.to_nat q) = Some f /\
                nth_error (read_window m li (state m))
                  (Z.to_nat (q - phys m li)) = Some f).
    { intros q Hq.
      rewrite (read_window_tail m li (state m) q W Hs (wf_state m W))
        by lia.
      pose proof (wf_state m W) as Ls.
      destruct (nth_error (state m) (Z.to_nat q)) as [f|] eqn:N; [eauto|].
      apply nth_error_None in N. pose proof (phys_range m li Hs).
      unfold len in Ls. lia. }
    destruct (first_set (range_down (history_len m - 2))
                (read_window m li (isOver m))); simpl.
    + split; [unfold len in *; rewrite zero_prefix_length; exact L|].
      intros q Hq. destruct (T q Hq) as (f & N & R).
      exists f. split; [exact N|].
      rewrite zero_prefix_nth, R.
      destruct (_ <? _)%nat; simpl; auto.
    + rewrite frames_state_window. split; [exact L|].
      intros q Hq. destruct (T q Hq) as (f & N & R).
      exists f. auto.
Qed.

(** ** Reads leave the memory alone *)

Lemma _pad_sample_memory (m m' : t) (win : ndarray) (rs : list float32)
    (acts : list Z) (flags : list bool) (res : stacked * float32 * Z * bool) :
  _pad_sample m win rs acts flags = Ok (m', res) -> m' = m.
Proof.
  unfold _pad_sample.
  destruct (_pad_loop (range_down (history_len m - 2)) m win flags)
    as [[m1 w1]|] eqn:L; cbn [rbind]; [|discriminate].
  apply _pad_loop_memory in L. subst m1.
  destruct (1 + len (state_shape m) =? 4); cbn [rbind].
  - destruct (getitem rs (-2)); cbn [rbind]; [|discriminate].
    destruct (getitem acts (-2)); cbn [rbind]; [|discriminate].
    destruct (getitem flags (-2)); cbn [rbind]; [|discriminate].
    intros H; injection H as <- _. reflexivity.
  - destruct (1 + len (state_shape m) =? 3); cbn [rbind]; [|discriminate].
    destruct (getitem rs (-2)); cbn [rbind]; [|discriminate].
    destruct (getitem acts (-2)); cbn [rbind]; [|discriminate].
    destruct (getitem flags (-2)); cbn [rbind]; [|discriminate].
    intros H; injection H as <- _. reflexivity.
Qed.

Lemma sample_memory (m m' : t) (li : Z) (res : stacked * float32 * Z * bool) :
  sample m li = Ok (m', res) -> m' = m.
Proof.
  unfold sample. destruct (mod_ (_curr_pos m + li) (_curr_size m)) as [idx|];
    simpl; [|discriminate].
  destruct (idx + (history_len m + 1) <=? _curr_size m);
    apply _pad_sample_memory.
Qed.

(** Writing through a view does reach the storage: zero-filling the
    first frame of [self.state[0:2]] clears slot 0. *)
Lemma fill_through_view_writes_storage :
  forall m : t, state m = [pair 7 70; pair 8 80; pair 9 90] ->
    state (fst (fill_zero_to m (View 0 2) 1))
    = [pair 0 0; pair 8 80; pair 9 90].
Proof. intros m H. simpl. rewrite H. reflexivity. Qed.

(** C10.  [sample], [recent_state] and [__len__] leave the memory as
    they found it: storage arrays, cursor, size and queue.  In
    particular the zero-filling of [sample] falls on a copy of the
    window, never on the stored frames. *)
Theorem C10_reads_do_not_modify_memory
    (q : query) (m m' : t) (ans : answer) :
  call q m = Ok (m', ans) -> m' = m.
Proof.
  destruct q as [idx| |]; simpl.
  - destruct (sample m idx) as [[m1 r]|] eqn:E; simpl; [|discriminate].
    intros H; injection H as <- _. exact (sample_memory _ _ _ _ E).
  - intros H; injection H as <- _. reflexivity.
  - intros H; injection H as <- _. reflexivity.
Qed.

(** ** The scenario of five appends *)

Lemma c_long_spec (a : Z) :
  -9223372036854775808 <= a < 9223372036854775808 -> c_long a = true.
Proof.
  intros H. unfold c_long. apply andb_true_iff.
  split; [apply Z.leb_le | apply Z.ltb_lt]; lia.
Qed.

Ltac prove_wf :=
  constructor; cbn; try lia; repeat constructor.

(** One append of the scenario. *)
Lemma append_pixel (m : t) (v a : Z) (r : float32) (o : bool) :
  wf m -> state_shape m = [1; 1] -> c_long v = true ->
  -9223372036854775808 <= a < 9223372036854775808 ->
  append m (Experience.make (pixel v) a r o)
  = Ok (appended m (Experience.make (pixel v) a r o)) /\
  as_stored [1; 1] (Experience.make (pixel v) a r o)
  = Experience.make (pixel (v mod 256)) (as_int32 a) (as_float32 r) o.
Proof.
  intros W Hsh Hv Ha.
  assert (F : stored_form [1; 1] (Experience.make (pixel v) a r o)
              = Ok (Experience.make (pixel (v mod 256)) (as_int32 a)
                      (as_float32 r) o)).
  { unfold stored_form, astype_int32, astype_slot.
    cbn [Experience.action Experience.state pixel Frame.data forallb].
    rewrite Hv, (c_long_spec a Ha). reflexivity. }
  split.
  - apply append_ok; [exact W|]. rewrite Hsh. unfold storable.
    rewrite F. reflexivity.
  - unfold as_stored. rewrite F. reflexivity.
Qed.

Lemma scenario_run (a1 a2 a3 a4 a5 : Z) (r1 r2 r3 r4 r5 : float32) :
  Forall (fun a => -9223372036854775808 <= a < 9223372036854775808)
    [a1; a2; a3; a4; a5] ->
  run 5 [1; 1] 2 (scenario a1 a2 a3 a4 a5 r1 r2 r3 r4 r5)
  = Ok (scenario_result a1 a2 a3 a4 a5 r1 r2 r3 r4 r5).
Proof.
  intros H.
  inversion H as [|? ? H1 H']; subst. inversion H' as [|? ? H2 H'']; subst.
  inversion H'' as [|? ? H3 H3']; subst.
  inversion H3' as [|? ? H4 H4']; subst.
  inversion H4' as [|? ? H5 _]; subst.
  unfold run, scenario.
  change (__init__ 5 [1; 1] 2)
    with (Ok (make 5 [1; 1] 2 (repeat (pixel 0) 5) (repeat 0 5)
                (repeat f32_zero 5) (repeat false 5) 0 0
                (mkDeque 1 (@nil Experience)))).
  cbn [rbind appends].
  repeat
    (match goal with
     | |- context [append ?m (Experience.make (pixel ?v) ?a ?r ?o)] =>
         let W := fresh "W" in
         let A := fresh "A" in
         let S := fresh "S" in
         let B := fresh "B" in
         assert (W : wf m) by prove_wf;
         assert (B : -9223372036854775808 <= a < 9223372036854775808)
           by assumption;
         destruct (append_pixel m v a r o W eq_refl eq_refl B) as (A & S);
         rewrite A; unfold appended; cbn [state_shape]; rewrite S;
         clear W A S B;
         cbn [rbind appends state_shape max_size history_len state action
              reward isOver _curr_size _curr_pos _hist update Z.to_nat
              Experience.state Experience.action Experience.reward
              Experience.isOver repeat Pos.to_nat Pos.iter_op Nat.add
              deque_clear deque_append items maxlen]
     end).
  reflexivity.
Qed.

Lemma scenario_memory_run : run 5 [1; 1] 2 scenario_exps = Ok scenario_memory.
Proof. vm_compute. reflexivity. Qed.

Lemma three_memory_run : run 5 [1; 1] 2 three_exps = Ok three_memory.
Proof. vm_compute. reflexivity. Qed.

Lemma pairs_memory_run : run 4 [2; 1] 3 pairs_exps = Ok pairs_memory.
Proof. vm_compute. reflexivity. Qed.

(** C3 (with the window the code reads).  Capacity 5, history 2, shape
    1x1, states [1], [2], [3] (terminal), [4], [5], with any reward
    and any action that fits a C long: the length is 5; [sample(0)]
    zeroes nothing, returns a view of slots 0..2, that is the three
    frames 1, 2, 3 stacked along the last axis, with the reward,
    action and flag of the transition of state [2], as the float32
    and int32 arrays hold them; [sample(1)] zeroes nothing either (the
    flag of frame 3 is at window position 1, the scan reads position 0
    only) and returns the frames 2, 3, 4 with the fields of the
    transition of state [3].  An action within int32 is held as it
    is. *)
Theorem C3_scenario (a1 a2 a3 a4 a5 : Z) (r1 r2 r3 r4 r5 : float32) :
  Forall (fun a => -9223372036854775808 <= a < 9223372036854775808)
    [a1; a2; a3; a4; a5] ->
  exists m,
    run 5 [1; 1] 2 (scenario a1 a2 a3 a4 a5 r1 r2 r3 r4 r5) = Ok m /\
    __len__ m = 5 /\
    range_down (history_len m - 2) = [0] /\
    (exists st,
       sample m 0 = Ok (m, (st, as_float32 r2, as_int32 a2, false)) /\
       base st = View 0 3 /\
       frames m (base st) = [pixel 1; pixel 2; pixel 3] /\
       stacked_shape m st = [1; 1; 3] /\
       stacked_data m st = [1; 2; 3]) /\
    (exists st,
       sample m 1 = Ok (m, (st, as_float32 r3, as_int32 a3, true)) /\
       base st = View 1 4 /\
       frames m (base st) = [pixel 2; pixel 3; pixel 4] /\
       stacked_shape m st = [1; 1; 3] /\
       stacked_data m st = [2; 3; 4]) /\
    (forall a, -2147483648 <= a < 2147483648 -> as_int32 a = a).
Proof.
  intros Ha.
  exists (scenario_result a1 a2 a3 a4 a5 r1 r2 r3 r4 r5).
  split; [apply scenario_run; exact Ha|].
  split; [reflexivity|]. split; [reflexivity|].
  split; [|split].
  - exists (mkStacked (View 0 3) [1; 2; 0]%nat).
    repeat split; reflexivity.
  - exists (mkStacked (View 1 4) [1; 2; 0]%nat).
    repeat split; reflexivity.
  - apply as_int32_exact.
Qed.

(** The stacked state of [sample(0)] in the scenario is not [1, 2]. *)
Lemma C3_stacked_state_is_not_1_2 :
  ~ (exists m st r a o,
       run 5 [1; 1] 2 scenario_exps = Ok m /\
       sample m 0 = Ok (m, (st, r, a, o)) /\
       stacked_data m st = [1; 2]).
Proof.
  intros (m & st & r & a & o & R & S & D).
  rewrite scenario_memory_run in R. injection R as <-.
  vm_compute in S. injection S as <- _ _ _.
  vm_compute in D. discriminate.
Qed.

(** In a partly filled memory (three transitions in five slots) the
    window of logical index 1 is not three slots long and the fields
    returned are not those of slot [(phys + 1) mod size]. *)
Lemma C4_partly_filled_window_is_not_the_ring_window :
  ~ (exists m st r a o f,
       run 5 [1; 1] 2 three_exps = Ok m /\
       0 <= 1 < _curr_size m /\
       sample m 1 = Ok (m, (st, r, a, o)) /\
       len (frames m (base st)) = history_len m + 1 /\
       slot m ((phys m 1 + (history_len m + 1 - 2)) mod _curr_size m)
       = Some (Experience.make f a r o)).
Proof.
  intros (m & st & r & a & o & f & R & _ & S & L & _).
  rewrite three_memory_run in R. injection R as <-.
  vm_compute in S. injection S as <- _ _ _.
  vm_compute in L. discriminate.
Qed.

(** What [sample(1)] returns there: five frames, two of them from slots
    never written, and the zero fields of the never-written slot 4. *)
Lemma sample_partly_filled :
  sample three_memory 1
  = Ok (three_memory,
        (mkStacked (Own [pixel 2; pixel 3; pixel 0; pixel 0; pixel 1])
           [1; 2; 0]%nat,
         f32_zero, 0, false)).
Proof. vm_compute. reflexivity. Qed.

(** After the third of three appends into five slots, no logical index
    gives back the fields of the transition just appended. *)
Lemma C7_no_round_trip_in_partly_filled_memory :
  ~ (exists m m' li st,
       run 5 [1; 1] 2
         [Experience.make (pixel 1) 11 (f32 1) false;
          Experience.make (pixel 2) 12 (f32 2) false] = Ok m /\
       append m (Experience.make (pixel 3) 13 (f32 3) false) = Ok m' /\
       0 <= li < __len__ m' /\
       sample m' li = Ok (m', (st, f32 3, 13, false))).
Proof.
  intros (m & m' & li & st & R & A & H & S).
  vm_compute in R. injection R as <-.
  vm_compute in A. injection A as <-.
  change (0 <= li < 3) in H.
  assert (C : li = 0 \/ li = 1 \/ li = 2) by lia.
  destruct C as [-> | [-> | ->]]; vm_compute in S; discriminate.
Qed.

(** On a full ring the values appended do not all come back either:
    an action beyond int32 comes back wrapped, a reward that float32
    cannot hold comes back rounded. *)
Lemma round_trip_converts :
  exists m st,
    run 1 [1; 1] 1
      [Experience.make (pixel 256) 4294967297
         (S754_finite false 16777217 0) false] = Ok m /\
    sample m 0 = Ok (m, (st, S754_finite false 8388608 1, 1, false)) /\
    frames m (base st) = [pixel 0; pixel 0].
Proof.
  eexists. eexists. split; [vm_compute; reflexivity|].
  split; vm_compute; reflexivity.
Qed.

(** With one transition stored and a window of three, [sample]
    returns seven frames read from the physical array instead of
    failing. *)
Lemma C8_sample_returns_with_insufficient_history :
  exists m,
    run 5 [1; 1] 2 [Experience.make (pixel 1) 11 (f32 1) false] = Ok m /\
    __len__ m < history_len m + 1 /\
    sample m 0
    = Ok (m, (mkStacked
                (Own [pixel 1; pixel 0; pixel 0; pixel 0; pixel 0; pixel 1;
                      pixel 0]) [1; 2; 0]%nat,
              f32 1, 11, false)).
Proof.
  eexists. split; [vm_compute; reflexivity|].
  split; [vm_compute; reflexivity|]. vm_compute. reflexivity.
Qed.

(** ** The theorems at concrete inputs *)

Lemma three_exps_storable :
  Forall (fun e => storable [1; 1] e = true) three_exps.
Proof. repeat constructor. Defined.

Lemma scenario_exps_storable :
  Forall (fun e => storable [1; 1] e = true) scenario_exps.
Proof. repeat constructor. Defined.

Lemma C1_witness :
  0 < 2 /\ 1 <= 2 /\ Forall (fun d => 0 <= d) [1; 1] /\
  Forall (fun e => storable [1; 1] e = true) three_exps /\
  exists m, run 2 [1; 1] 2 three_exps = Ok m /\ __len__ m = 2 /\
    slot m (_curr_pos m)
    = Some (Experience.make (pixel 2) 12 (f32 2) false).
Proof.
  assert (H1 : 0 < 2) by lia.
  assert (H2 : 1 <= 2) by lia.
  assert (H3 : Forall (fun d => 0 <= d) [1; 1])
    by (repeat constructor; lia).
  assert (H4 : Forall (fun e => storable [1; 1] e = true) three_exps)
    by exact three_exps_storable.
  repeat (split; [assumption|]).
  destruct (C1_length_and_ring_overwrite 2 2 [1; 1] three_exps H1 H2 H3 H4)
    as (m & E & _ & Hfull & _).
  destruct (Hfull ltac:(vm_compute; reflexivity)) as (L & S & _).
  exists m. split; [exact E|]. split; [exact L|]. exact S.
Defined.

Lemma C2_witness :
  wf pairs_memory /\ shape_2d_or_3d [2; 1] /\ 0 <= 0 < 4 /\
  window_fits pairs_memory 0 /\
  exists st r a o,
    sample pairs_memory 0 = Ok (pairs_memory, (st, r, a, o)) /\
    nth_error (frames pairs_memory (base st)) 0
    = Some (Frame.make [2; 1] [0; 0]) /\
    nth_error (frames pairs_memory (base st)) 1
    = Some (Frame.make [2; 1] [0; 0]) /\
    nth_error (frames pairs_memory (base st)) 2 = Some (pair 3 30).
Proof.
  assert (W : wf pairs_memory) by prove_wf.
  assert (S : shape_2d_or_3d [2; 1]) by (left; reflexivity).
  assert (L : 0 <= 0 < 4) by lia.
  assert (F : window_fits pairs_memory 0) by (left; vm_compute; discriminate).
  repeat (split; [assumption|]).
  destruct (C2_zero_padding_at_episode_boundary pairs_memory 0 W S L F)
    as (st & r & a & o & E & _ & H).
  exists st, r, a, o. split; [exact E|].
  assert (H0 : 0 <= 1 <= history_len pairs_memory - 2)
    by (vm_compute; split; discriminate).
  assert (H1 : stored pairs_memory 0 (isOver pairs_memory) 1 = Some true)
    by (vm_compute; reflexivity).
  assert (H2 : forall p, 1 < p <= history_len pairs_memory - 2 ->
               stored pairs_memory 0 (isOver pairs_memory) p = Some false)
    by (intros p Hp; change (1 < p <= 1) in Hp; lia).
  assert (R : forall j, 0 <= j < 4 ->
            forall f, stored pairs_memory 0 (state pairs_memory) j = Some f ->
            nth_error (frames pairs_memory (base st)) (Z.to_nat j)
            = Some (if j <=? 1
                    then Frame.make (Frame.shape f)
                           (repeat 0 (length (Frame.data f)))
                    else f)).
  { intros j Hj f Sf. destruct (H 1 H0 H1 H2 j Hj) as (f' & Sf' & N).
    rewrite Sf in Sf'. injection Sf' as <-. exact N. }
  split; [|split].
  - exact (R 0 ltac:(lia) (pair 1 10) eq_refl).
  - exact (R 1 ltac:(lia) (pair 2 20) eq_refl).
  - exact (R 2 ltac:(lia) (pair 3 30) eq_refl).
Defined.

Lemma C3_witness :
  Forall (fun a => -9223372036854775808 <= a < 9223372036854775808)
    [11; 12; 13; 14; 15] /\
  exists m st,
    run 5 [1; 1] 2 scenario_exps = Ok m /\
    sample m 0 = Ok (m, (st, f32 2, 12, false)) /\
    stacked_data m st = [1; 2; 3].
Proof.
  assert (H : Forall (fun a => -9223372036854775808 <= a
                               < 9223372036854775808) [11; 12; 13; 14; 15])
    by (repeat constructor; lia).
  split; [exact H|].
  destruct (C3_scenario 11 12 13 14 15 (f32 1) (f32 2) (f32 3) (f32 4)
              (f32 5) H) as (m & E & _ & _ & (st & S & _ & _ & _ & D) & _ & _).
  exists m, st. split; [exact E|]. split; [exact S | exact D].
Defined.

Lemma C4_witness :
  wf scenario_memory /\ shape_2d_or_3d [1; 1] /\ 0 <= 3 < 5 /\
  window_fits scenario_memory 3 /\
  exists st r a o,
    sample scenario_memory 3 = Ok (scenario_memory, (st, r, a, o)) /\
    len (frames scenario_memory (base st)) = 3 /\
    exists f, slot scenario_memory 4 = Some (Experience.make f a r o).
Proof.
  assert (W : wf scenario_memory) by prove_wf.
  assert (S : shape_2d_or_3d [1; 1]) by (left; reflexivity).
  assert (L : 0 <= 3 < 5) by lia.
  assert (F : window_fits scenario_memory 3)
    by (right; vm_compute; split; [reflexivity | discriminate]).
  repeat (split; [assumption|]).
  destruct (C4_sample_reads_consecutive_slots scenario_memory 3 W S L F)
    as (st & r & a & o & E & Hl & _ & Hs).
  exists st, r, a, o. split; [exact E|]. split; [exact Hl|]. exact Hs.
Defined.

Lemma C5_witness :
  0 < 5 /\ 1 <= 3 /\ Forall (fun d => 0 <= d) [2; 1] /\
  exists m,
    run 5 [2; 1] 3
      ([Experience.make (pair 3 30) 13 (f32 3) true]
         ++ [Experience.make (pair 4 40) 14 (f32 4) false]) = Ok m /\
    recent_state m = [Frame.make [2; 1] [0; 0]; pair 4 40].
Proof.
  assert (H1 : 0 < 5) by lia.
  assert (H2 : 1 <= 3) by lia.
  assert (H3 : Forall (fun d => 0 <= d) [2; 1])
    by (repeat constructor; lia).
  repeat (split; [assumption|]).
  destruct (C5_recent_state_left_padding 5 3 [2; 1] H1 H2 H3) as (_ & H).
  destruct (H [Experience.make (pair 3 30) 13 (f32 3) true]
              [Experience.make (pair 4 40) 14 (f32 4) false]) as (m & E & R).
  - right. exists [], (Experience.make (pair 3 30) 13 (f32 3) true).
    split; reflexivity.
  - repeat constructor.
  - vm_compute. discriminate.
  - repeat constructor.
  - exists m. split; [exact E|exact R].
Defined.

Lemma C6_witness :
  0 < 5 /\ 1 <= 2 /\ Forall (fun d => 0 <= d) [1; 1] /\
  Forall (fun e => storable [1; 1] e = true) scenario_exps /\
  exists m, run 5 [1; 1] 2 scenario_exps = Ok m /\
    len (items (_hist m)) <= 1.
Proof.
  assert (H1 : 0 < 5) by lia.
  assert (H2 : 1 <= 2) by lia.
  assert (H3 : Forall (fun d => 0 <= d) [1; 1])
    by (repeat constructor; lia).
  assert (H4 : Forall (fun e => storable [1; 1] e = true) scenario_exps)
    by exact scenario_exps_storable.
  repeat (split; [assumption|]).
  destruct (C6_recent_history_bounded_and_live 5 2 [1; 1] scenario_exps
              H1 H2 H3 H4) as (m & E & _ & L & _).
  exists m. split; [exact E|exact L].
Defined.

Lemma C7_witness :
  0 < 3 /\ 1 <= 2 <= 3 /\ Forall (fun d => 0 <= d) [1; 1] /\
  shape_2d_or_3d [1; 1] /\
  3 <= len [Experience.make (pixel 1) 11 (f32 1) false;
            Experience.make (pixel 2) 12 (f32 2) false] + 1 /\
  exists m m' st,
    run 3 [1; 1] 2 [Experience.make (pixel 1) 11 (f32 1) false;
                    Experience.make (pixel 2) 12 (f32 2) false] = Ok m /\
    append m (Experience.make (pixel 3) 4294967309
                (S754_finite false 16777217 0) true) = Ok m' /\
    sample m' (3 - 2)
    = Ok (m', (st, S754_finite false 8388608 1, 13, true)).
Proof.
  assert (H1 : 0 < 3) by lia.
  assert (H2 : 1 <= 2 <= 3) by lia.
  assert (H3 : Forall (fun d => 0 <= d) [1; 1])
    by (repeat constructor; lia).
  assert (H4 : shape_2d_or_3d [1; 1]) by (left; reflexivity).
  assert (H5 : 3 <= len [Experience.make (pixel 1) 11 (f32 1) false;
                         Experience.make (pixel 2) 12 (f32 2) false] + 1)
    by (vm_compute; discriminate).
  repeat (split; [assumption|]).
  destruct (C7_round_trip_on_full_ring 3 2 [1; 1] _
              (Experience.make (pixel 3) 4294967309
                 (S754_finite false 16777217 0) true) H1 H2 H3 H4 H5
              ltac:(repeat constructor) eq_refl)
    as (m & m' & st & E & A & _ & S & _).
  exists m, m', st. split; [exact E|]. split; [exact A|exact S].
Defined.

Lemma C8_witness :
  wf three_memory /\ shape_2d_or_3d [1; 1] /\ 2 <= 5 /\
  exists st r a o,
    sample three_memory 1 = Ok (three_memory, (st, r, a, o)) /\
    len (frames three_memory (base st)) = 5.
Proof.
  assert (W : wf three_memory) by prove_wf.
  assert (S : shape_2d_or_3d [1; 1]) by (left; reflexivity).
  assert (H : 2 <= 5) by lia.
  repeat (split; [assumption|]).
  destruct (C8_sample_validates_nothing three_memory 1 W S H) as (_ & K).
  destruct (K ltac:(vm_compute; reflexivity)) as (st & r & a & o & E & L).
  exists st, r, a, o. split; [exact E|].
  exact (proj1 (L ltac:(vm_compute; reflexivity))).
Defined.

Lemma C10_witness :
  call (Sample 0) pairs_memory
  = Ok (pairs_memory,
        ASample (mkStacked
                   (Own [Frame.make [2; 1] [0; 0]; Frame.make [2; 1] [0; 0];
                         pair 3 30; pair 4 40]) [1; 2; 0]%nat,
                 f32 3, 13, false)) /\
  pairs_memory = pairs_memory.
Proof.
  assert (H : call (Sample 0) pairs_memory
              = Ok (pairs_memory,
                    ASample (mkStacked
                               (Own [Frame.make [2; 1] [0; 0];
                                     Frame.make [2; 1] [0; 0];
                                     pair 3 30; pair 4 40]) [1; 2; 0]%nat,
                             f32 3, 13, false)))
    by (vm_compute; reflexivity).
  split; [exact H|].
  exact (C10_reads_do_not_modify_memory _ _ _ _ H).
Defined.

(** ** The metric callbacks: what is caught *)

Section CallbackFacts.

Context {Scalar Clock Env : Type} (h : Host Scalar Clock Env).

Lemma keeps_log_lift {A : Type} (f : op Env A) : keeps_log (lift f).
Proof. intros w. unfold lift. destruct (f (env w)). reflexivity. Qed.

Lemma keeps_log_bind {A B : Type} (c : M Env A) (k : A -> M Env B) :
  keeps_log c -> (forall a, keeps_log (k a)) -> keeps_log (bind c k).
Proof.
  intros Hc Hk w. unfold bind. specialize (Hc w).
  destruct (c w) as [w' [a|e]]; simpl in *; [|assumption].
  rewrite Hk. assumption.
Qed.

Lemma emit_scores_keeps_log : keeps_log (emit_scores h).
Proof.
  unfold emit_scores.
  repeat (apply keeps_log_bind; [apply keeps_log_lift | intros ?]).
  apply keeps_log_lift.
Qed.

(** Whatever fails inside the [try] with an exception that derives
    from [Exception] ends in the handler, and the callback goes on. *)
Lemma emission_failure_goes_to_the_handler (w : World Env) (e : exn) :
  snd (emit_scores h w) = Raise e -> isinstance_Exception e = true ->
  snd (log_scores h w) = Ok tt /\
  log (fst (log_scores h w)) = log w ++ ["Cannot log training scores."%string] /\
  ExpReplay_trigger h w = publish_counts h (fst (log_scores h w)).
Proof.
  intros Hr He.
  pose proof (emit_scores_keeps_log w) as Hl.
  unfold ExpReplay_trigger, bind, log_scores, try_except_Exception.
  destruct (emit_scores h w) as [w' r]. simpl in Hr, Hl. subst r.
  rewrite He. unfold logger_exception. simpl. rewrite Hl. auto.
Qed.

End CallbackFacts.

Ltac run_trigger :=
  unfold ExpReplay_trigger, Evaluator_trigger, log_scores,
    try_except_Exception, emit_scores, publish_counts, logger_exception,
    bind, lift, refusing, host_of, quietly, ret;
  cbn -[isinstance_Exception];
  try match goal with
      | H : isinstance_Exception _ = _ |- _ =>
          rewrite H; cbn -[isinstance_Exception]
      end;
  repeat
    (match goal with
     | |- context [if ?c =? 0 then _ else _] =>
         destruct (c =? 0); cbn -[isinstance_Exception]
     | |- context [q_eval _ _ _ ?q ?n ?x] =>
         destruct (q_eval _ _ _ q n x) as [? [[[? ?] ?] ?]];
         cbn -[isinstance_Exception]
     end).

(** C9.  Which emissions the [try] of [ExpReplay._trigger] guards.
    The collaborators [q] never fail by themselves and the monitors
    raise [e] when they are given the scalar [name].
    - [name] is one of expreplay/mean_score, expreplay/max_score,
      expreplay/mean_dist, expreplay/max_dist: if [e] derives from
      [Exception] the callback returns normally and the log gains
      exactly the message of the handler; if it does not (a
      [KeyboardInterrupt], say) [e] propagates and nothing is logged.
    - [name] is one of n_games, n_success, n_success_ratio: [e]
      propagates from [ExpReplay._trigger] and nothing is logged.
    - [name] is one of the four scalars of [Evaluator._trigger]: [e]
      propagates from it and nothing is logged.
    And with any collaborators [h], whatever the body of the [try]
    raises (the counters' [average] and [max] included) is caught
    when it derives from [Exception]: the message is logged and the
    callback goes on with the rest of its body. *)
Theorem C9_score_emission_failure_is_caught_and_logged
    {Scalar Clock Env : Type} (q : Quiet Scalar Clock Env)
    (name : string) (e : exn) (w : World Env) (n : Z) :
  (In name ["expreplay/mean_score"; "expreplay/max_score";
            "expreplay/mean_dist"; "expreplay/max_dist"]%string ->
   (isinstance_Exception e = true ->
    snd (ExpReplay_trigger (refusing name e (host_of q)) w) = Ok tt /\
    log (fst (ExpReplay_trigger (refusing name e (host_of q)) w))
    = log w ++ ["Cannot log training scores."%string]) /\
   (isinstance_Exception e = false ->
    snd (ExpReplay_trigger (refusing name e (host_of q)) w) = Raise e /\
    log (fst (ExpReplay_trigger (refusing name e (host_of q)) w)) = log w)) /\
  (In name ["n_games"; "n_success"; "n_success_ratio"]%string ->
   snd (ExpReplay_trigger (refusing name e (host_of q)) w) = Raise e /\
   log (fst (ExpReplay_trigger (refusing name e (host_of q)) w)) = log w) /\
  (In name ["mean_score"; "max_score"; "mean_distance";
            "max_distance"]%string ->
   snd (Evaluator_trigger (refusing name e (host_of q)) n w) = Raise e /\
   log (fst (Evaluator_trigger (refusing name e (host_of q)) n w)) = log w) /\
  (forall h : Host Scalar Clock Env,
     snd (emit_scores h w) = Raise e -> isinstance_Exception e = true ->
     snd (log_scores h w) = Ok tt /\
     log (fst (log_scores h w))
     = log w ++ ["Cannot log training scores."%string] /\
     ExpReplay_trigger h w = publish_counts h (fst (log_scores h w))).
Proof.
  split; [|split; [|split]].
  - intros Hin. split; intros He;
      repeat (destruct Hin as [<- | Hin]; [| ]); try contradiction;
      run_trigger; split; reflexivity.
  - intros Hin.
    repeat (destruct Hin as [<- | Hin]; [| ]); try contradiction;
      run_trigger; split; reflexivity.
  - intros Hin.
    repeat (destruct Hin as [<- | Hin]; [| ]); try contradiction;
      run_trigger; split; reflexivity.
  - intros h. apply emission_failure_goes_to_the_handler.
Qed.

(** A failure of [put_scalar] outside the [try] aborts the callback
    and is not logged: "n_games" in [ExpReplay._trigger], any scalar in
    [Evaluator._trigger]. *)
Lemma C9_unguarded_emission_failure_propagates :
  ExpReplay_trigger (test_host ["n_games"%string] false) (mkWorld [] [])
  = (mkWorld [("expreplay/mean_score"%string, 1);
              ("expreplay/max_score"%string, 1);
              ("expreplay/mean_dist"%string, 1);
              ("expreplay/max_dist"%string, 1)] [],
     Raise (OtherException "monitor")) /\
  Evaluator_trigger (test_host ["mean_score"%string] false) 10 (mkWorld [] [])
  = (mkWorld [] [], Raise (OtherException "monitor")).
Proof. split; vm_compute; reflexivity. Qed.

Lemma C9_witness :
  In "expreplay/max_score"%string
    ["expreplay/mean_score"; "expreplay/max_score";
     "expreplay/mean_dist"; "expreplay/max_dist"]%string /\
  isinstance_Exception AssertionError = true /\
  ExpReplay_trigger
    (refusing "expreplay/max_score" AssertionError (host_of test_quiet))
    (mkWorld [] [])
  = (mkWorld [("expreplay/mean_score"%string, 1);
              ("n_games"%string, 3); ("n_success"%string, 2);
              ("n_success_ratio"%string, 0)]
             ["Cannot log training scores."%string],
     Ok tt) /\
  snd (ExpReplay_trigger
         (refusing "expreplay/max_score" AssertionError (host_of test_quiet))
         (mkWorld [] [])) = Ok tt /\
  snd (ExpReplay_trigger
         (refusing "n_success_ratio" AssertionError (host_of test_quiet))
         (mkWorld [] [])) = Raise AssertionError.
Proof.
  assert (H1 : In "expreplay/max_score"%string
                 ["expreplay/mean_score"; "expreplay/max_score";
                  "expreplay/mean_dist"; "expreplay/max_dist"]%string)
    by (right; left; reflexivity).
  assert (H2 : isinstance_Exception AssertionError = true) by reflexivity.
  repeat (split; [assumption|]).
  split; [vm_compute; reflexivity|].
  split.
  - exact (proj1 (proj1 (proj1
             (C9_score_emission_failure_is_caught_and_logged test_quiet
                "expreplay/max_score" AssertionError (mkWorld [] []) 10)
             H1) H2)).
  - vm_compute. reflexivity.
Defined.

(** ** Sampling in the order of the appends *)

Lemma slot_state (m : t) (q : Z) (e : Experience) :
  slot m q = Some e ->
  nth_error (state m) (Z.to_nat q) = Some (Experience.state e).
Proof.
  unfold slot. intros H.
  destruct (nth_error (state m) (Z.to_nat q)); [|discriminate].
  destruct (nth_error (action m) (Z.to_nat q)); [|discriminate].
  destruct (nth_error (reward m) (Z.to_nat q)); [|discriminate].
  destruct (nth_error (isOver m) (Z.to_nat q)); [|discriminate].
  injection H as <-. reflexivity.
Qed.

(** In the range the trainer samples from, position [y] of the window
    of logical index [li] is the slot of append [start + y]. *)
Lemma phys_chrono (exps : list Experience) (m : t) (li y : Z) :
  wf m -> ring_inv exps m ->
  0 <= li -> li + (history_len m + 1) <= _curr_size m ->
  0 <= y < history_len m + 1 ->
  (phys m li + y) mod _curr_size m
  = (len exps - _curr_size m + li + y) mod max_size m.
Proof.
  intros W (Rs & Rp & _) Hli Hfit Hy.
  pose proof (wf_hl m W). pose proof (wf_cap m W). pose proof (wf_size m W).
  unfold phys.
  destruct (Z_lt_le_dec (_curr_size m) (max_size m)) as [Hpart|Hfull].
  - assert (Hn : _curr_size m = len exps) by lia.
    rewrite (wf_filling m W Hpart).
    replace (_curr_size m + li) with (li + 1 * _curr_size m) by lia.
    rewrite Z.mod_add by lia.
    rewrite (Z.mod_small li) by lia.
    rewrite Z.mod_small by lia.
    rewrite Z.mod_small by lia. lia.
  - assert (Hc : _curr_size m = max_size m) by lia.
    rewrite Hc, Rp.
    rewrite Z.add_mod_idemp_l by lia.
    rewrite <- Z.add_assoc, Z.add_mod_idemp_l by lia.
    replace (len exps + (li + y))
      with (len exps - max_size m + li + y + 1 * max_size m) by lia.
    apply Z.mod_add. lia.
Qed.

Lemma chrono_stored (exps : list Experience) (m : t) (li y : Z) :
  wf m -> ring_inv exps m ->
  0 <= li -> li + (history_len m + 1) <= _curr_size m ->
  0 <= y < history_len m + 1 ->
  exists e,
    nth_error exps (Z.to_nat (window_start (max_size m) exps li + y)) = Some e /\
    stored m li (state m) y
    = Some (Experience.state (as_stored (state_shape m) e)) /\
    stored m li (reward m) y
    = Some (Experience.reward (as_stored (state_shape m) e)) /\
    stored m li (action m) y
    = Some (Experience.action (as_stored (state_shape m) e)) /\
    stored m li (isOver m) y = Some (Experience.isOver e).
Proof.
  intros W R Hli Hfit Hy.
  pose proof (phys_chrono exps m li y W R Hli Hfit Hy) as P.
  destruct R as (Rs & Rp & Rslots).
  pose proof (wf_hl m W). pose proof (wf_cap m W). pose proof (wf_size m W).
  unfold window_start. rewrite <- Rs.
  set (p := len exps - _curr_size m + li + y) in *.
  assert (Hp : 0 <= p /\ len exps - max_size m <= p < len exps)
    by (unfold p; lia).
  destruct (nth_error exps (Z.to_nat p)) as [e|] eqn:N.
  2:{ apply nth_error_None in N. unfold len in *. lia. }
  exists e. split; [reflexivity|].
  specialize (Rslots p ltac:(lia) ltac:(lia)). rewrite N in Rslots.
  cbn [option_map] in Rslots.
  unfold stored. rewrite P.
  pose proof (slot_state _ _ _ Rslots).
  destruct (slot_fields _ _ _ Rslots) as (Fr & Fa & Fo).
  rewrite as_stored_isOver in Fo. auto.
Qed.

(** A window inside the valid region fits. *)
Lemma safe_range_fits (exps : list Experience) (m : t) (li : Z) :
  wf m -> ring_inv exps m ->
  0 <= li -> li + (history_len m + 1) <= _curr_size m ->
  window_fits m li.
Proof.
  intros W R Hli Hin.
  pose proof (wf_hl m W). pose proof (wf_cap m W). pose proof (wf_size m W).
  destruct (Z_lt_le_dec (_curr_size m) (max_size m)) as [Hpart|Hfull].
  - left. unfold phys. rewrite (wf_filling m W Hpart).
    replace (_curr_size m + li) with (li + 1 * _curr_size m) by lia.
    rewrite Z.mod_add by lia. rewrite Z.mod_small by lia. lia.
  - right. lia.
Qed.

(** What [sample] returns on a window that fits, frames and fields. *)
Lemma sample_padding_spec (m : t) (li : Z) :
  wf m -> shape_2d_or_3d (state_shape m) -> 0 < _curr_size m ->
  window_fits m li ->
  exists st r a o,
    sample m li = Ok (m, (st, r, a, o)) /\
    stored m li (reward m) (history_len m - 1) = Some r /\
    stored m li (action m) (history_len m - 1) = Some a /\
    stored m li (isOver m) (history_len m - 1) = Some o /\
    len (frames m (base st)) = history_len m + 1 /\
    (forall j, 0 <= j < history_len m + 1 ->
       nth_error (frames m (base st)) (Z.to_nat j) = stored m li (state m) j \/
       nth_error (frames m (base st)) (Z.to_nat j)
       = option_map zero_fill (stored m li (state m) j)) /\
    (forall j, history_len m - 1 <= j < history_len m + 1 ->
       nth_error (frames m (base st)) (Z.to_nat j) = stored m li (state m) j) /\
    ((forall p, 0 <= p <= history_len m - 2 ->
        stored m li (isOver m) p = Some false) ->
     forall j, 0 <= j < history_len m + 1 ->
       nth_error (frames m (base st)) (Z.to_nat j)
       = stored m li (state m) j) /\
    (forall p, 0 <= p <= history_len m - 2 ->
       stored m li (isOver m) p = Some true ->
       forall j, 0 <= j <= p ->
         nth_error (frames m (base st)) (Z.to_nat j)
         = option_map zero_fill (stored m li (state m) j)).
Proof.
  intros W Hsh Hs Hf.
  destruct (sample_fits_spec m li W Hsh Hs Hf)
    as (st & r & a & o & E & Nr & Na & No & Lf & FR).
  exists st, r, a, o. do 5 (split; [assumption|]).
  pose proof (wf_hl m W) as Hhl.
  assert (T : forall p, 0 <= p <= history_len m - 2 ->
            nth_error (read_window m li (isOver m)) (Z.to_nat p)
            = stored m li (isOver m) p).
  { intros p Hp. rewrite read_window_nth by (try assumption; try apply W; lia).
    unfold stored. rewrite Z2Nat.id by lia. reflexivity. }
  pose proof (first_set_spec (read_window m li (isOver m)) (history_len m - 2))
    as FS.
  destruct (first_set (range_down (history_len m - 2))
              (read_window m li (isOver m))) as [k0|].
  - destruct FS as (Hk0 & Hset & Hlater). rewrite T in Hset by lia.
    assert (G : forall j, 0 <= j < history_len m + 1 ->
              nth_error (frames m (base st)) (Z.to_nat j)
              = if j <=? k0
                then option_map zero_fill (stored m li (state m) j)
                else stored m li (state m) j).
    { intros j Hj. rewrite FR by lia. rewrite Z2Nat.id by lia. reflexivity. }
    repeat split.
    + intros j Hj. rewrite G by lia. destruct (j <=? k0); auto.
    + intros j Hj. rewrite G by lia.
      destruct (Z.leb_spec j k0); [lia | reflexivity].
    + intros Hnone. rewrite Hnone in Hset by lia. discriminate.
    + intros p Hp Hset' j Hj. rewrite G by lia.
      destruct (Z.leb_spec j k0); [reflexivity|].
      exfalso. apply (Hlater p); [lia|]. rewrite T by lia. exact Hset'.
  - assert (G : forall j, 0 <= j < history_len m + 1 ->
              nth_error (frames m (base st)) (Z.to_nat j)
              = stored m li (state m) j).
    { intros j Hj. rewrite FR by lia. rewrite Z2Nat.id by lia. reflexivity. }
    repeat split.
    + intros j Hj. left. apply G; lia.
    + intros j Hj. apply G; lia.
    + intros _. exact G.
    + intros p Hp Hset. exfalso. apply (FS p); [lia|].
      rewrite T by lia. exact Hset.
Qed.

Lemma window_exps_nth (exps : list Experience) (s k : Z) (j : nat) :
  0 <= s -> Z.of_nat j < k ->
  nth_error (firstn (Z.to_nat k) (skipn (Z.to_nat s) exps)) j
  = nth_error exps (Z.to_nat (s + Z.of_nat j)).
Proof.
  intros Hs Hj. rewrite nth_error_firstn.
  destruct (Nat.ltb_spec j (Z.to_nat k)); [|lia].
  rewrite nth_error_skipn. f_equal. lia.
Qed.

Lemma in_firstn {A : Type} (n : nat) (l : list A) (x : A) :
  In x (firstn n l) -> In x l.
Proof.
  intros H. rewrite <- (firstn_skipn n l). apply in_or_app. left. exact H.
Qed.

Lemma in_skipn {A : Type} (n : nat) (l : list A) (x : A) :
  In x (skipn n l) -> In x l.
Proof.
  intros H. rewrite <- (firstn_skipn n l). apply in_or_app. right. exact H.
Qed.

(** X1.  The bookkeeping of the ring.  A run of appends returns
    exactly when every transition can be assigned into the arrays
    (its state broadcasts to the shape of a slot, its action fits a C
    long); the first one that cannot raises the error of its
    assignment.  After a run that returns, the size is [min n C], the
    cursor is [n mod C] and stays inside the ring, and the four
    storage arrays keep the length of the ring. *)
Theorem X1_run_keeps_cursor_size_and_array_lengths
    (C hl : Z) (shape : list Z) (exps : list Experience) :
  0 < C -> 1 <= hl -> Forall (fun d => 0 <= d) shape ->
  (Forall (fun e => storable shape e = true) exps ->
   exists m, run C shape hl exps = Ok m /\
     max_size m = C /\ history_len m = hl /\ state_shape m = shape /\
     _curr_size m = Z.min (len exps) C /\
     _curr_pos m = len exps mod C /\ 0 <= _curr_pos m < C /\
     len (state m) = C /\ len (action m) = C /\
     len (reward m) = C /\ len (isOver m) = C) /\
  (forall m, run C shape hl exps = Ok m ->
     Forall (fun e => storable shape e = true) exps) /\
  (forall e x,
     Forall (fun e => storable shape e = true) exps ->
     stored_form shape e = Raise x ->
     run C shape hl (exps ++ [e]) = Raise x).
Proof.
  intros HC Hhl Hs. split; [|split].
  - intros Hst.
    destruct (run_ok C hl shape exps HC Hhl Hs Hst)
      as (m & E & W & (Rs & Rp & _) & H1 & H2 & H3).
    exists m. rewrite H1 in Rs, Rp. destruct W. rewrite H1 in *.
    repeat (split; [assumption || reflexivity|]). assumption.
  - intros m. apply run_inv; assumption.
  - intros e x Hst Hx.
    destruct (run_ok C hl shape exps HC Hhl Hs Hst)
      as (m & E & W & _ & _ & H2 & _).
    rewrite run_snoc, E. cbn [rbind].
    apply append_raise; [exact W|]. rewrite H2. exact Hx.
Qed.

(** X2.  [__init__] accepts a capacity of 0, but the memory it builds
    can take no transition and give none: every [append] raises
    [IndexError] and every [sample] raises [ZeroDivisionError]. *)
Theorem X2_capacity_zero_memory_is_unusable
    (hl : Z) (shape : list Z) (e : Experience) (li : Z) :
  1 <= hl -> Forall (fun d => 0 <= d) shape ->
  exists m, __init__ 0 shape hl = Ok m /\ __len__ m = 0 /\
    append m e = Raise IndexError /\
    sample m li = Raise ZeroDivisionError.
Proof.
  intros Hhl Hs. unfold __init__, deque_new.
  assert (E2 : existsb (fun d => d <? 0) shape = false).
  { induction Hs as [|d l Hd _ IH]; simpl; [reflexivity|].
    rewrite IH, orb_false_r. apply Z.ltb_ge; lia. }
  assert (E3 : (hl - 1 <? 0) = false) by (apply Z.ltb_ge; lia).
  rewrite E2, E3. simpl. eexists. split; [reflexivity|].
  repeat split.
Qed.

(** X3.  Logical indices count from the oldest retained append.  In a
    memory that received [exps], for [li >= 0] with
    [li + history_len + 1 <= size], [sample li] returns the reward,
    action and flag of append [start + history_len - 1] as the
    float32, int32 and bool arrays hold them (the reward rounded to
    float32, the action wrapped into int32), where
    [start = n - size + li]; and when none of the appends
    [start .. start + history_len - 2] is terminal, the frames it
    returns are the stored states of the appends
    [start .. start + history_len], in that order: for states of the
    shape of a slot, their elements modulo 256. *)
Theorem X3_sample_follows_the_order_of_appends
    (C hl : Z) (shape : list Z) (exps : list Experience) (li : Z) :
  0 < C -> 1 <= hl -> Forall (fun d => 0 <= d) shape ->
  shape_2d_or_3d shape ->
  Forall (fun e => storable shape e = true) exps ->
  0 <= li -> li + hl + 1 <= Z.min (len exps) C ->
  exists m st e,
    run C shape hl exps = Ok m /\
    nth_error exps (Z.to_nat (window_start C exps li + (hl - 1))) = Some e /\
    sample m li
    = Ok (m, (st, as_float32 (Experience.reward e),
              (Experience.action e + 2147483648) mod 4294967296 - 2147483648,
              Experience.isOver e)) /\
    ((forall p ep, 0 <= p <= hl - 2 ->
        nth_error exps (Z.to_nat (window_start C exps li + p)) = Some ep ->
        Experience.isOver ep = false) ->
     frames m (base st)
     = map (fun e => Experience.state (as_stored shape e))
         (firstn (Z.to_nat (hl + 1))
            (skipn (Z.to_nat (window_start C exps li)) exps)) /\
     (Forall (fun e => Frame.shape (Experience.state e) = shape /\
                       is_array (Experience.state e) = true) exps ->
      frames m (base st)
      = map (fun e => Frame.make shape
                        (map (fun v => v mod 256)
                           (Frame.data (Experience.state e))))
          (firstn (Z.to_nat (hl + 1))
             (skipn (Z.to_nat (window_start C exps li)) exps)))).
Proof.
  intros HC Hhl Hs Hsh Hst Hli Hfit.
  destruct (run_ok C hl shape exps HC Hhl Hs Hst)
    as (m & E & W & R & H1 & H2 & H3).
  pose proof R as (Rs & _). rewrite H1 in Rs.
  assert (Hin : li + (history_len m + 1) <= _curr_size m) by lia.
  pose proof (safe_range_fits exps m li W R Hli Hin) as Hw.
  destruct (sample_padding_spec m li W ltac:(rewrite H2; exact Hsh)
              ltac:(lia) Hw)
    as (st & r & a & o & Es & Nr & Na & No & Lf & _ & _ & Hnone & _).
  destruct (chrono_stored exps m li (history_len m - 1) W R Hli Hin
              ltac:(lia)) as (e & Ne & _ & Fr & Fa & Fo).
  rewrite H1, H3 in Ne. rewrite H2 in Fr, Fa.
  assert (He : storable shape e = true).
  { rewrite Forall_forall in Hst. apply Hst.
    exact (nth_error_In _ _ Ne). }
  destruct (as_stored_fields shape e He) as (_ & _ & Ga & Gr & _).
  rewrite Ga in Fa. rewrite Gr in Fr.
  exists m, st, e. split; [exact E|]. split; [exact Ne|].
  assert (Hframes :
    (forall p ep, 0 <= p <= hl - 2 ->
       nth_error exps (Z.to_nat (window_start C exps li + p)) = Some ep ->
       Experience.isOver ep = false) ->
    frames m (base st)
    = map (fun e => Experience.state (as_stored shape e))
        (firstn (Z.to_nat (hl + 1))
           (skipn (Z.to_nat (window_start C exps li)) exps))).
  { intros Hlive.
    assert (Hstart : 0 <= window_start C exps li)
      by (unfold window_start; lia).
    apply nth_error_ext. intros j.
    destruct (Z_lt_le_dec (Z.of_nat j) (hl + 1)) as [Hj|Hj].
    + rewrite nth_error_map, window_exps_nth by lia.
      destruct (chrono_stored exps m li (Z.of_nat j) W R Hli Hin
                  ltac:(lia)) as (ej & Nj & Fs & _).
      rewrite H1 in Nj. rewrite H2 in Fs. rewrite Nj. simpl. rewrite <- Fs.
      rewrite <- (Nat2Z.id j) at 1. apply Hnone; [|lia].
      intros p Hp.
      destruct (chrono_stored exps m li p W R Hli Hin ltac:(lia))
        as (ep & Np & _ & _ & _ & Fo').
      rewrite H1 in Np. rewrite Fo'. f_equal.
      apply (Hlive p ep); [lia|exact Np].
    + transitivity (@None Frame); [|symmetry];
        apply nth_error_None.
      * unfold len in Lf. lia.
      * rewrite length_map, length_firstn. lia. }
  split.
  - rewrite Es. repeat f_equal; congruence.
  - intros Hlive. split; [exact (Hframes Hlive)|].
    intros Hshaped. rewrite (Hframes Hlive). apply map_ext_in.
    intros x Hx.
    assert (Hx' : In x exps).
    { apply in_firstn, in_skipn in Hx. exact Hx. }
    rewrite Forall_forall in Hst, Hshaped.
    destruct (Hshaped x Hx') as (S1 & S2). specialize (Hst x Hx').
    rewrite <- S1 in Hst |- *. apply as_stored_state_same; assumption.
Qed.

(** X4.  No frame crosses an episode boundary.  In the same range, if
    append [start + p] is terminal for a window position
    [p <= history_len - 2], the frames at positions [0 .. p] come back
    as arrays of the shape of a slot whose elements are all 0; the
    last two frames of the window (the step trained on and its
    successor) always come back as stored: for a state of the shape
    of a slot, its elements modulo 256. *)
Theorem X4_frames_up_to_an_episode_end_are_zeroed
    (C hl : Z) (shape : list Z) (exps : list Experience) (li p : Z)
    (ep : Experience) :
  0 < C -> 1 <= hl -> Forall (fun d => 0 <= d) shape ->
  shape_2d_or_3d shape ->
  Forall (fun e => storable shape e = true) exps ->
  0 <= li -> li + hl + 1 <= Z.min (len exps) C ->
  0 <= p <= hl - 2 ->
  nth_error exps (Z.to_nat (window_start C exps li + p)) = Some ep ->
  Experience.isOver ep = true ->
  exists m st r a o,
    run C shape hl exps = Ok m /\
    sample m li = Ok (m, (st, r, a, o)) /\
    (forall j, 0 <= j <= p ->
       nth_error (frames m (base st)) (Z.to_nat j)
       = Some (Frame.make shape
                 (repeat 0 (Z.to_nat (fold_right Z.mul 1 shape))))) /\
    (forall j ej, hl - 1 <= j <= hl ->
       nth_error exps (Z.to_nat (window_start C exps li + j)) = Some ej ->
       nth_error (frames m (base st)) (Z.to_nat j)
       = Some (Experience.state (as_stored shape ej)) /\
       (Frame.shape (Experience.state ej) = shape ->
        is_array (Experience.state ej) = true ->
        nth_error (frames m (base st)) (Z.to_nat j)
        = Some (Frame.make shape
                  (map (fun v => v mod 256)
                     (Frame.data (Experience.state ej)))))).
Proof.
  intros HC Hhl Hs Hsh Hst Hli Hfit Hp Np Ho.
  destruct (run_ok C hl shape exps HC Hhl Hs Hst)
    as (m & E & W & R & H1 & H2 & H3).
  pose proof R as (Rs & _). rewrite H1 in Rs.
  assert (Hin : li + (history_len m + 1) <= _curr_size m) by lia.
  pose proof (safe_range_fits exps m li W R Hli Hin) as Hw.
  destruct (sample_padding_spec m li W ltac:(rewrite H2; exact Hsh)
              ltac:(lia) Hw)
    as (st & r & a & o & Es & _ & _ & _ & _ & _ & Hlast & _ & Hzero).
  exists m, st, r, a, o. split; [exact E|]. split; [exact Es|].
  assert (Fp : stored m li (isOver m) p = Some true).
  { destruct (chrono_stored exps m li p W R Hli Hin ltac:(lia))
      as (e' & N' & _ & _ & _ & Fo').
    rewrite H1 in N'. rewrite Fo'. congruence. }
  rewrite Forall_forall in Hst.
  split.
  - intros j Hj. rewrite (Hzero p ltac:(lia) Fp j Hj).
    destruct (chrono_stored exps m li j W R Hli Hin ltac:(lia))
      as (e' & N' & Fs & _).
    rewrite H2 in Fs. rewrite Fs. cbn [option_map].
    rewrite zero_fill_zeros.
    destruct (as_stored_state_size shape e' Hs
                (Hst e' (nth_error_In _ _ N'))) as (S1 & S2).
    rewrite S1, S2. reflexivity.
  - intros j ej Hj Nj. rewrite (Hlast j ltac:(lia)).
    destruct (chrono_stored exps m li j W R Hli Hin ltac:(lia))
      as (e' & N' & Fs & _).
    rewrite H1 in N'. rewrite H2 in Fs. rewrite Fs.
    assert (e' = ej) by congruence. subst e'.
    split; [reflexivity|]. intros S1 S2. f_equal.
    pose proof (Hst ej (nth_error_In _ _ Nj)) as Hej.
    rewrite <- S1 in Hej |- *. apply as_stored_state_same; assumption.
Qed.

Lemma list_eq_by_nth {A B : Type} (l : list A) (w : list B) (g : B -> A)
    (k : nat) :
  length l = k -> length w = k ->
  (forall j, (j < k)%nat -> nth_error l j = option_map g (nth_error w j)) ->
  l = map g w.
Proof.
  intros Hl Hw H. apply nth_error_ext. intros j.
  rewrite nth_error_map.
  destruct (Nat.lt_ge_cases j k) as [Hj|Hj]; [apply H; assumption|].
  transitivity (@None A); [|symmetry].
  - apply nth_error_None. lia.
  - replace (nth_error w j) with (@None B); [reflexivity|].
    symmetry. apply nth_error_None. lia.
Qed.

(** In the valid region the window [sample] reads is a run of
    consecutive appends. *)
Lemma read_window_chrono (exps : list Experience) (m : t) (li : Z) :
  wf m -> ring_inv exps m ->
  0 <= li -> li + (history_len m + 1) <= _curr_size m ->
  let w := firstn (Z.to_nat (history_len m + 1))
             (skipn (Z.to_nat (window_start (max_size m) exps li)) exps) in
  read_window m li (state m)
  = map (fun e => Experience.state (as_stored (state_shape m) e)) w /\
  read_window m li (reward m)
  = map (fun e => Experience.reward (as_stored (state_shape m) e)) w /\
  read_window m li (action m)
  = map (fun e => Experience.action (as_stored (state_shape m) e)) w /\
  read_window m li (isOver m) = map Experience.isOver w.
Proof.
  intros W R Hli Hin w.
  pose proof (safe_range_fits exps m li W R Hli Hin) as Hw.
  pose proof (wf_hl m W) as Hhl. pose proof (wf_size m W) as Hsz.
  assert (Hs : 0 < _curr_size m) by lia.
  pose proof R as (Rs & _).
  assert (Hstart : 0 <= window_start (max_size m) exps li)
    by (unfold window_start; lia).
  assert (Lw : length w = Z.to_nat (history_len m + 1)).
  { unfold w. rewrite length_firstn, length_skipn.
    unfold window_start, len in *. lia. }
  assert (Nw : forall j, (j < Z.to_nat (history_len m + 1))%nat ->
            exists e, nth_error w j = Some e /\
              stored m li (state m) (Z.of_nat j)
              = Some (Experience.state (as_stored (state_shape m) e)) /\
              stored m li (reward m) (Z.of_nat j)
              = Some (Experience.reward (as_stored (state_shape m) e)) /\
              stored m li (action m) (Z.of_nat j)
              = Some (Experience.action (as_stored (state_shape m) e)) /\
              stored m li (isOver m) (Z.of_nat j)
              = Some (Experience.isOver e)).
  { intros j Hj. unfold w. rewrite window_exps_nth by lia.
    apply chrono_stored; try assumption. lia. }
  assert (G : forall (A : Type) (arr : list A) (g : Experience -> A),
            len arr = max_size m ->
            (forall j e, nth_error w j = Some e ->
               stored m li arr (Z.of_nat j) = Some (g e)) ->
            read_window m li arr = map g w).
  { intros A arr g La Hg.
    apply (list_eq_by_nth _ w _ (Z.to_nat (history_len m + 1))).
    - pose proof (read_window_fits_length m li arr W Hs Hw La) as L.
      unfold len in L. lia.
    - exact Lw.
    - intros j Hj. destruct (Nw j Hj) as (e & Ne & _).
      rewrite Ne. simpl.
      rewrite read_window_nth by (try assumption; lia).
      apply Hg. exact Ne. }
  repeat split; apply G; try apply W; intros j e Ne;
    (assert (Hj : (j < Z.to_nat (history_len m + 1))%nat)
       by (rewrite <- Lw; apply nth_error_Some; congruence));
    destruct (Nw j Hj) as (e' & Ne' & Fs & Fr & Fa & Fo);
    rewrite Ne in Ne'; injection Ne' as <-; assumption.
Qed.

Lemma window_of_prefix (exps more : list Experience) (s k : Z) :
  0 <= s -> 0 <= k -> s + k <= len exps ->
  firstn (Z.to_nat k) (skipn (Z.to_nat s) (exps ++ more))
  = firstn (Z.to_nat k) (skipn (Z.to_nat s) exps).
Proof.
  intros Hs Hk Hl. unfold len in Hl.
  rewrite skipn_app, firstn_app, length_skipn.
  replace (Z.to_nat k - (length exps - Z.to_nat s))%nat with 0%nat by lia.
  simpl. apply app_nil_r.
Qed.

(** X5.  Appends into a full ring shift the logical indices and leave
    the windows above them alone: the window at logical index [li]
    before [len more] appends (of transitions the arrays accept) is
    the window at [li - len more] after them, frame for frame and
    field for field, as long as [len more <= li].  (This is why [get_data] skips the lowest
    logical indices.) *)
Theorem X5_appends_shift_logical_indices
    (C hl : Z) (shape : list Z) (exps more : list Experience) (li : Z) :
  0 < C -> 1 <= hl -> Forall (fun d => 0 <= d) shape ->
  shape_2d_or_3d shape ->
  Forall (fun e => storable shape e = true) exps ->
  Forall (fun e => storable shape e = true) more ->
  C <= len exps -> len more <= li -> li + hl + 1 <= C ->
  exists m m' st st' r a o,
    run C shape hl exps = Ok m /\ appends m more = Ok m' /\
    sample m li = Ok (m, (st, r, a, o)) /\
    sample m' (li - len more) = Ok (m', (st', r, a, o)) /\
    frames m' (base st') = frames m (base st).
Proof.
  intros HC Hhl Hs Hsh Hst Hst' Hfull Hmore Hfit.
  destruct (run_ok C hl shape exps HC Hhl Hs Hst)
    as (m & E & W & R & H1 & H2 & H3).
  destruct (run_ok C hl shape (exps ++ more) HC Hhl Hs
              ltac:(apply Forall_app; split; assumption))
    as (m' & E' & W' & R' & H1' & H2' & H3').
  assert (Ea : appends m more = Ok m').
  { unfold run in E, E'. destruct (__init__ C shape hl); simpl in *;
      [|discriminate]. rewrite appends_app, E in E'. exact E'. }
  assert (Lapp : len (exps ++ more) = len exps + len more)
    by (unfold len; rewrite length_app; lia).
  assert (L0 : 0 <= len more) by (unfold len; lia).
  pose proof R as (Rs & _). pose proof R' as (Rs' & _).
  rewrite H1 in Rs. rewrite H1', Lapp in Rs'.
  destruct (read_window_chrono exps m li W R ltac:(lia) ltac:(lia))
    as (Ws & Wr & Wa & Wo).
  destruct (read_window_chrono (exps ++ more) m' (li - len more) W' R'
              ltac:(lia) ltac:(lia)) as (Ws' & Wr' & Wa' & Wo').
  assert (Hsame :
    firstn (Z.to_nat (history_len m' + 1))
      (skipn (Z.to_nat (window_start (max_size m') (exps ++ more)
                          (li - len more))) (exps ++ more))
    = firstn (Z.to_nat (history_len m + 1))
        (skipn (Z.to_nat (window_start (max_size m) exps li)) exps)).
  { rewrite H1, H1', H3, H3'. unfold window_start. rewrite Lapp.
    replace (len exps + len more - Z.min (len exps + len more) C
             + (li - len more))
      with (len exps - Z.min (len exps) C + li) by lia.
    apply window_of_prefix; lia. }
  rewrite Hsame in Ws', Wr', Wa', Wo'.
  rewrite H2 in Ws, Wr, Wa. rewrite H2' in Ws', Wr', Wa'.
  destruct (sample_spec m li W ltac:(rewrite H2; exact Hsh) ltac:(lia)
              ltac:(lia)) as (ax & r & a & o & Nr & Na & No & Es).
  destruct (sample_spec m' (li - len more) W'
              ltac:(rewrite H2'; exact Hsh) ltac:(lia) ltac:(lia))
    as (ax' & r' & a' & o' & Nr' & Na' & No' & Es').
  cbv zeta in Nr, Na, No, Nr', Na', No'.
  rewrite Wr', Wa', Wo' in *. rewrite Wr, Wa, Wo in *.
  rewrite Nr in Nr'. rewrite Na in Na'. rewrite No in No'.
  injection Nr' as <-. injection Na' as <-. injection No' as <-.
  eexists m, m', _, _, r, a, o.
  split; [exact E|]. split; [exact Ea|].
  split; [exact Es|]. split; [exact Es'|].
  simpl. rewrite H3, H3'.
  destruct (first_set (range_down (hl - 2)) _) as [kk|]; simpl.
  - rewrite Ws, Ws'. reflexivity.
  - rewrite !frames_state_window, Ws, Ws'. reflexivity.
Qed.

(** ** Statements: what a successful run went through *)

Lemma bind_ok {Env A B : Type} (c : M Env A) (k : A -> M Env B)
    (w w' : World Env) (b : B) :
  bind c k w = (w', Ok b) ->
  exists a w1, c w = (w1, Ok a) /\ k a w1 = (w', Ok b).
Proof.
  unfold bind. destruct (c w) as [w1 [a|e]]; [eauto|discriminate].
Qed.

Lemma lift_ok {Env A : Type} (f : op Env A) (w w' : World Env) (a : A) :
  lift f w = (w', Ok a) -> log w' = log w.
Proof.
  unfold lift. destruct (f (env w)) as [e' r]. intros H.
  injection H as <- _. reflexivity.
Qed.

Lemma of_result_ok {Env A : Type} (r : result A) (w w' : World Env) (a : A) :
  of_result r w = (w', Ok a) -> r = Ok a /\ w' = w.
Proof. unfold of_result. intros H. injection H as <- ->. auto. Qed.

Lemma ret_ok {Env A : Type} (x a : A) (w w' : World Env) :
  ret x w = (w', Ok a) -> a = x /\ w' = w.
Proof. unfold ret. intros H. injection H as <- <-. auto. Qed.

(** ** ExpReplay: filling the memory *)

(** An array of the shape of the slots with an action that fits a C
    long can be stored. *)
Lemma shaped_storable (shape : list Z) (e : Experience) :
  ExpReplay.shaped shape (Experience.state e) ->
  c_long (Experience.action e) = true ->
  storable shape e = true.
Proof.
  intros (S1 & S2 & S3) Ha. unfold storable, stored_form, astype_int32.
  rewrite <- S1, astype_slot_same by assumption. rewrite Ha. reflexivity.
Qed.

(** Arrays of one shape with two or three axes are stacked on their
    last axis. *)
Lemma stack_axis_same_shape (shape : list Z) (history : list Frame) :
  shape_2d_or_3d shape -> history <> [] ->
  Forall (fun f => Frame.shape f = shape) history ->
  ExpReplay.stack_axis history = Ok (if len shape =? 3 then 3 else 2).
Proof.
  intros Hsh Hne F. destruct history as [|f rest]; [contradiction|].
  inversion F as [|? ? Hf Hrest]; subst. unfold ExpReplay.stack_axis.
  replace (forallb _ rest) with true.
  2:{ symmetry. apply forallb_forall. intros g Hg.
      rewrite Forall_forall in Hrest. rewrite (Hrest g Hg).
      unfold ExpReplay.shape_eqb.
      destruct (list_eq_dec Z.eq_dec (Frame.shape f) (Frame.shape f));
        [reflexivity | contradiction]. }
  destruct Hsh as [H|H]; rewrite H; reflexivity.
Qed.

Lemma recent_state_shapes (m : t) :
  Forall (fun e => Frame.shape (Experience.state e) = state_shape m)
    (items (_hist m)) ->
  Forall (fun f => Frame.shape f = state_shape m) (recent_state m).
Proof.
  intros F. unfold recent_state. apply Forall_app. split.
  - apply Forall_forall. intros f Hf. apply repeat_spec in Hf.
    subst f. reflexivity.
  - apply Forall_map. exact F.
Qed.

Lemma Forall_deque_append {A : Type} (P : A -> Prop) (d : deque A) (x : A) :
  Forall P (items d) -> P x -> Forall P (items (deque_append d x)).
Proof.
  intros F Hx. unfold deque_append. cbn [items].
  assert (G : Forall P (items d ++ [x]))
    by (apply Forall_app; split; [exact F | repeat constructor; exact Hx]).
  destruct (maxlen d <? len (items d ++ [x])); [|exact G].
  destruct (items d ++ [x]); [constructor|].
  inversion G; assumption.
Qed.

Section ExpReplayFacts.

Context {Noise Q Info Env : Type}
        (c : ExpReplay.Collaborators Noise Q Info Env).

(** A successful [_populate_exp] appended one transition, whose state
    is the observation held before the step, and touched nothing else
    of the object than the memory and the current observation. *)
Lemma _populate_exp_ok (self self' : ExpReplay.t Noise) (w w' : World Env) :
  ExpReplay._populate_exp c self w = (w', Ok self') ->
  exists act r o,
    append (ExpReplay.mem self)
      (Experience.make (ExpReplay._current_ob self) act r o)
    = Ok (ExpReplay.mem self') /\
    self' = ExpReplay.with_mem self (ExpReplay.mem self')
              (ExpReplay._current_ob self').
Proof.
  unfold ExpReplay._populate_exp. intros H.
  apply bind_ok in H as (x & w1 & _ & H).
  apply bind_ok in H as ([act q] & w2 & _ & H).
  apply bind_ok in H as ([[[ob r] o] info] & w3 & _ & H).
  apply bind_ok in H as (u & w4 & _ & H).
  apply bind_ok in H as (m & w5 & H5 & H).
  apply ret_ok in H as (-> & _). apply of_result_ok in H5 as (H5 & _).
  exists act, r, o. split; [exact H5 | reflexivity].
Qed.

Lemma consistent_appended (self : ExpReplay.t Noise) (e : Experience)
    (ob : Frame) :
  ExpReplay.consistent self ->
  ExpReplay.consistent (ExpReplay.with_mem self (appended (ExpReplay.mem self) e) ob).
Proof.
  intros (W & Hh & Hm). split; [|split]; simpl.
  - apply appended_wf. exact W.
  - exact Hh.
  - exact Hm.
Qed.

Lemma tidy_appended (self : ExpReplay.t Noise) (e : Experience)
    (ob : Frame) :
  ExpReplay.tidy self ->
  ExpReplay.shaped (state_shape (ExpReplay.mem self)) (Experience.state e) ->
  c_long (Experience.action e) = true ->
  ExpReplay.shaped (state_shape (ExpReplay.mem self)) ob ->
  ExpReplay.tidy (ExpReplay.with_mem self (appended (ExpReplay.mem self) e) ob).
Proof.
  intros (_ & Th) Se Ca Sob. split; cbn; [exact Sob|].
  destruct (Experience.isOver e); [constructor|].
  apply Forall_deque_append; [exact Th | split; assumption].
Qed.

(** One step of filling: the invariant, the length and the new slot. *)
Lemma _populate_exp_grows (self self' : ExpReplay.t Noise)
    (w w' : World Env) :
  ExpReplay.consistent self ->
  ExpReplay._populate_exp c self w = (w', Ok self') ->
  ExpReplay.consistent self' /\
  ExpReplay.init_memory_size self' = ExpReplay.init_memory_size self /\
  ExpReplay.update_frequency self' = ExpReplay.update_frequency self /\
  ExpReplay._populate_job_queue self' = ExpReplay._populate_job_queue self /\
  ExpReplay._init_memory_flag self' = ExpReplay._init_memory_flag self /\
  max_size (ExpReplay.mem self') = max_size (ExpReplay.mem self) /\
  __len__ (ExpReplay.mem self')
  = Z.min (__len__ (ExpReplay.mem self) + 1) (max_size (ExpReplay.mem self)) /\
  exists e,
    Experience.state e = ExpReplay._current_ob self /\
    storable (state_shape (ExpReplay.mem self)) e = true /\
    ExpReplay.mem self' = appended (ExpReplay.mem self) e /\
    append (ExpReplay.mem self) e = Ok (ExpReplay.mem self').
Proof.
  intros Hc H. apply _populate_exp_ok in H as (act & r & o & Ha & Hs).
  pose proof Hc as (W & _).
  pose proof Ha as Ha'.
  apply append_inv in Ha' as (Hst & Hm); [|exact W].
  rewrite Hs, Hm. simpl.
  split; [apply consistent_appended; exact Hc|].
  repeat (split; [reflexivity|]).
  eexists. split; [|split; [exact Hst|split; [reflexivity|]]];
    [reflexivity|].
  apply append_ok; assumption.
Qed.

(** With collaborators that do not raise and observations of the
    shape of the slots, a step of filling returns. *)
Lemma _populate_exp_succeeds (self : ExpReplay.t Noise) (w : World Env) :
  ExpReplay.dependable c (state_shape (ExpReplay.mem self)) ->
  shape_2d_or_3d (state_shape (ExpReplay.mem self)) ->
  ExpReplay.consistent self -> ExpReplay.tidy self ->
  exists w' self',
    ExpReplay._populate_exp c self w = (w', Ok self') /\
    ExpReplay.tidy self' /\
    state_shape (ExpReplay.mem self') = state_shape (ExpReplay.mem self).
Proof.
  intros D Hsh Hc Ht. pose proof Hc as (W & _). pose proof Ht as (Tob & Th).
  assert (Fin : forall (w3 : World Env) (act : Z) (q : Q),
            c_long act = true ->
            exists w' self',
              bind (lift (ExpReplay.player_step c act q))
                (fun stepped =>
                   let '(ob, reward, isOver, info) := stepped in
                   bind (if isOver : bool then
                           bind (lift (ExpReplay.feed_score c info)) (fun _ =>
                           bind (lift (ExpReplay.feed_distError c info)) (fun _ =>
                           bind (lift (ExpReplay.player_reset c)) (fun _ =>
                           ret tt)))
                         else ret tt)
                     (fun _ =>
                        bind (of_result
                                (append (ExpReplay.mem self)
                                   (Experience.make
                                      (ExpReplay._current_ob self) act reward
                                      isOver)))
                          (fun m => ret (ExpReplay.with_mem self m ob)))) w3
              = (w', Ok self') /\
              ExpReplay.tidy self' /\
              state_shape (ExpReplay.mem self')
              = state_shape (ExpReplay.mem self)).
  { intros w3 act q Ca.
    destruct (ExpReplay.dep_step D act q (env w3))
      as (e3 & ob & r & o & info & E3 & Sob).
    assert (Hst : storable (state_shape (ExpReplay.mem self))
                    (Experience.make (ExpReplay._current_ob self) act r o)
                  = true)
      by (apply shaped_storable; assumption).
    assert (Tidy : ExpReplay.tidy
                     (ExpReplay.with_mem self
                        (appended (ExpReplay.mem self)
                           (Experience.make (ExpReplay._current_ob self)
                              act r o)) ob))
      by (apply tidy_appended; assumption).
    unfold bind at 1. unfold lift at 1. rewrite E3.
    destruct o.
    - destruct (ExpReplay.dep_feed_score D info e3) as (e4 & E4).
      destruct (ExpReplay.dep_feed_distError D info e4) as (e5 & E5).
      destruct (ExpReplay.dep_reset D e5) as (e6 & ob' & E6 & _).
      unfold bind, lift, of_result, ret. cbn [env log].
      rewrite E4. cbn [env log]. rewrite E5. cbn [env log]. rewrite E6.
      rewrite append_ok by assumption.
      eexists. eexists. split; [reflexivity|]. split; [exact Tidy|].
      reflexivity.
    - unfold bind, lift, of_result, ret.
      rewrite append_ok by assumption.
      eexists. eexists. split; [reflexivity|]. split; [exact Tidy|].
      reflexivity. }
  unfold ExpReplay._populate_exp.
  destruct (ExpReplay.dep_rand D (env w)) as (e1 & x & E1).
  unfold bind at 1. unfold lift at 1. rewrite E1.
  destruct (ExpReplay.noise_le c x (ExpReplay.exploration self)
            || (__len__ (ExpReplay.mem self)
                <=? ExpReplay.history_len self)).
  - destruct (ExpReplay.dep_choice D (ExpReplay.num_actions self) e1)
      as (e2 & act & E2 & Ca).
    unfold bind at 1. unfold bind at 1. unfold lift at 1. cbn [env log].
    rewrite E2. unfold ret at 1.
    apply Fin. exact Ca.
  - assert (Hax : ExpReplay.stack_axis
                    (recent_state (ExpReplay.mem self)
                       ++ [ExpReplay._current_ob self])
                  = Ok (if len (state_shape (ExpReplay.mem self)) =? 3
                        then 3 else 2)).
    { apply stack_axis_same_shape.
      - exact Hsh.
      - destruct (recent_state (ExpReplay.mem self)); discriminate.
      - apply Forall_app. split.
        + apply recent_state_shapes.
          apply Forall_forall. intros e He.
          rewrite Forall_forall in Th. apply (Th e He).
        + repeat constructor. apply Tob. }
    destruct (ExpReplay.dep_predictor D
                (if len (state_shape (ExpReplay.mem self)) =? 3
                 then 3 else 2)
                (recent_state (ExpReplay.mem self)
                   ++ [ExpReplay._current_ob self]) e1) as (e2 & q & E2).
    unfold bind at 1. unfold bind at 1. unfold of_result at 1.
    rewrite Hax. unfold bind at 1. unfold lift at 1. cbn [env log].
    rewrite E2. unfold ret at 1.
    apply Fin. apply (ExpReplay.dep_argmax D).
Qed.

Lemma populate_and_update_ok (self self' : ExpReplay.t Noise)
    (w w' : World Env) :
  ExpReplay.populate_and_update c self w = (w', Ok self') ->
  exists w1, ExpReplay._populate_exp c self w = (w1, Ok self').
Proof.
  unfold ExpReplay.populate_and_update. intros H.
  apply bind_ok in H as (s1 & w1 & H1 & H).
  apply bind_ok in H as (u & w2 & _ & H).
  apply ret_ok in H as (-> & _). eauto.
Qed.

(** The filling loop of [_init_memory] with enough fuel. *)
Lemma filling_loop_finishes (fuel : nat) :
  forall (self : ExpReplay.t Noise) (w : World Env),
    ExpReplay.consistent self ->
    ExpReplay.init_memory_size self <= max_size (ExpReplay.mem self) ->
    (Z.to_nat (ExpReplay.init_memory_size self
               - __len__ (ExpReplay.mem self)) <= fuel)%nat ->
    match snd (while_ fuel
                 (fun s => __len__ (ExpReplay.mem s)
                           <? ExpReplay.init_memory_size s)
                 (ExpReplay.populate_and_update c) self w) with
    | None => False
    | Some (Raise _) => True
    | Some (Ok s') =>
        ExpReplay.consistent s' /\
        ExpReplay._init_memory_flag s' = ExpReplay._init_memory_flag self /\
        __len__ (ExpReplay.mem s')
        = Z.max (__len__ (ExpReplay.mem self))
                (ExpReplay.init_memory_size self)
    end.
Proof.
  induction fuel as [|fuel IH]; intros self w Hc Hcap Hfuel; simpl.
  - destruct (Z.ltb_spec (__len__ (ExpReplay.mem self))
                (ExpReplay.init_memory_size self)); simpl; [lia|].
    repeat split; try apply Hc. lia.
  - destruct (Z.ltb_spec (__len__ (ExpReplay.mem self))
                (ExpReplay.init_memory_size self)) as [Hlt|Hge]; simpl.
    2:{ repeat split; try apply Hc. lia. }
    destruct (ExpReplay.populate_and_update c self w) as [w1 [s1|e]] eqn:B;
      simpl; [|exact I].
    apply populate_and_update_ok in B as (w0 & B).
    destruct (_populate_exp_grows self s1 w w0 Hc B)
      as (Hc1 & Hi & _ & _ & Hf & Hm & Hl & _).
    specialize (IH s1 w1 Hc1 ltac:(lia) ltac:(lia)).
    destruct (snd (while_ fuel _ _ s1 w1)) as [[s'|e]|];
      [|exact I|exact IH].
    destruct IH as (Hc' & Hf' & Hl'). repeat split; try apply Hc'.
    + congruence.
    + lia.
Qed.

(** The same loop with collaborators that do not raise: it returns. *)
Lemma filling_loop_succeeds (fuel : nat) :
  forall (self : ExpReplay.t Noise) (w : World Env),
    ExpReplay.dependable c (state_shape (ExpReplay.mem self)) ->
    shape_2d_or_3d (state_shape (ExpReplay.mem self)) ->
    ExpReplay.consistent self -> ExpReplay.tidy self ->
    ExpReplay.init_memory_size self <= max_size (ExpReplay.mem self) ->
    (Z.to_nat (ExpReplay.init_memory_size self
               - __len__ (ExpReplay.mem self)) <= fuel)%nat ->
    exists s',
      snd (while_ fuel
             (fun s => __len__ (ExpReplay.mem s)
                       <? ExpReplay.init_memory_size s)
             (ExpReplay.populate_and_update c) self w) = Some (Ok s').
Proof.
  induction fuel as [|fuel IH]; intros self w D Hsh Hc Ht Hcap Hfuel; simpl.
  - destruct (Z.ltb_spec (__len__ (ExpReplay.mem self))
                (ExpReplay.init_memory_size self)); simpl; [lia|].
    eexists; reflexivity.
  - destruct (Z.ltb_spec (__len__ (ExpReplay.mem self))
                (ExpReplay.init_memory_size self)) as [Hlt|Hge]; simpl.
    2:{ eexists; reflexivity. }
    destruct (_populate_exp_succeeds self w D Hsh Hc Ht)
      as (w1 & s1 & B & Ht1 & Hs1).
    destruct (_populate_exp_grows self s1 w w1 Hc B)
      as (Hc1 & Hi & _ & _ & Hf & Hm & Hl & _).
    unfold ExpReplay.populate_and_update, bind. rewrite B. cbn.
    apply IH; try assumption; try (rewrite Hs1; assumption); lia.
Qed.

(** The filling loop when the target exceeds the capacity. *)
Lemma filling_loop_never_finishes (fuel : nat) :
  forall (self s' : ExpReplay.t Noise) (w : World Env),
    ExpReplay.consistent self ->
    max_size (ExpReplay.mem self) < ExpReplay.init_memory_size self ->
    snd (while_ fuel
           (fun s => __len__ (ExpReplay.mem s)
                     <? ExpReplay.init_memory_size s)
           (ExpReplay.populate_and_update c) self w) <> Some (Ok s').
Proof.
  induction fuel as [|fuel IH]; intros self s' w Hc Hcap; simpl;
    pose proof (wf_size _ (proj1 Hc)) as Hs; unfold __len__ in *;
    destruct (Z.ltb_spec (_curr_size (ExpReplay.mem self))
                (ExpReplay.init_memory_size self)); try lia; simpl;
    try discriminate.
  destruct (ExpReplay.populate_and_update c self w) as [w1 [s1|e]] eqn:B;
    simpl; [|discriminate].
  apply populate_and_update_ok in B as (w0 & B).
  destruct (_populate_exp_grows self s1 w w0 Hc B)
    as (Hc1 & Hi & _ & _ & _ & Hm & _).
  apply IH; [exact Hc1|]. lia.
Qed.


(** X7.  [_populate_exp] asks the predictor at most one question: the
    stack of the recent states followed by the current observation,
    [history_len] frames in all.  While the memory holds no more than
    [history_len] transitions it does not ask at all: with any other
    predictor the call does the same. *)
Theorem X7_populate_exp_consults_the_predictor_on_the_history_only
    (self : ExpReplay.t Noise) (w : World Env)
    (p : Z -> list Frame -> op Env Q) :
  ExpReplay.consistent self ->
  (ExpReplay.history_len self < __len__ (ExpReplay.mem self) ->
   forall axis env,
     p axis (recent_state (ExpReplay.mem self)
               ++ [ExpReplay._current_ob self]) env
     = ExpReplay.predictor c axis
         (recent_state (ExpReplay.mem self)
            ++ [ExpReplay._current_ob self]) env) ->
  ExpReplay._populate_exp (ExpReplay.with_predictor c p) self w
  = ExpReplay._populate_exp c self w /\
  len (recent_state (ExpReplay.mem self) ++ [ExpReplay._current_ob self])
  = ExpReplay.history_len self.
Proof.
  intros (W & Hh & _) Hp. split.
  - unfold ExpReplay._populate_exp, bind. simpl.
    destruct (lift (ExpReplay.rng_rand c) w) as [w1 [x|e]]; [|reflexivity].
    destruct (ExpReplay.noise_le c x (ExpReplay.exploration self)
              || (__len__ (ExpReplay.mem self)
                  <=? ExpReplay.history_len self)) eqn:Cold;
      [reflexivity|].
    apply orb_false_iff in Cold as (_ & Hlen). apply Z.leb_gt in Hlen.
    unfold of_result.
    destruct (ExpReplay.stack_axis
                (recent_state (ExpReplay.mem self)
                   ++ [ExpReplay._current_ob self]))
      as [axis|e]; [|reflexivity].
    unfold lift. rewrite (Hp Hlen axis (env w1)). reflexivity.
  - unfold len. rewrite length_app. simpl.
    pose proof (recent_state_length _ W) as L. unfold len in L. lia.
Qed.

Lemma _init_memory_finishes (self : ExpReplay.t Noise) (w : World Env)
    (fuel : nat) :
  ExpReplay.consistent self ->
  ExpReplay.init_memory_size self <= ExpReplay.memory_size self ->
  (Z.to_nat (ExpReplay.init_memory_size self
             - __len__ (ExpReplay.mem self)) <= fuel)%nat ->
  match snd (ExpReplay._init_memory c fuel self w) with
  | None => False
  | Some (Raise _) => True
  | Some (Ok self') =>
      ExpReplay.consistent self' /\
      ExpReplay._init_memory_flag self' = true /\
      __len__ (ExpReplay.mem self')
      = Z.max (__len__ (ExpReplay.mem self)) (ExpReplay.init_memory_size self)
  end.
Proof.
  intros Hc Hcap Hfuel.
  pose proof Hc as (_ & _ & Hm). rewrite Hm in Hcap.
  unfold ExpReplay._init_memory, lbind, returns, ExpReplay.with_pbar.
  simpl.
  pose proof (filling_loop_finishes fuel self
                (fst (ExpReplay.tell c (Pbar_open (ExpReplay.init_memory_size self))
                        (fst (ExpReplay.tell c
                                (Populating (ExpReplay.exploration self)) w))))
                Hc Hcap Hfuel) as F.
  simpl in F.
  destruct (while_ fuel _ _ self _) as [w1 [[s'|e]|]]; simpl in *;
    [|exact I|exact F].
  destruct F as (Hc' & _ & Hl). split; [exact Hc'|]. split; [reflexivity|].
  exact Hl.
Qed.

Lemma _init_memory_succeeds (self : ExpReplay.t Noise) (w : World Env)
    (fuel : nat) :
  ExpReplay.dependable c (state_shape (ExpReplay.mem self)) ->
  shape_2d_or_3d (state_shape (ExpReplay.mem self)) ->
  ExpReplay.consistent self -> ExpReplay.tidy self ->
  ExpReplay.init_memory_size self <= ExpReplay.memory_size self ->
  (Z.to_nat (ExpReplay.init_memory_size self
             - __len__ (ExpReplay.mem self)) <= fuel)%nat ->
  exists self',
    snd (ExpReplay._init_memory c fuel self w) = Some (Ok self').
Proof.
  intros D Hsh Hc Ht Hcap Hfuel.
  pose proof Hc as (_ & _ & Hm). rewrite Hm in Hcap.
  unfold ExpReplay._init_memory, lbind, returns, ExpReplay.with_pbar.
  simpl.
  destruct (filling_loop_succeeds fuel self
              (fst (ExpReplay.tell c (Pbar_open (ExpReplay.init_memory_size self))
                      (fst (ExpReplay.tell c
                              (Populating (ExpReplay.exploration self)) w))))
              D Hsh Hc Ht Hcap Hfuel) as (s' & F).
  simpl in F.
  destruct (while_ fuel _ _ self _) as [w1 r]. simpl in F. subst r.
  simpl. eexists. reflexivity.
Qed.

(** X8.  [_init_memory] with a target within the capacity comes to an
    end after at most [init_memory_size - len] turns of its loop: it
    does not go on for ever, and when it returns the memory is filled
    to [max len init_memory_size] and the flag is set.  It does
    return when nothing it calls raises: the collaborators return,
    the actions fit a C long, and the observations (the current one,
    those of the recent transitions, those the player returns) are
    arrays of the shape of the slots, with two or three axes. *)
Theorem X8_init_memory_fills_the_memory_and_sets_the_flag
    (self : ExpReplay.t Noise) (w : World Env) (fuel : nat) :
  ExpReplay.consistent self ->
  ExpReplay.init_memory_size self <= ExpReplay.memory_size self ->
  (Z.to_nat (ExpReplay.init_memory_size self
             - __len__ (ExpReplay.mem self)) <= fuel)%nat ->
  snd (ExpReplay._init_memory c fuel self w) <> None /\
  (forall self',
     snd (ExpReplay._init_memory c fuel self w) = Some (Ok self') ->
     ExpReplay.consistent self' /\
     ExpReplay._init_memory_flag self' = true /\
     __len__ (ExpReplay.mem self')
     = Z.max (__len__ (ExpReplay.mem self))
         (ExpReplay.init_memory_size self)) /\
  (ExpReplay.dependable c (state_shape (ExpReplay.mem self)) ->
   shape_2d_or_3d (state_shape (ExpReplay.mem self)) ->
   ExpReplay.tidy self ->
   exists self',
     snd (ExpReplay._init_memory c fuel self w) = Some (Ok self') /\
     ExpReplay._init_memory_flag self' = true /\
     __len__ (ExpReplay.mem self')
     = Z.max (__len__ (ExpReplay.mem self))
         (ExpReplay.init_memory_size self)).
Proof.
  intros Hc Hcap Hfuel.
  pose proof (_init_memory_finishes self w fuel Hc Hcap Hfuel) as F.
  split; [|split].
  - intros E. rewrite E in F. exact F.
  - intros self' E. rewrite E in F. exact F.
  - intros D Hsh Ht.
    destruct (_init_memory_succeeds self w fuel D Hsh Hc Ht Hcap Hfuel)
      as (self' & E).
    exists self'. split; [exact E|]. rewrite E in F. apply F.
Qed.

(** X9.  [_init_memory] with a target above the capacity never
    returns normally, whatever the number of turns: the length stops
    at the capacity and the loop goes on (or a collaborator raises);
    the flag [get_data] waits for is never set. *)
Theorem X9_init_memory_above_capacity_never_returns
    (self self' : ExpReplay.t Noise) (w : World Env) (fuel : nat) :
  ExpReplay.consistent self ->
  ExpReplay.memory_size self < ExpReplay.init_memory_size self ->
  snd (ExpReplay._init_memory c fuel self w) <> Some (Ok self').
Proof.
  intros Hc Hcap.
  pose proof Hc as (_ & _ & Hm). rewrite Hm in Hcap.
  unfold ExpReplay._init_memory, lbind, returns, ExpReplay.with_pbar.
  simpl.
  pose proof (fun s' =>
    filling_loop_never_finishes fuel self s'
      (fst (ExpReplay.tell c (Pbar_open (ExpReplay.init_memory_size self))
              (fst (ExpReplay.tell c
                      (Populating (ExpReplay.exploration self)) w))))
      Hc Hcap) as F.
  simpl in F.
  destruct (while_ fuel _ _ self _) as [w1 [[s1|e]|]]; simpl in *;
    try discriminate.
  exfalso. apply (F s1). reflexivity.
Qed.

(** [n] turns of [_populate_exp] append [n] transitions. *)
Lemma for_range_populate (n : nat) :
  forall (self self' : ExpReplay.t Noise) (w w' : World Env),
    ExpReplay.consistent self ->
    for_range n (ExpReplay._populate_exp c) self w = (w', Ok self') ->
    ExpReplay.consistent self' /\
    ExpReplay._populate_job_queue self' = ExpReplay._populate_job_queue self /\
    exists more,
      length more = n /\
      appends (ExpReplay.mem self) more = Ok (ExpReplay.mem self').
Proof.
  induction n as [|n IH]; intros self self' w w' Hc H; simpl in H.
  - apply ret_ok in H as (-> & _). repeat split; try apply Hc.
    exists []. split; reflexivity.
  - apply bind_ok in H as (s1 & w1 & H1 & H).
    destruct (_populate_exp_grows self s1 w w1 Hc H1)
      as (Hc1 & _ & _ & Hq & _ & _ & _ & e & _ & _ & _ & Ha).
    destruct (IH s1 self' w1 w' Hc1 H) as (Hc' & Hq' & more & Hn & Hm).
    split; [exact Hc'|]. split; [congruence|].
    exists (e :: more). split; [simpl; congruence|].
    simpl. rewrite Ha. simpl. exact Hm.
Qed.

(** With collaborators that do not raise, [n] turns return. *)
Lemma for_range_succeeds (n : nat) :
  forall (self : ExpReplay.t Noise) (w : World Env),
    ExpReplay.dependable c (state_shape (ExpReplay.mem self)) ->
    shape_2d_or_3d (state_shape (ExpReplay.mem self)) ->
    ExpReplay.consistent self -> ExpReplay.tidy self ->
    exists w' self',
      for_range n (ExpReplay._populate_exp c) self w = (w', Ok self').
Proof.
  induction n as [|n IH]; intros self w D Hsh Hc Ht; simpl.
  - eexists. eexists. reflexivity.
  - destruct (_populate_exp_succeeds self w D Hsh Hc Ht)
      as (w1 & s1 & B & Ht1 & Hs1).
    destruct (_populate_exp_grows self s1 w w1 Hc B) as (Hc1 & _).
    unfold bind. rewrite B.
    apply IH; try assumption; rewrite Hs1; assumption.
Qed.

(** X10.  One job of the simulator thread blocks on an empty queue.
    Once it has its token it comes to an end, and when it returns it
    has appended exactly [update_frequency] transitions (none when
    [update_frequency <= 0]) and taken one token from the queue.  It
    does return when nothing it calls raises: the collaborators
    return, the actions fit a C long, and the observations are arrays
    of the shape of the slots, with two or three axes. *)
Theorem X10_populate_job_appends_update_frequency_transitions
    (self : ExpReplay.t Noise) (w : World Env) :
  ExpReplay.consistent self ->
  (ExpReplay._populate_job_queue self <= 0 ->
   snd (ExpReplay.populate_job_func c self w) = None) /\
  (0 < ExpReplay._populate_job_queue self ->
   (exists r,
      snd (ExpReplay.populate_job_func c self w) = Some r /\
      forall self', r = Ok self' ->
        ExpReplay.consistent self' /\
        ExpReplay._populate_job_queue self'
        = ExpReplay._populate_job_queue self - 1 /\
        exists more,
          len more = Z.max 0 (ExpReplay.update_frequency self) /\
          appends (ExpReplay.mem self) more = Ok (ExpReplay.mem self')) /\
   (ExpReplay.dependable c (state_shape (ExpReplay.mem self)) ->
    shape_2d_or_3d (state_shape (ExpReplay.mem self)) ->
    ExpReplay.tidy self ->
    exists self' more,
      snd (ExpReplay.populate_job_func c self w) = Some (Ok self') /\
      ExpReplay._populate_job_queue self'
      = ExpReplay._populate_job_queue self - 1 /\
      len more = Z.max 0 (ExpReplay.update_frequency self) /\
      appends (ExpReplay.mem self) more = Ok (ExpReplay.mem self'))).
Proof.
  intros Hc. unfold ExpReplay.populate_job_func. split; intros Hq.
  - destruct (Z.leb_spec (ExpReplay._populate_job_queue self) 0);
      [reflexivity | lia].
  - destruct (Z.leb_spec (ExpReplay._populate_job_queue self) 0); [lia|].
    unfold returns.
    assert (Hc0 : ExpReplay.consistent
                    (ExpReplay.with_queue self
                       (ExpReplay._populate_job_queue self - 1))).
    { destruct Hc as (W & Hh & Hm).
      split; [exact W | split; [exact Hh | exact Hm]]. }
    split.
    + destruct (for_range _ _ _ w) as [w' r] eqn:F. simpl.
      exists r. split; [reflexivity|]. intros self' ->.
      apply for_range_populate in F as (Hc' & Hq' & more & Hn & Hm);
        [|exact Hc0].
      split; [exact Hc'|]. split; [exact Hq'|].
      exists more. split; [unfold len; lia | exact Hm].
    + intros D Hsh Ht.
      destruct (for_range_succeeds
                  (Z.to_nat (ExpReplay.update_frequency self))
                  (ExpReplay.with_queue self
                     (ExpReplay._populate_job_queue self - 1)) w
                  D Hsh Hc0 Ht) as (w' & self' & F).
      rewrite F. simpl.
      apply for_range_populate in F as (Hc' & Hq' & more & Hn & Hm);
        [|exact Hc0].
      exists self', more. split; [reflexivity|]. split; [exact Hq'|].
      split; [unfold len; lia | exact Hm].
Qed.

(** The second loop of [_fake_init_memory] on a non-empty queue of
    recent transitions. *)
Lemma fake_loop_finishes (fuel : nat) :
  forall (self : ExpReplay.t Noise) (w : World Env),
    ExpReplay.consistent self ->
    Forall (fun e => storable (state_shape (ExpReplay.mem self)) e = true)
      (items (_hist (ExpReplay.mem self))) ->
    items (_hist (ExpReplay.mem self)) <> [] ->
    ExpReplay.init_memory_size self <= max_size (ExpReplay.mem self) ->
    (Z.to_nat (ExpReplay.init_memory_size self
               - __len__ (ExpReplay.mem self)) <= fuel)%nat ->
    exists s',
      snd (while_ fuel
             (fun s => __len__ (ExpReplay.mem s)
                       <? ExpReplay.init_memory_size s)
             (ExpReplay.append_oldest_recent c) self w) = Some (Ok s') /\
      ExpReplay.consistent s' /\
      __len__ (ExpReplay.mem s')
      = Z.max (__len__ (ExpReplay.mem self))
              (ExpReplay.init_memory_size self) /\
      exists more,
        Forall live more /\
        appends (ExpReplay.mem self) more = Ok (ExpReplay.mem s').
Proof.
  induction fuel as [|fuel IH]; intros self w Hc Hst Hne Hcap Hfuel; simpl.
  - destruct (Z.ltb_spec (__len__ (ExpReplay.mem self))
                (ExpReplay.init_memory_size self)); simpl; [lia|].
    exists self. repeat split; try apply Hc; try lia.
    exists []. split; [constructor | reflexivity].
  - destruct (Z.ltb_spec (__len__ (ExpReplay.mem self))
                (ExpReplay.init_memory_size self)) as [Hlt|Hge]; simpl.
    2:{ exists self. repeat split; try apply Hc; try lia.
        exists []. split; [constructor | reflexivity]. }
    pose proof Hc as (W & Hh & Hm).
    destruct (items (_hist (ExpReplay.mem self))) as [|e rest] eqn:Hi;
      [contradiction|].
    assert (Hlive : live e).
    { pose proof (wf_hist_live _ W) as F. rewrite Hi in F.
      inversion F; assumption. }
    assert (He : storable (state_shape (ExpReplay.mem self)) e = true)
      by (inversion Hst; assumption).
    unfold ExpReplay.append_oldest_recent, bind, of_result at 1.
    rewrite Hi. unfold getitem. simpl.
    unfold of_result. rewrite append_ok by assumption. simpl.
    set (s1 := ExpReplay.with_mem self (appended (ExpReplay.mem self) e)
                 (ExpReplay._current_ob self)).
    assert (Hc1 : ExpReplay.consistent s1)
      by (apply consistent_appended; exact Hc).
    assert (Hst1 : Forall
                     (fun e => storable (state_shape (ExpReplay.mem s1)) e
                               = true)
                     (items (_hist (ExpReplay.mem s1)))).
    { unfold s1. cbn. rewrite Hlive.
      apply Forall_deque_append; [rewrite Hi; exact Hst | exact He]. }
    assert (Hne1 : items (_hist (ExpReplay.mem s1)) <> []).
    { unfold s1. simpl. rewrite Hlive. unfold deque_append. simpl.
      rewrite Hi. simpl.
      destruct (maxlen (_hist (ExpReplay.mem self))
                <? len (e :: rest ++ [e])); simpl.
      - destruct rest; simpl; discriminate.
      - discriminate. }
    assert (Hl1 : __len__ (ExpReplay.mem s1)
                  = __len__ (ExpReplay.mem self) + 1).
    { unfold s1, __len__ in *. simpl. lia. }
    assert (Hf1 : (Z.to_nat (ExpReplay.init_memory_size s1
                             - __len__ (ExpReplay.mem s1)) <= fuel)%nat).
    { rewrite Hl1.
      change (ExpReplay.init_memory_size s1)
        with (ExpReplay.init_memory_size self). lia. }
    destruct (IH s1 (fst (ExpReplay.tell c Pbar_update w)) Hc1 Hst1 Hne1
                ltac:(exact Hcap) Hf1)
      as (s' & E & Hc' & Hl' & more & Fm & Am).
    exists s'. split; [exact E|]. split; [exact Hc'|].
    split; [change (ExpReplay.init_memory_size s1)
              with (ExpReplay.init_memory_size self) in Hl'; lia|].
    exists (e :: more). split; [constructor; assumption|].
    simpl. rewrite append_ok by assumption. simpl. exact Am.
Qed.

(** X11.  [_fake_init_memory] on a memory that already holds five
    transitions fills it with copies of the oldest recent transition.
    When the queue of recent transitions is empty (the last transition
    ended an episode, or [history_len] is 1) and the memory is below
    its target, it raises [IndexError]; otherwise it returns with the
    memory filled to [max len init_memory_size] by non-terminal
    transitions and the flag set.  (The recent transitions are
    transitions the arrays accepted when they were appended.) *)
Theorem X11_fake_init_memory_needs_a_recent_transition
    (self : ExpReplay.t Noise) (w : World Env) (fuel : nat) :
  ExpReplay.consistent self ->
  Forall (fun e => storable (state_shape (ExpReplay.mem self)) e = true)
    (items (_hist (ExpReplay.mem self))) ->
  5 <= __len__ (ExpReplay.mem self) ->
  ExpReplay.init_memory_size self <= ExpReplay.memory_size self ->
  (Z.to_nat (ExpReplay.init_memory_size self
             - __len__ (ExpReplay.mem self)) <= fuel)%nat ->
  (items (_hist (ExpReplay.mem self)) = [] ->
   __len__ (ExpReplay.mem self) < ExpReplay.init_memory_size self ->
   snd (ExpReplay._fake_init_memory c fuel self w) = Some (Raise IndexError)) /\
  (items (_hist (ExpReplay.mem self)) <> [] ->
   exists self',
     snd (ExpReplay._fake_init_memory c fuel self w) = Some (Ok self') /\
     ExpReplay._init_memory_flag self' = true /\
     __len__ (ExpReplay.mem self')
     = Z.max (__len__ (ExpReplay.mem self)) (ExpReplay.init_memory_size self) /\
     exists more,
       Forall live more /\
       appends (ExpReplay.mem self) more = Ok (ExpReplay.mem self')).
Proof.
  intros Hc Hst H5 Hcap Hfuel.
  pose proof Hc as (W & _ & Hm). rewrite Hm in Hcap.
  assert (First : forall w0,
            while_ fuel (fun s => __len__ (ExpReplay.mem s) <? 5)
              (ExpReplay.populate_and_update c) self w0
            = (w0, Some (Ok self))).
  { intros w0. destruct fuel; simpl;
      destruct (Z.ltb_spec (__len__ (ExpReplay.mem self)) 5);
      try lia; reflexivity. }
  unfold ExpReplay._fake_init_memory, lbind, returns, ExpReplay.with_pbar.
  rewrite First. split.
  - intros Hempty Hlt.
    destruct fuel as [|fuel]; [lia|]. simpl.
    destruct (Z.ltb_spec (__len__ (ExpReplay.mem self))
                (ExpReplay.init_memory_size self)); [|lia].
    unfold ExpReplay.append_oldest_recent, bind, of_result at 1.
    rewrite Hempty. reflexivity.
  - intros Hne.
    destruct (fake_loop_finishes fuel self
                (fst (ExpReplay.tell c
                        (Pbar_open (ExpReplay.init_memory_size self)) w))
                Hc Hst Hne Hcap Hfuel)
      as (s' & E & Hc' & Hl & more & Fm & Am).
    destruct (while_ fuel _ (ExpReplay.append_oldest_recent c) self _)
      as [w1 r]. simpl in E. subst r. simpl.
    eexists. split; [reflexivity|]. simpl.
    split; [reflexivity|]. split; [exact Hl|].
    exists more. split; assumption.
Qed.

End ExpReplayFacts.

(** ** ExpReplay: reading batches *)

(** [sample] in the valid region, in terms of the appends. *)
Lemma sample_chrono (exps : list Experience) (m : t) (li : Z) :
  wf m -> ring_inv exps m -> shape_2d_or_3d (state_shape m) ->
  0 <= li -> li + (history_len m + 1) <= _curr_size m ->
  exists st e,
    nth_error exps
      (Z.to_nat (window_start (max_size m) exps li + (history_len m - 1)))
    = Some e /\
    sample m li
    = Ok (m, (st, Experience.reward (as_stored (state_shape m) e),
              Experience.action (as_stored (state_shape m) e),
              Experience.isOver e)) /\
    len (frames m (base st)) = history_len m + 1.
Proof.
  intros W R Hsh Hli Hin.
  pose proof (safe_range_fits exps m li W R Hli Hin) as Hw.
  pose proof (wf_hl m W). pose proof (wf_size m W).
  destruct (sample_padding_spec m li W Hsh ltac:(lia) Hw)
    as (st & r & a & o & Es & Nr & Na & No & Lf & _).
  destruct (chrono_stored exps m li (history_len m - 1) W R Hli Hin
              ltac:(lia)) as (e & Ne & _ & Fr & Fa & Fo).
  exists st, e. split; [exact Ne|]. split; [|exact Lf].
  rewrite Es. repeat f_equal; congruence.
Qed.

Lemma Forall2_Forall_r {A B : Type} (P : A -> B -> Prop) (Q : B -> Prop)
    (l : list A) (r : list B) :
  Forall2 P l r -> (forall a b, In a l -> P a b -> Q b) -> Forall Q r.
Proof.
  intros F H. induction F as [|a b l r Hab _ IH]; constructor.
  - apply (H a b); [left; reflexivity | exact Hab].
  - apply IH. intros a' b' Ha'. apply H. right; exact Ha'.
Qed.

Lemma Forall2_nth_l {A B : Type} (P : A -> B -> Prop)
    (l : list A) (r : list B) (j : nat) (a : A) :
  Forall2 P l r -> nth_error l j = Some a ->
  exists b, nth_error r j = Some b /\ P a b.
Proof.
  intros F. revert j. induction F as [|a0 b0 l r Hab _ IH]; intros j N.
  - destruct j; discriminate.
  - destruct j as [|j]; simpl in *.
    + injection N as <-. eauto.
    + apply IH. exact N.
Qed.

Lemma sample_all_spec (m : t) (idx : list Z) :
  (forall i, In i idx -> exists x, sample m i = Ok (m, x)) ->
  exists es,
    ExpReplay.sample_all m idx = Ok (m, es) /\
    Forall2 (fun i x => sample m i = Ok (m, x)) idx es.
Proof.
  induction idx as [|i rest IH]; intros H; simpl.
  - exists []. split; [reflexivity | constructor].
  - destruct (H i (or_introl eq_refl)) as (x & Hx).
    destruct IH as (es & Es & F).
    { intros j Hj. apply H. right. exact Hj. }
    rewrite Hx. simpl. rewrite Es. simpl.
    exists (x :: es). split; [reflexivity|]. constructor; assumption.
Qed.

(** [_process_batch] on windows of one length. *)
Lemma _process_batch_spec (m : t) (k : Z)
    (es : list (stacked * float32 * Z * bool)) :
  Forall (fun x => len (frames m (base (fst (fst (fst x))))) = k) es ->
  exists b,
    ExpReplay._process_batch m es = Ok b /\
    forall j st r a o,
      nth_error es j = Some (st, r, a, o) ->
      nth_error (ExpReplay.b_state b) j
      = Some (mkStacked (Own (frames m (base st))) (axes st)) /\
      nth_error (ExpReplay.b_action b) j = Some (astype_int8 a) /\
      nth_error (ExpReplay.b_reward b) j = Some r /\
      nth_error (ExpReplay.b_isOver b) j = Some o.
Proof.
  intros F. unfold ExpReplay._process_batch.
  assert (Same :
    match map (fun e => frames m (base (fst (fst (fst e))))) es with
    | [] => true
    | w0 :: ws => forallb (fun w => len w =? len w0) ws
    end = true).
  { destruct es as [|x es]; simpl; [reflexivity|].
    inversion F as [|? ? Hx Hes]; subst.
    apply forallb_forall. intros w Hw. apply in_map_iff in Hw.
    destruct Hw as (y & <- & Hy).
    rewrite Forall_forall in Hes. rewrite (Hes y Hy). apply Z.eqb_refl. }
  rewrite Same. eexists. split; [reflexivity|].
  intros j st r a o N. simpl.
  rewrite !nth_error_map, N. simpl. repeat split.
Qed.

Section GetData.

Context {Noise Q Info Env : Type}
        (c : ExpReplay.Collaborators Noise Q Info Env).


End GetData.

(** ** dataReader.py: reading the lists of files *)

Lemma file_lines_one_line (n rest : string) :
  newline_free n = true ->
  file_lines (n ++ String newline rest)
  = (n ++ String newline EmptyString)%string :: file_lines rest.
Proof.
  induction n as [|ch n IH]; intros H; cbn [String.append file_lines before_newline newline_free] in *.
  - rewrite Ascii.eqb_refl. reflexivity.
  - apply andb_true_iff in H as (Hch & Hn).
    apply negb_true_iff in Hch. rewrite Hch, (IH Hn). reflexivity.
Qed.

Lemma before_newline_line (n : string) :
  newline_free n = true ->
  before_newline (n ++ String newline EmptyString) = n.
Proof.
  induction n as [|ch n IH]; intros H; cbn [String.append file_lines before_newline newline_free] in *.
  - rewrite Ascii.eqb_refl. reflexivity.
  - apply andb_true_iff in H as (Hch & Hn).
    apply negb_true_iff in Hch. rewrite Hch, (IH Hn). reflexivity.
Qed.

Lemma before_newline_free (n : string) :
  newline_free n = true -> before_newline n = n.
Proof.
  induction n as [|ch n IH]; intros H; cbn [String.append file_lines before_newline newline_free] in *; [reflexivity|].
  apply andb_true_iff in H as (Hch & Hn).
  apply negb_true_iff in Hch. rewrite Hch, (IH Hn). reflexivity.
Qed.

Lemma file_lines_last (n : string) :
  newline_free n = true -> n <> EmptyString -> file_lines n = [n].
Proof.
  induction n as [|ch n IH]; intros H Hne; cbn [String.append file_lines before_newline newline_free] in *; [contradiction|].
  apply andb_true_iff in H as (Hch & Hn).
  apply negb_true_iff in Hch. rewrite Hch.
  destruct n as [|ch' n']; [reflexivity|].
  rewrite (IH Hn) by discriminate. reflexivity.
Qed.

Lemma string_app_assoc (a b d : string) :
  ((a ++ b) ++ d = a ++ (b ++ d))%string.
Proof.
  induction a as [|ch a IH]; cbn [String.append]; [reflexivity|].
  rewrite IH. reflexivity.
Qed.

(** Reading back a list of names written one per line, with or
    without a last line that lacks its newline. *)
Lemma read_names (names : list string) (last : string) :
  Forall (fun n => newline_free n = true) names ->
  newline_free last = true ->
  map before_newline (file_lines (unlines names ++ last))
  = names ++ (if String.eqb last EmptyString then [] else [last]).
Proof.
  intros F Hl. induction F as [|n names Hn _ IH]; cbn [unlines app].
  - change (EmptyString ++ last)%string with last.
    destruct last as [|ch l]; [reflexivity|].
    rewrite file_lines_last by (assumption || discriminate).
    cbn [map]. rewrite before_newline_free by assumption. reflexivity.
  - rewrite string_app_assoc.
    change ((String newline (unlines names)) ++ last)%string
      with (String newline (unlines names ++ last)).
    rewrite file_lines_one_line by assumption. cbn [map].
    rewrite before_newline_line by assumption. rewrite IH. reflexivity.
Qed.

Lemma rbind_ok {A B : Type} (r : result A) (k : A -> result B) (b : B) :
  rbind r k = Ok b -> exists a, r = Ok a /\ k a = Ok b.
Proof. destruct r as [a|e]; simpl; [eauto | discriminate]. Qed.

Lemma arange_seq (n : nat) :
  filesListBrainMRLandmark.arange (Z.of_nat n) = map Z.of_nat (seq 0 n).
Proof. unfold filesListBrainMRLandmark.arange. rewrite Nat2Z.id. reflexivity. Qed.

Lemma getitem_of_nat {A : Type} (l : list A) (i : nat) :
  (i < length l)%nat ->
  exists x, nth_error l i = Some x /\ getitem l (Z.of_nat i) = Ok x.
Proof.
  intros H. destruct (getitem_in_range l (Z.of_nat i)) as (x & N & G).
  - unfold len. lia.
  - rewrite Nat2Z.id in N. eauto.
Qed.

Lemma getitem_head {A : Type} (x : A) (l : list A) :
  getitem (x :: l) 0 = Ok x.
Proof.
  destruct (getitem_in_range (x :: l) 0) as (y & N & G).
  - unfold len. simpl. lia.
  - simpl in N. injection N as <-. exact G.
Qed.

Lemma getitem_second {A : Type} (x y : A) (l : list A) :
  getitem (x :: y :: l) 1 = Ok y.
Proof.
  destruct (getitem_in_range (x :: y :: l) 1) as (z & N & G).
  - unfold len. simpl. lia.
  - simpl in N. injection N as <-. exact G.
Qed.

(** X13.  [filesListBrainMRLandmark.__init__] reads back the names
    written one per line in the files it is given, whether or not the
    last line has its newline; with landmarks it builds the object
    exactly when both lists have the same number of names and fails
    its assertion otherwise. *)
Theorem X13_files_list_reads_back_the_names
    (fs : Files) (f0 f1 : string) (more names lnames : list string)
    (last llast : string) (fid : Z) :
  Forall (fun n => newline_free n = true) names ->
  Forall (fun n => newline_free n = true) lnames ->
  newline_free last = true -> newline_free llast = true ->
  fs f0 = Some (unlines names ++ last)%string ->
  fs f1 = Some (unlines lnames ++ llast)%string ->
  let images := names ++ (if String.eqb last EmptyString then [] else [last]) in
  let landmarks :=
    lnames ++ (if String.eqb llast EmptyString then [] else [llast]) in
  filesListBrainMRLandmark.__init__ fs (Some (f0 :: f1 :: more)) false fid
  = Ok (filesListBrainMRLandmark.make images false fid None) /\
  filesListBrainMRLandmark.__init__ fs (Some (f0 :: f1 :: more)) true fid
  = if len images =? len landmarks
    then Ok (filesListBrainMRLandmark.make images true fid (Some landmarks))
    else Raise AssertionError.
Proof.
  intros Fn Fl Hl Hll H0 H1 images landmarks.
  unfold filesListBrainMRLandmark.__init__, open_.
  rewrite getitem_head, getitem_second. cbn [rbind].
  rewrite H0, H1. cbn [rbind].
  rewrite !read_names by assumption. fold images landmarks.
  split; reflexivity.
Qed.

(** X14.  An object built with landmarks has as many landmark files
    as image files, so that every index [sample_circular] visits is an
    index of both lists. *)
Theorem X14_files_list_indices_are_in_both_lists
    (fs : Files) (files_list : option (list string)) (fid : Z)
    (self : filesListBrainMRLandmark.t) (idx : Z) :
  filesListBrainMRLandmark.__init__ fs files_list true fid = Ok self ->
  In idx (filesListBrainMRLandmark.arange
            (filesListBrainMRLandmark.num_files self)) ->
  exists l image landmark,
    filesListBrainMRLandmark.landmark_files self = Some l /\
    len l = filesListBrainMRLandmark.num_files self /\
    getitem (filesListBrainMRLandmark.image_files self) idx = Ok image /\
    getitem l idx = Ok landmark.
Proof.
  unfold filesListBrainMRLandmark.__init__. intros H Hin.
  destruct files_list as [[|f0 names]|]; try discriminate.
  apply rbind_ok in H as (n0 & _ & H).
  apply rbind_ok in H as (c0 & _ & H). simpl in H.
  apply rbind_ok in H as (n1 & _ & H).
  apply rbind_ok in H as (c1 & _ & H).
  destruct (Z.eqb_spec (len (map before_newline (file_lines c0)))
              (len (map before_newline (file_lines c1)))) as [E|E];
    [|discriminate].
  injection H as <-. unfold filesListBrainMRLandmark.num_files in *.
  simpl in *.
  unfold filesListBrainMRLandmark.arange in Hin.
  apply in_map_iff in Hin as (i & <- & Hi). apply in_seq in Hi.
  destruct (getitem_in_range (map before_newline (file_lines c0))
              (Z.of_nat i)) as (x & _ & Gx); [lia|].
  destruct (getitem_in_range (map before_newline (file_lines c1))
              (Z.of_nat i)) as (y & _ & Gy); [lia|].
  eexists _, x, y. split; [reflexivity|]. split; [symmetry; exact E|].
  split; assumption.
Qed.

Section SampleCircularFacts.

Context {Sitk Image Point Landmark Spacing : Type}
        (im : Imaging Sitk Image Point Landmark Spacing).

Lemma yield_for_name (self : filesListBrainMRLandmark.t) (idx : Z)
    (image : Image) (lm : option Landmark) (name : string) (sp : Spacing) :
  filesListBrainMRLandmark.yield_for im self idx = Ok (image, lm, name, sp) ->
  getitem (filesListBrainMRLandmark.image_files self) idx = Ok name.
Proof.
  unfold filesListBrainMRLandmark.yield_for. intros H.
  apply rbind_ok in H as (n0 & _ & H).
  apply rbind_ok in H as ([s i] & _ & H).
  apply rbind_ok in H as (l & _ & H).
  apply rbind_ok in H as (n1 & G & H).
  injection H as _ _ <- _. exact G.
Qed.

(** The generator from position [a] of a pass over [n] files. *)
Lemma take_from (self : filesListBrainMRLandmark.t) (n fuel : nat) :
  (0 < n)%nat ->
  filesListBrainMRLandmark.num_files self = Z.of_nat n ->
  (forall i, (i < n)%nat ->
     exists item, filesListBrainMRLandmark.yield_for im self (Z.of_nat i)
                  = Ok item) ->
  forall k a, (a <= n)%nat ->
    exists items,
      filesListBrainMRLandmark.take im k (S fuel) self
        (filesListBrainMRLandmark.Running (map Z.of_nat (seq a (n - a))))
      = Some (Ok items) /\
      length items = k /\
      forall j item, nth_error items j = Some item ->
        filesListBrainMRLandmark.yield_for im self
          (Z.of_nat ((a + j) mod n)) = Ok item.
Proof.
  intros Hn Hnum Hy. induction k as [|k IH]; intros a Ha.
  - exists []. split; [reflexivity|]. split; [reflexivity|].
    intros j item N. destruct j; discriminate.
  - assert (Step : forall b, (b < n)%nat ->
              exists item items,
                filesListBrainMRLandmark.yield_for im self (Z.of_nat b)
                = Ok item /\
                filesListBrainMRLandmark.take im k (S fuel) self
                  (filesListBrainMRLandmark.Running
                     (map Z.of_nat (seq (S b) (n - S b))))
                = Some (Ok items) /\
                length items = k /\
                forall j it, nth_error items j = Some it ->
                  filesListBrainMRLandmark.yield_for im self
                    (Z.of_nat ((S b + j) mod n)) = Ok it).
    { intros b Hb. destruct (Hy b Hb) as (item & Y).
      destruct (IH (S b) ltac:(lia)) as (items & T & L & N).
      exists item, items. auto. }
    destruct (Nat.eq_dec a n) as [->|Hlt].
    + destruct (Step 0%nat Hn) as (item & items & Y & T & L & N).
      rewrite Nat.sub_diag. cbn [seq map filesListBrainMRLandmark.take
        filesListBrainMRLandmark.next filesListBrainMRLandmark.resume].
      rewrite Hnum, arange_seq.
      assert (Hseq : seq 0 n = 0%nat :: seq 1 (n - 1)).
      { destruct n as [|n']; [lia|]. simpl. rewrite Nat.sub_0_r. reflexivity. }
      rewrite Hseq. cbn [map]. rewrite Y, T.
      exists (item :: items). split; [reflexivity|].
      split; [simpl; congruence|].
      intros [|j] it Nj; simpl in Nj.
      * injection Nj as <-. rewrite Nat.add_0_r, Nat.Div0.mod_same. exact Y.
      * specialize (N j it Nj).
        replace ((n + S j) mod n)%nat with ((1 + j) mod n)%nat; [exact N|].
        replace (n + S j)%nat with (1 + j + 1 * n)%nat by lia.
        symmetry. apply Nat.Div0.mod_add.
    + destruct (Step a ltac:(lia)) as (item & items & Y & T & L & N).
      replace (n - a)%nat with (S (n - S a)) by lia.
      cbn [seq map filesListBrainMRLandmark.take
        filesListBrainMRLandmark.next filesListBrainMRLandmark.resume].
      rewrite Y, T.
      exists (item :: items). split; [reflexivity|].
      split; [simpl; congruence|].
      intros [|j] it Nj; simpl in Nj.
      * injection Nj as <-. rewrite Nat.add_0_r, Nat.mod_small by lia. exact Y.
      * specialize (N j it Nj).
        replace (a + S j)%nat with (S a + j)%nat by lia. exact N.
Qed.

(** X15.  [sample_circular()] goes round the list of files: when
    every file of a non-empty list can be decoded, the generator never
    ends, and the item it yields at position [j] is the one of file
    [j mod n], carrying the name [image_files[j mod n]]. *)
Theorem X15_sample_circular_cycles_through_the_files
    (self : filesListBrainMRLandmark.t) (k fuel : nat) :
  (0 < length (filesListBrainMRLandmark.image_files self))%nat ->
  (forall i, (i < length (filesListBrainMRLandmark.image_files self))%nat ->
     exists item, filesListBrainMRLandmark.yield_for im self (Z.of_nat i)
                  = Ok item) ->
  let n := length (filesListBrainMRLandmark.image_files self) in
  exists items,
    filesListBrainMRLandmark.take im k (S fuel) self
      (filesListBrainMRLandmark.NotStarted false) = Some (Ok items) /\
    length items = k /\
    forall j image lm name sp,
      nth_error items j = Some (image, lm, name, sp) ->
      filesListBrainMRLandmark.yield_for im self (Z.of_nat (j mod n))
      = Ok (image, lm, name, sp) /\
      nth_error (filesListBrainMRLandmark.image_files self) (j mod n)
      = Some name.
Proof.
  intros Hn Hy n.
  assert (Hnum : filesListBrainMRLandmark.num_files self = Z.of_nat n)
    by reflexivity.
  destruct (take_from self n fuel Hn Hnum Hy k 0%nat ltac:(lia))
    as (items & T & L & N).
  exists items. split; [|split; [exact L|]].
  - rewrite <- T. rewrite Nat.sub_0_r.
    destruct k; [reflexivity|].
    cbn [filesListBrainMRLandmark.take filesListBrainMRLandmark.next].
    rewrite Hnum, arange_seq. reflexivity.
  - intros j image lm name sp Nj. specialize (N j _ Nj). simpl in N.
    split; [exact N|].
    apply yield_for_name in N.
    destruct (getitem_of_nat (filesListBrainMRLandmark.image_files self)
                (j mod n)) as (x & Nx & Gx).
    { apply Nat.mod_upper_bound. fold n. lia. }
    rewrite Gx in N. injection N as <-. exact Nx.
Qed.

(** X16.  When [sample_circular] yields nothing: with [shuffle=True]
    the first [next] raises [NameError] (the body names [rng] and [x],
    which the module does not define); on an empty list of files the
    first [next] never returns, whatever the number of passes. *)
Theorem X16_sample_circular_without_items
    (self : filesListBrainMRLandmark.t) (k fuel : nat) :
  filesListBrainMRLandmark.take im (S k) fuel self
    (filesListBrainMRLandmark.NotStarted true)
  = Some (Raise (OtherException "NameError")) /\
  (filesListBrainMRLandmark.image_files self = [] ->
   filesListBrainMRLandmark.take im (S k) fuel self
     (filesListBrainMRLandmark.NotStarted false) = None).
Proof.
  split; [reflexivity|]. intros Hempty.
  cbn [filesListBrainMRLandmark.take filesListBrainMRLandmark.next].
  unfold filesListBrainMRLandmark.num_files. rewrite Hempty.
  change (filesListBrainMRLandmark.arange (len [])) with (@nil Z).
  assert (R : forall f, filesListBrainMRLandmark.resume im f self [] = None).
  { induction f as [|f IH]; [reflexivity|].
    cbn [filesListBrainMRLandmark.resume].
    unfold filesListBrainMRLandmark.num_files. rewrite Hempty.
    change (filesListBrainMRLandmark.arange (len [])) with (@nil Z).
    exact IH. }
  rewrite R. reflexivity.
Qed.

End SampleCircularFacts.

(** ** dataReader.py: the test on file names *)

Lemma prefix_app (a b s : string) :
  prefix (a ++ b) s = true -> prefix a s = true.
Proof.
  revert s. induction a as [|ch a IH]; intros s H;
    [destruct s; reflexivity|].
  destruct s as [|ch' s]; cbn [String.append prefix] in *; [discriminate|].
  destruct (Ascii.ascii_dec ch ch'); [apply IH; exact H | discriminate].
Qed.

Lemma contains_app (a b s : string) :
  contains (a ++ b) s = true -> contains a s = true.
Proof.
  induction s as [|ch s IH]; cbn [contains]; intros H;
    apply orb_true_iff in H as [H|H]; apply orb_true_iff.
  - left. apply (prefix_app a b). exact H.
  - discriminate.
  - left. apply (prefix_app a b). exact H.
  - right. apply IH. exact H.
Qed.

Lemma prefix_self_app (pat post : string) : prefix pat (pat ++ post) = true.
Proof.
  induction pat as [|ch pat IH]; [destruct post; reflexivity|].
  cbn [String.append prefix].
  destruct (Ascii.ascii_dec ch ch); [exact IH | contradiction].
Qed.

Lemma contains_middle (pat pre post : string) :
  contains pat (pre ++ pat ++ post) = true.
Proof.
  induction pre as [|ch pre IH].
  - cbn [String.append]. destruct (pat ++ post)%string eqn:E;
      cbn [contains]; rewrite <- E, prefix_self_app; reflexivity.
  - cbn [String.append contains]. rewrite IH. apply orb_true_r.
Qed.

(** X17.  [_is_nifti] is a substring test: a name passes as soon as
    [".nii"], [".img"] or [".hdr"] occurs anywhere in it (the entry
    [".nii.gz"] of the list adds nothing), and [decode] fails its
    assertion, without reaching the imaging library, on exactly the
    other names. *)
Theorem X17_is_nifti_is_a_substring_test
    {Sitk Image Point Landmark Spacing : Type}
    (im : Imaging Sitk Image Point Landmark Spacing)
    (filename : string) (label : bool) :
  NiftiImage._is_nifti filename
  = contains ".nii" filename || contains ".img" filename
    || contains ".hdr" filename /\
  (forall pre post ext,
     In ext [".nii"; ".img"; ".hdr"]%string ->
     NiftiImage._is_nifti (pre ++ ext ++ post) = true) /\
  NiftiImage.decode im filename label
  = if contains ".nii" filename || contains ".img" filename
       || contains ".hdr" filename
    then sitk_pipeline im filename label
    else Raise AssertionError.
Proof.
  assert (E : forall f, NiftiImage._is_nifti f
              = contains ".nii" f || contains ".img" f || contains ".hdr" f).
  { intros f. unfold NiftiImage._is_nifti, NiftiImage.extensions.
    cbn [existsb]. rewrite orb_false_r.
    destruct (contains ".nii" f) eqn:A; [reflexivity|].
    destruct (contains ".nii.gz" f) eqn:B; [|reflexivity].
    change ".nii.gz"%string with (".nii" ++ ".gz")%string in B.
    apply contains_app in B. congruence. }
  split; [apply E|]. split.
  - intros pre post ext Hin. rewrite E.
    destruct Hin as [<-|[<-|[<-|[]]]]; rewrite contains_middle;
      rewrite ?orb_true_r; reflexivity.
  - unfold NiftiImage.decode. rewrite E. reflexivity.
Qed.

(** ** The queue of recent transitions in a long episode *)

Lemma tl_skipn {A : Type} (d : nat) (l : list A) :
  tl (skipn d l) = skipn (S d) l.
Proof.
  revert l. induction d as [|d IH]; intros [|x l]; simpl; try reflexivity.
  apply IH.
Qed.

(** From an empty queue, live appends leave the last
    [history_len - 1] of them in the queue. *)
Lemma appends_live_tail (m : t) (post : list Experience) :
  wf m -> items (_hist m) = [] -> Forall live post ->
  Forall (fun e => storable (state_shape m) e = true) post ->
  exists m', appends m post = Ok m' /\ wf m' /\
    items (_hist m')
    = skipn (length post - Z.to_nat (history_len m - 1)) post /\
    state_shape m' = state_shape m /\ history_len m' = history_len m.
Proof.
  intros W H0. induction post as [|e l IH] using rev_ind; intros L Hst.
  - exists m. cbn [appends length Nat.sub]. rewrite H0. auto.
  - apply Forall_app in L as (Ll & Le).
    inversion Le as [|? ? He _]; subst.
    apply Forall_app in Hst as (Hstl & Hste).
    inversion Hste as [|? ? Hse _]; subst.
    destruct (IH Ll Hstl) as (m1 & E & W1 & Hi & Hs & Hh).
    exists (appended m1 e). rewrite appends_snoc, E. simpl.
    split; [apply append_ok; [exact W1 | rewrite Hs; exact Hse]|].
    split; [apply appended_wf; exact W1|].
    split; [|auto].
    pose proof (wf_hl m W) as Hhl.
    rewrite He. unfold deque_append. simpl.
    rewrite (wf_maxlen m1 W1), Hi, Hh, length_app. simpl.
    set (k := Z.to_nat (history_len m - 1)).
    assert (Lq : len (skipn (length l - k) l ++ [e])
                 = Z.of_nat (Nat.min (length l) k) + 1).
    { unfold len. rewrite length_app, length_skipn. simpl. lia. }
    destruct (Z.ltb_spec (history_len m - 1)
                (len (skipn (length l - k) l ++ [e]))) as [Hlt|Hge];
      rewrite Lq in *.
    + assert (Hk : (k <= length l)%nat) by lia.
      replace (length l + 1 - k)%nat with (S (length l - k)) by lia.
      rewrite <- tl_skipn, skipn_app.
      replace (length l - k - length l)%nat with 0%nat by lia.
      reflexivity.
    + assert (Hk : (length l < k)%nat) by lia.
      replace (length l - k)%nat with 0%nat by lia.
      replace (length l + 1 - k)%nat with 0%nat by lia.
      reflexivity.
Qed.

(** X18.  In an episode at least [history_len - 1] transitions long
    (of transitions the arrays accept), [recent_state()] returns the
    states of its last [history_len - 1] transitions as they were
    given, oldest first, and no zero array: the queue forgets the
    older ones. *)
Theorem X18_recent_state_keeps_the_last_states_of_the_episode
    (C hl : Z) (shape : list Z) (pre post : list Experience) :
  0 < C -> 1 <= hl -> Forall (fun d => 0 <= d) shape ->
  (pre = [] \/ exists l e, pre = l ++ [e] /\ Experience.isOver e = true) ->
  Forall (fun e => storable shape e = true) pre ->
  Forall (fun e => storable shape e = true) post ->
  Forall live post -> hl - 1 <= len post ->
  exists m,
    run C shape hl (pre ++ post) = Ok m /\
    recent_state m
    = map Experience.state
        (skipn (Z.to_nat (len post - (hl - 1))) post).
Proof.
  intros HC Hhl Hs Hpre Hst Hst' Hlive Hlen.
  destruct (run_ok C hl shape pre HC Hhl Hs Hst)
    as (m & E & W & _ & _ & Hsh & Hh).
  pose proof (run_ends_an_episode C hl shape pre m HC Hhl Hs Hpre E)
    as Hempty.
  destruct (appends_live_tail m post W Hempty Hlive
              ltac:(rewrite Hsh; exact Hst'))
    as (m' & E' & W' & Hi & Hs' & Hh').
  exists m'. split.
  - unfold run in *. destruct (__init__ C shape hl); simpl in *;
      [|discriminate]. rewrite appends_app, E. exact E'.
  - unfold recent_state.
    rewrite (wf_maxlen m' W'), Hi, Hh', Hh.
    replace (length post - Z.to_nat (hl - 1))%nat
      with (Z.to_nat (len post - (hl - 1))) by (unfold len; lia).
    replace (Z.to_nat (hl - 1 - len (skipn (Z.to_nat (len post - (hl - 1))) post)))
      with 0%nat
      by (unfold len in *; rewrite length_skipn; lia).
    reflexivity.
Qed.

(** ** Logical indices while the ring fills *)

(** Two windows that start at the same append are read alike. *)
Lemma same_window_same_sample
    (C hl : Z) (shape : list Z) (exps more : list Experience) (li li' : Z) :
  0 < C -> 1 <= hl -> Forall (fun d => 0 <= d) shape ->
  shape_2d_or_3d shape ->
  Forall (fun e => storable shape e = true) exps ->
  Forall (fun e => storable shape e = true) more ->
  0 <= li -> li + hl + 1 <= Z.min (len exps) C ->
  0 <= li' -> li' + hl + 1 <= Z.min (len (exps ++ more)) C ->
  window_start C (exps ++ more) li' = window_start C exps li ->
  exists m m' st st' r a o,
    run C shape hl exps = Ok m /\ appends m more = Ok m' /\
    sample m li = Ok (m, (st, r, a, o)) /\
    sample m' li' = Ok (m', (st', r, a, o)) /\
    frames m' (base st') = frames m (base st).
Proof.
  intros HC Hhl Hs Hsh Hst Hst' Hli Hfit Hli' Hfit' Hstart.
  destruct (run_ok C hl shape exps HC Hhl Hs Hst)
    as (m & E & W & R & H1 & H2 & H3).
  destruct (run_ok C hl shape (exps ++ more) HC Hhl Hs
              ltac:(apply Forall_app; split; assumption))
    as (m' & E' & W' & R' & H1' & H2' & H3').
  assert (Ea : appends m more = Ok m').
  { unfold run in E, E'. destruct (__init__ C shape hl); simpl in *;
      [|discriminate]. rewrite appends_app, E in E'. exact E'. }
  assert (Lapp : len (exps ++ more) = len exps + len more)
    by (unfold len; rewrite length_app; lia).
  assert (L0 : 0 <= len more) by (unfold len; lia).
  assert (Le : 0 <= len exps) by (unfold len; lia).
  pose proof R as (Rs & _). pose proof R' as (Rs' & _).
  rewrite H1 in Rs. rewrite H1' in Rs'.
  destruct (read_window_chrono exps m li W R ltac:(lia) ltac:(lia))
    as (Ws & Wr & Wa & Wo).
  destruct (read_window_chrono (exps ++ more) m' li' W' R'
              ltac:(lia) ltac:(lia)) as (Ws' & Wr' & Wa' & Wo').
  assert (Hsame :
    firstn (Z.to_nat (history_len m' + 1))
      (skipn (Z.to_nat (window_start (max_size m') (exps ++ more) li'))
         (exps ++ more))
    = firstn (Z.to_nat (history_len m + 1))
        (skipn (Z.to_nat (window_start (max_size m) exps li)) exps)).
  { rewrite H1, H1', H3, H3', Hstart. unfold window_start.
    apply window_of_prefix; lia. }
  rewrite Hsame in Ws', Wr', Wa', Wo'.
  rewrite H2 in Ws, Wr, Wa. rewrite H2' in Ws', Wr', Wa'.
  destruct (sample_spec m li W ltac:(rewrite H2; exact Hsh) ltac:(lia)
              ltac:(lia)) as (ax & r & a & o & Nr & Na & No & Es).
  destruct (sample_spec m' li' W'
              ltac:(rewrite H2'; exact Hsh) ltac:(lia) ltac:(lia))
    as (ax' & r' & a' & o' & Nr' & Na' & No' & Es').
  cbv zeta in Nr, Na, No, Nr', Na', No'.
  rewrite Wr', Wa', Wo' in *. rewrite Wr, Wa, Wo in *.
  rewrite Nr in Nr'. rewrite Na in Na'. rewrite No in No'.
  injection Nr' as <-. injection Na' as <-. injection No' as <-.
  eexists m, m', _, _, r, a, o.
  split; [exact E|]. split; [exact Ea|].
  split; [exact Es|]. split; [exact Es'|].
  simpl. rewrite H3, H3'.
  destruct (first_set (range_down (hl - 2)) _) as [kk|]; simpl.
  - rewrite Ws, Ws'. reflexivity.
  - rewrite !frames_state_window, Ws, Ws'. reflexivity.
Qed.

(** X19.  While the ring is filling, appends (of transitions the
    arrays accept) leave the logical indices alone: as long as the
    capacity is not exceeded, the window at a logical index of the
    valid range is the same before and after the appends, frame for
    frame and field for field. *)
Theorem X19_logical_indices_are_stable_while_filling
    (C hl : Z) (shape : list Z) (exps more : list Experience) (li : Z) :
  0 < C -> 1 <= hl -> Forall (fun d => 0 <= d) shape ->
  shape_2d_or_3d shape ->
  Forall (fun e => storable shape e = true) exps ->
  Forall (fun e => storable shape e = true) more ->
  len exps + len more <= C ->
  0 <= li -> li + hl + 1 <= len exps ->
  exists m m' st st' r a o,
    run C shape hl exps = Ok m /\ appends m more = Ok m' /\
    sample m li = Ok (m, (st, r, a, o)) /\
    sample m' li = Ok (m', (st', r, a, o)) /\
    frames m' (base st') = frames m (base st).
Proof.
  intros HC Hhl Hs Hsh Hst Hst' Hcap Hli Hfit.
  assert (Lapp : len (exps ++ more) = len exps + len more)
    by (unfold len; rewrite length_app; lia).
  assert (L0 : 0 <= len more) by (unfold len; lia).
  apply same_window_same_sample; try assumption.
  - lia.
  - rewrite Lapp. lia.
  - unfold window_start. rewrite Lapp. lia.
Qed.

(** ** ExpReplay: from the constructor to the filled memory *)

(** A memory [__init__] returned was built from a capacity that is
    not negative and a history of at least one frame. *)
Lemma init_inv (C hl : Z) (shape : list Z) (m : t) :
  __init__ C shape hl = Ok m ->
  0 <= C /\ 1 <= hl /\ Forall (fun d => 0 <= d) shape.
Proof.
  unfold __init__, deque_new. intros H.
  destruct (Z.ltb_spec C 0) as [|HC]; simpl in H; [discriminate|].
  destruct (existsb (fun d => d <? 0) shape) eqn:Ex; [discriminate|].
  destruct (Z.ltb_spec (hl - 1) 0) as [|Hh]; simpl in H; [discriminate|].
  split; [lia|]. split; [lia|].
  apply Forall_forall. intros d Hd.
  destruct (Z.ltb_spec d 0) as [Hneg|]; [|assumption].
  assert (existsb (fun d => d <? 0) shape = true); [|congruence].
  apply existsb_exists. exists d. split; [exact Hd|].
  apply Z.ltb_lt. exact Hneg.
Qed.

Section ExpReplayStart.

Context {Noise Q Info Env : Type}
        (c : ExpReplay.Collaborators Noise Q Info Env).

(** What a successful constructor leaves. *)
Lemma ExpReplay_init_ok (shape : list Z) (bs ms ims : Z) (eps : Noise)
    (uf hl : Z) (w w' : World Env) (self : ExpReplay.t Noise) :
  ExpReplay.__init__ c shape bs ms ims eps uf hl w = (w', Ok self) ->
  0 < ms ->
  ExpReplay.consistent self /\
  1 <= hl /\
  ExpReplay.memory_size self = ms /\
  ExpReplay.init_memory_size self = ims /\
  ExpReplay.history_len self = hl /\
  ExpReplay._init_memory_flag self = false /\
  ExpReplay._populate_job_queue self = 0 /\
  __len__ (ExpReplay.mem self) = 0.
Proof.
  unfold ExpReplay.__init__. intros H Hms.
  apply bind_ok in H as (n & w1 & _ & H).
  apply bind_ok in H as (u & w2 & _ & H).
  apply bind_ok in H as (m & w3 & Hm & H).
  apply bind_ok in H as (ob & w4 & _ & H).
  apply ret_ok in H as (-> & _). apply of_result_ok in Hm as (Hm & _).
  destruct (init_inv ms hl shape m Hm) as (_ & Hhl & Hs).
  destruct (init_ok ms hl shape Hms Hhl Hs)
    as (m0 & E0 & W & H1 & H2 & H3 & H4 & _).
  rewrite E0 in Hm. injection Hm as <-.
  unfold ExpReplay.consistent. simpl.
  split; [split; [exact W | split; symmetry; assumption]|].
  split; [exact Hhl|]. repeat (split; [reflexivity|]). exact H4.
Qed.

(** With collaborators that do not raise the constructor returns. *)
Lemma ExpReplay_init_succeeds (shape : list Z) (bs ms ims : Z) (eps : Noise)
    (uf hl : Z) (w : World Env) :
  ExpReplay.dependable c shape ->
  0 < ms -> 1 <= hl -> Forall (fun d => 0 <= d) shape ->
  exists w1 self,
    ExpReplay.__init__ c shape bs ms ims eps uf hl w = (w1, Ok self) /\
    ExpReplay.tidy self /\ state_shape (ExpReplay.mem self) = shape.
Proof.
  intros D Hms Hhl Hs.
  destruct (init_ok ms hl shape Hms Hhl Hs)
    as (m0 & E0 & W & H1 & H2 & H3 & H4 & H5 & H6).
  destruct (ExpReplay.dep_num_actions D (env w)) as (e1 & n & E1).
  destruct (ExpReplay.dep_reset D (ExpReplay.notify c (Legal_actions n) e1))
    as (e2 & ob & E2 & Sob).
  unfold ExpReplay.__init__, bind, lift, ExpReplay.tell, of_result, ret.
  rewrite E1. cbn [env log]. rewrite E0, E2.
  eexists. eexists. split; [reflexivity|].
  split; [|exact H2].
  split; cbn; rewrite ?H2, ?H6; [exact Sob | constructor].
Qed.

(** X20.  An [ExpReplay] object the constructor returned, with a
    positive [memory_size], starts with an empty memory and the flag
    unset; [_before_train]'s [_init_memory] on it, with
    [init_memory_size <= memory_size], ends after at most
    [init_memory_size] turns, and when it returns the memory holds
    exactly [init_memory_size] transitions (none for a target that is
    not positive) and the flag is set.  Both the constructor and
    [_init_memory] do return when nothing they call raises: the
    collaborators return, the actions fit a C long, and the player's
    observations are arrays of the state shape, with two or three
    axes. *)
Theorem X20_a_new_replay_is_filled_to_init_memory_size
    (shape : list Z) (bs ms ims : Z) (eps : Noise) (uf hl : Z)
    (w : World Env) (fuel : nat) :
  0 < ms -> ims <= ms -> (Z.to_nat ims <= fuel)%nat ->
  (forall w1 self,
     ExpReplay.__init__ c shape bs ms ims eps uf hl w = (w1, Ok self) ->
     1 <= hl /\
     __len__ (ExpReplay.mem self) = 0 /\
     ExpReplay._init_memory_flag self = false /\
     snd (ExpReplay._init_memory c fuel self w1) <> None /\
     forall self',
       snd (ExpReplay._init_memory c fuel self w1) = Some (Ok self') ->
       ExpReplay.consistent self' /\
       ExpReplay._init_memory_flag self' = true /\
       __len__ (ExpReplay.mem self') = Z.max 0 ims) /\
  (ExpReplay.dependable c shape -> 1 <= hl ->
   Forall (fun d => 0 <= d) shape -> shape_2d_or_3d shape ->
   exists w1 self self',
     ExpReplay.__init__ c shape bs ms ims eps uf hl w = (w1, Ok self) /\
     snd (ExpReplay._init_memory c fuel self w1) = Some (Ok self') /\
     ExpReplay._init_memory_flag self' = true /\
     __len__ (ExpReplay.mem self') = Z.max 0 ims).
Proof.
  intros Hms Hcap Hfuel.
  assert (Part : forall w1 self,
            ExpReplay.__init__ c shape bs ms ims eps uf hl w = (w1, Ok self) ->
            ExpReplay.consistent self /\
            ExpReplay.init_memory_size self <= ExpReplay.memory_size self /\
            (Z.to_nat (ExpReplay.init_memory_size self
                       - __len__ (ExpReplay.mem self)) <= fuel)%nat /\
            1 <= hl /\
            __len__ (ExpReplay.mem self) = 0 /\
            ExpReplay._init_memory_flag self = false /\
            ExpReplay.init_memory_size self = ims).
  { intros w1 self H.
    destruct (ExpReplay_init_ok shape bs ms ims eps uf hl w w1 self H Hms)
      as (Hc & Hhl & Em & Ei & _ & Hf & _ & Hl).
    split; [exact Hc|]. split; [rewrite Em, Ei; exact Hcap|].
    split; [rewrite Ei, Hl; lia|]. auto. }
  split.
  - intros w1 self H.
    destruct (Part w1 self H) as (Hc & Hcap' & Hfuel' & Hhl & Hl & Hf & Ei).
    split; [exact Hhl|]. split; [exact Hl|]. split; [exact Hf|].
    pose proof (_init_memory_finishes c self w1 fuel Hc Hcap' Hfuel') as F.
    split.
    + intros E. rewrite E in F. exact F.
    + intros self' E. rewrite E in F. rewrite Hl, Ei in F. exact F.
  - intros D Hhl Hs Hsh.
    destruct (ExpReplay_init_succeeds shape bs ms ims eps uf hl w D Hms Hhl Hs)
      as (w1 & self & H & Ht & Hshape).
    destruct (Part w1 self H) as (Hc & Hcap' & Hfuel' & _ & Hl & Hf & Ei).
    destruct (_init_memory_succeeds c self w1 fuel
                ltac:(rewrite Hshape; exact D)
                ltac:(rewrite Hshape; exact Hsh) Hc Ht Hcap' Hfuel')
      as (self' & E).
    pose proof (_init_memory_finishes c self w1 fuel Hc Hcap' Hfuel') as F.
    rewrite E in F. rewrite Hl, Ei in F.
    exists w1, self, self'. split; [exact H|]. split; [exact E|]. apply F.
Qed.

End ExpReplayStart.

(** ** Playing one episode *)

Section PlayFacts.

Context {Ob Qv Reward Score Info Value Env : Type}
        (g : Play.Game Ob Qv Reward Score Info Value Env).

(** An episode of [length rs] turns is played to its end. *)
Lemma play_loop_plays (render : bool) (w w' : World Env) (ob : Ob)
    (rs : list Reward) (last : Info * Qv) :
  Play.episode g render w ob rs w' last ->
  forall (fuel : nat) (s : Score),
    (length rs <= fuel)%nat ->
    Play.play_loop g fuel render ob s w
    = (w', Some (Play.episode_result g
                   (fold_left (Play.score_add g) rs s) (fst last) (snd last))).
Proof.
  induction 1 as [w ob w' ob' r info q T | w ob w1 ob1 r info1 q1 rs w' last T _ IH];
    intros [|fuel] s Hf; simpl in Hf; try lia;
    cbn [Play.play_loop]; unfold lbind, returns; rewrite T.
  - reflexivity.
  - apply IH. lia.
Qed.

(** What [play_loop] returned normally came from an episode. *)
Lemma play_loop_played (fuel : nat) :
  forall (render : bool) (w w' : World Env) (ob : Ob) (s : Score)
         (res : Score * Value * Value * Qv * Value),
    Play.play_loop g fuel render ob s w = (w', Some (Ok res)) ->
    exists rs info q,
      Play.episode g render w ob rs w' (info, q) /\
      (length rs <= fuel)%nat /\
      Play.episode_result g (fold_left (Play.score_add g) rs s) info q
      = Ok res.
Proof.
  induction fuel as [|fuel IH]; intros render w w' ob s res H;
    cbn [Play.play_loop] in H; [discriminate|].
  unfold lbind, returns in H.
  destruct (Play.turn g render ob w)
    as [w1 [[[[[ob1 r] o] info] q]|e]] eqn:T; [|discriminate].
  destruct o.
  - unfold of_result in H. injection H as <- H.
    exists [r], info, q. split; [eapply Play.episode_ends; exact T|].
    split; [simpl; lia | exact H].
  - apply IH in H as (rs & info' & q' & Ep & Hl & Hr).
    exists (r :: rs), info', q'.
    split; [eapply Play.episode_goes_on; [exact T | exact Ep]|].
    split; [simpl; lia | exact Hr].
Qed.

(** X21.  [play_one_episode] returns normally exactly when the turns
    that follow [env.reset()] form an episode: the first turn that
    reports the end is the last one played.  The score returned is
    then the sum of the rewards of all the turns, the last one
    included, added in order from 0; the file name, the distance error
    and the location are read in the dict of the last turn, and the
    action values are those of the last prediction.  Turns beyond the
    end of the episode are not played: any larger bound on the number
    of turns gives the same result. *)
Theorem X21_play_one_episode_sums_the_rewards_up_to_the_first_end
    (render : bool) (w w' : World Env) (fuel : nat)
    (res : Score * Value * Value * Qv * Value) :
  (forall w0 ob rs info q,
     Play.env_reset g (env w) = (env w0, Ok ob) -> log w0 = log w ->
     Play.episode g render w0 ob rs w' (info, q) ->
     (length rs <= fuel)%nat ->
     Play.play_one_episode g fuel render w
     = (w', Some (Play.episode_result g
                    (fold_left (Play.score_add g) rs (Play.score_zero g))
                    info q))) /\
  (Play.play_one_episode g fuel render w = (w', Some (Ok res)) ->
   exists w0 ob rs info q,
     Play.env_reset g (env w) = (env w0, Ok ob) /\ log w0 = log w /\
     Play.episode g render w0 ob rs w' (info, q) /\
     (length rs <= fuel)%nat /\
     Play.episode_result g
       (fold_left (Play.score_add g) rs (Play.score_zero g)) info q
     = Ok res).
Proof.
  unfold Play.play_one_episode, lbind, returns, lift. split.
  - intros w0 ob rs info q Hr Hlog Ep Hf.
    rewrite Hr. destruct w0 as [e0 l0]. simpl in *. subst l0.
    apply (play_loop_plays render _ w' ob rs (info, q) Ep). exact Hf.
  - destruct (Play.env_reset g (env w)) as [e0 [ob|e]] eqn:Hr;
      [|discriminate].
    intros H. apply play_loop_played in H as (rs & info & q & Ep & Hl & Hres).
    exists (mkWorld e0 (log w)), ob, rs, info, q. simpl. auto.
Qed.

End PlayFacts.

(** ** Examples *)

Lemma pairs_exps_storable :
  Forall (fun e => storable [2; 1] e = true) pairs_exps.
Proof. repeat constructor. Defined.

Lemma X1_witness :
  0 < 5 /\ 1 <= 2 /\ Forall (fun d => 0 <= d) [1; 1] /\
  (exists m, run 5 [1; 1] 2 scenario_exps = Ok m /\
     _curr_size m = 5 /\ _curr_pos m = 0 /\ len (state m) = 5) /\
  run 5 [1; 1] 2
    (scenario_exps
       ++ [Experience.make (Frame.make [2; 2] [1; 2; 3; 4]) 0 f32_zero false])
  = Raise ValueError /\
  run 5 [1; 1] 2
    (scenario_exps
       ++ [Experience.make (pixel 6) 9223372036854775808 f32_zero false])
  = Raise (OtherException "OverflowError").
Proof.
  assert (H1 : 0 < 5) by lia.
  assert (H2 : 1 <= 2) by lia.
  assert (H3 : Forall (fun d => 0 <= d) [1; 1])
    by (repeat constructor; lia).
  repeat (split; [assumption|]).
  destruct (X1_run_keeps_cursor_size_and_array_lengths 5 2 [1; 1]
              scenario_exps H1 H2 H3) as (Hok & _ & Hraise).
  split; [|split].
  - destruct (Hok scenario_exps_storable)
      as (m & E & _ & _ & _ & Hs & Hp & _ & Ls & _).
    exists m. split; [exact E|]. split; [exact Hs|].
    split; [exact Hp|exact Ls].
  - apply Hraise; [exact scenario_exps_storable | reflexivity].
  - apply Hraise; [exact scenario_exps_storable | reflexivity].
Defined.

Lemma X2_witness :
  1 <= 2 /\ Forall (fun d => 0 <= d) [1; 1] /\
  exists m, __init__ 0 [1; 1] 2 = Ok m /\ __len__ m = 0 /\
    append m (Experience.make (pixel 1) 11 (f32 1) false) = Raise IndexError /\
    sample m 3 = Raise ZeroDivisionError.
Proof.
  assert (H2 : 1 <= 2) by lia.
  assert (H3 : Forall (fun d => 0 <= d) [1; 1])
    by (repeat constructor; lia).
  repeat (split; [assumption|]).
  exact (X2_capacity_zero_memory_is_unusable 2 [1; 1]
           (Experience.make (pixel 1) 11 (f32 1) false) 3 H2 H3).
Defined.

Lemma X3_witness :
  0 < 4 /\ 1 <= 2 /\ Forall (fun d => 0 <= d) [2; 1] /\
  shape_2d_or_3d [2; 1] /\
  Forall (fun e => storable [2; 1] e = true) pairs_exps /\
  0 <= 0 /\ 0 + 2 + 1 <= Z.min (len pairs_exps) 4 /\
  exists m st,
    run 4 [2; 1] 2 pairs_exps = Ok m /\
    sample m 0 = Ok (m, (st, f32 2, 12, true)) /\
    frames m (base st) = [pair 1 10; pair 2 20; pair 3 30].
Proof.
  assert (H1 : 0 < 4) by lia.
  assert (H2 : 1 <= 2) by lia.
  assert (H3 : Forall (fun d => 0 <= d) [2; 1])
    by (repeat constructor; lia).
  assert (H4 : shape_2d_or_3d [2; 1]) by (left; reflexivity).
  assert (H5 : Forall (fun e => storable [2; 1] e = true) pairs_exps)
    by exact pairs_exps_storable.
  assert (H6 : 0 <= 0) by lia.
  assert (H7 : 0 + 2 + 1 <= Z.min (len pairs_exps) 4)
    by (vm_compute; discriminate).
  repeat (split; [assumption|]).
  destruct (X3_sample_follows_the_order_of_appends 4 2 [2; 1]
              pairs_exps 0 H1 H2 H3 H4 H5 H6 H7)
    as (m & st & e & E & Ne & Es & Hf).
  vm_compute in Ne. injection Ne as <-.
  exists m, st. split; [exact E|]. split; [exact Es|].
  refine (proj2 (Hf _) _).
  - intros p ep Hp N.
    assert (p = 0) by lia. subst p.
    vm_compute in N. injection N as <-. reflexivity.
  - repeat constructor.
Defined.

Lemma X4_witness :
  0 < 4 /\ 1 <= 3 /\ Forall (fun d => 0 <= d) [2; 1] /\
  shape_2d_or_3d [2; 1] /\
  Forall (fun e => storable [2; 1] e = true) pairs_exps /\
  0 <= 0 /\
  0 + 3 + 1 <= Z.min (len pairs_exps) 4 /\ 0 <= 1 <= 3 - 2 /\
  nth_error pairs_exps (Z.to_nat (window_start 4 pairs_exps 0 + 1))
  = Some (Experience.make (pair 2 20) 12 (f32 2) true) /\
  exists m st r a o,
    run 4 [2; 1] 3 pairs_exps = Ok m /\
    sample m 0 = Ok (m, (st, r, a, o)) /\
    nth_error (frames m (base st)) 0 = Some (Frame.make [2; 1] [0; 0]) /\
    nth_error (frames m (base st)) 1 = Some (Frame.make [2; 1] [0; 0]) /\
    nth_error (frames m (base st)) 2 = Some (pair 3 30) /\
    nth_error (frames m (base st)) 3 = Some (pair 4 40).
Proof.
  assert (H1 : 0 < 4) by lia.
  assert (H2 : 1 <= 3) by lia.
  assert (H3 : Forall (fun d => 0 <= d) [2; 1])
    by (repeat constructor; lia).
  assert (H4 : shape_2d_or_3d [2; 1]) by (left; reflexivity).
  assert (H5 : Forall (fun e => storable [2; 1] e = true) pairs_exps)
    by exact pairs_exps_storable.
  assert (H6 : 0 <= 0) by lia.
  assert (H7 : 0 + 3 + 1 <= Z.min (len pairs_exps) 4)
    by (vm_compute; discriminate).
  assert (H8 : 0 <= 1 <= 3 - 2) by lia.
  assert (H9 : nth_error pairs_exps
                 (Z.to_nat (window_start 4 pairs_exps 0 + 1))
               = Some (Experience.make (pair 2 20) 12 (f32 2) true))
    by reflexivity.
  repeat (split; [assumption|]).
  destruct (X4_frames_up_to_an_episode_end_are_zeroed 4 3 [2; 1]
              pairs_exps 0 1 (Experience.make (pair 2 20) 12 (f32 2) true)
              H1 H2 H3 H4 H5 H6 H7 H8 H9 eq_refl)
    as (m & st & r & a & o & E & Es & Hz & Hk).
  exists m, st, r, a, o. split; [exact E|]. split; [exact Es|].
  split; [|split; [|split]].
  - apply (Hz 0); lia.
  - apply (Hz 1); lia.
  - exact (proj2 (Hk 2 (Experience.make (pair 3 30) 13 (f32 3) false)
                    ltac:(lia) eq_refl) eq_refl eq_refl).
  - exact (proj2 (Hk 3 (Experience.make (pair 4 40) 14 (f32 4) false)
                    ltac:(lia) eq_refl) eq_refl eq_refl).
Defined.

Lemma X5_witness :
  0 < 5 /\ 1 <= 2 /\ Forall (fun d => 0 <= d) [1; 1] /\
  shape_2d_or_3d [1; 1] /\
  Forall (fun e => storable [1; 1] e = true) scenario_exps /\
  Forall (fun e => storable [1; 1] e = true)
    [Experience.make (pixel 6) 16 (f32 6) false] /\
  5 <= len scenario_exps /\
  len [Experience.make (pixel 6) 16 (f32 6) false] <= 1 /\ 1 + 2 + 1 <= 5 /\
  exists m m' st st' r a o,
    run 5 [1; 1] 2 scenario_exps = Ok m /\
    appends m [Experience.make (pixel 6) 16 (f32 6) false] = Ok m' /\
    sample m 1 = Ok (m, (st, r, a, o)) /\
    sample m' (1 - len [Experience.make (pixel 6) 16 (f32 6) false])
    = Ok (m', (st', r, a, o)) /\
    frames m' (base st') = frames m (base st).
Proof.
  assert (H1 : 0 < 5) by lia.
  assert (H2 : 1 <= 2) by lia.
  assert (H3 : Forall (fun d => 0 <= d) [1; 1])
    by (repeat constructor; lia).
  assert (H4 : shape_2d_or_3d [1; 1]) by (left; reflexivity).
  assert (S1 : Forall (fun e => storable [1; 1] e = true) scenario_exps)
    by exact scenario_exps_storable.
  assert (S2 : Forall (fun e => storable [1; 1] e = true)
                 [Experience.make (pixel 6) 16 (f32 6) false])
    by (repeat constructor).
  assert (H5 : 5 <= len scenario_exps) by (vm_compute; discriminate).
  assert (H6 : len [Experience.make (pixel 6) 16 (f32 6) false] <= 1)
    by (vm_compute; discriminate).
  assert (H7 : 1 + 2 + 1 <= 5) by lia.
  repeat (split; [assumption|]).
  exact (X5_appends_shift_logical_indices 5 2 [1; 1] scenario_exps
           [Experience.make (pixel 6) 16 (f32 6) false] 1 H1 H2 H3 H4 S1 S2
           H5 H6 H7).
Defined.

Lemma X18_witness :
  0 < 5 /\ 1 <= 2 /\ Forall (fun d => 0 <= d) [1; 1] /\
  Forall (fun e => storable [1; 1] e = true) three_exps /\
  Forall live three_exps /\ 2 - 1 <= len three_exps /\
  exists m, run 5 [1; 1] 2 ([] ++ three_exps) = Ok m /\
    recent_state m = [pixel 3].
Proof.
  assert (H1 : 0 < 5) by lia.
  assert (H2 : 1 <= 2) by lia.
  assert (H3 : Forall (fun d => 0 <= d) [1; 1])
    by (repeat constructor; lia).
  assert (S1 : Forall (fun e => storable [1; 1] e = true) three_exps)
    by exact three_exps_storable.
  assert (H4 : Forall live three_exps) by (repeat constructor).
  assert (H5 : 2 - 1 <= len three_exps) by (vm_compute; discriminate).
  repeat (split; [assumption|]).
  exact (X18_recent_state_keeps_the_last_states_of_the_episode 5 2 [1; 1]
           [] three_exps H1 H2 H3 (or_introl eq_refl)
           (Forall_nil _) S1 H4 H5).
Defined.

Lemma X19_witness :
  0 < 5 /\ 1 <= 2 /\ Forall (fun d => 0 <= d) [1; 1] /\
  shape_2d_or_3d [1; 1] /\
  Forall (fun e => storable [1; 1] e = true) three_exps /\
  Forall (fun e => storable [1; 1] e = true)
    [Experience.make (pixel 4) 14 (f32 4) true] /\
  len three_exps + len [Experience.make (pixel 4) 14 (f32 4) true] <= 5 /\
  0 <= 0 /\ 0 + 2 + 1 <= len three_exps /\
  exists m m' st st' r a o,
    run 5 [1; 1] 2 three_exps = Ok m /\
    appends m [Experience.make (pixel 4) 14 (f32 4) true] = Ok m' /\
    sample m 0 = Ok (m, (st, r, a, o)) /\
    sample m' 0 = Ok (m', (st', r, a, o)) /\
    frames m' (base st') = frames m (base st).
Proof.
  assert (H1 : 0 < 5) by lia.
  assert (H2 : 1 <= 2) by lia.
  assert (H3 : Forall (fun d => 0 <= d) [1; 1])
    by (repeat constructor; lia).
  assert (H4 : shape_2d_or_3d [1; 1]) by (left; reflexivity).
  assert (S1 : Forall (fun e => storable [1; 1] e = true) three_exps)
    by exact three_exps_storable.
  assert (S2 : Forall (fun e => storable [1; 1] e = true)
                 [Experience.make (pixel 4) 14 (f32 4) true])
    by (repeat constructor).
  assert (H5 : len three_exps
               + len [Experience.make (pixel 4) 14 (f32 4) true] <= 5)
    by (vm_compute; discriminate).
  assert (H6 : 0 <= 0) by lia.
  assert (H7 : 0 + 2 + 1 <= len three_exps) by (vm_compute; discriminate).
  repeat (split; [assumption|]).
  exact (X19_logical_indices_are_stable_while_filling 5 2 [1; 1] three_exps
           [Experience.make (pixel 4) 14 (f32 4) true] 0 H1 H2 H3 H4 S1 S2
           H5 H6 H7).
Defined.

Lemma test_replay_consistent (ims uf : Z) (flag : bool) (tokens : Z) :
  ExpReplay.consistent (test_replay 5 ims uf three_memory flag tokens).
Proof. split; [prove_wf | split; reflexivity]. Defined.

Lemma test_dependable :
  ExpReplay.dependable test_collaborators [1; 1].
Proof.
  constructor; intros; cbn.
  - eexists. eexists. reflexivity.
  - eexists. eexists. reflexivity.
  - eexists. eexists. split; [reflexivity|].
    apply c_long_spec.
    match goal with
    | |- _ <= ?t mod 4 < _ => pose proof (Z.mod_pos_bound t 4); lia
    end.
  - eexists. eexists. reflexivity.
  - reflexivity.
  - do 5 eexists. split; [reflexivity|].
    split; [reflexivity|]. split; [reflexivity|].
    cbn. rewrite andb_true_r. apply c_long_spec.
    match goal with
    | |- _ <= ?t mod 256 < _ => pose proof (Z.mod_pos_bound t 256); lia
    end.
  - eexists. eexists. split; [reflexivity|]. repeat split.
  - eexists. reflexivity.
  - eexists. reflexivity.
Defined.

Lemma test_replay_tidy (ims uf : Z) (flag : bool) (tokens : Z) :
  ExpReplay.tidy (test_replay 5 ims uf three_memory flag tokens).
Proof.
  split; [repeat split|].
  repeat constructor.
Defined.


Lemma X7_witness :
  let self := test_replay 5 5 1 three_memory false 0 in
  let p := fun (axis : Z) (history : list Frame) (t : Z) =>
             if (length history =? 2)%nat
             then (t, Ok (map (fun f => fold_right Z.add 0 (Frame.data f))
                            history))
             else (t, Raise ValueError) in
  ExpReplay.consistent self /\
  ExpReplay._populate_exp
    (ExpReplay.with_predictor test_collaborators p) self (mkWorld 0 [])
  = ExpReplay._populate_exp test_collaborators self (mkWorld 0 []) /\
  len (recent_state (ExpReplay.mem self) ++ [ExpReplay._current_ob self]) = 2.
Proof.
  intros self p.
  assert (Hc : ExpReplay.consistent self)
    by apply test_replay_consistent.
  split; [exact Hc|].
  apply (X7_populate_exp_consults_the_predictor_on_the_history_only
           test_collaborators self (mkWorld 0 []) p Hc).
  intros _ axis t. reflexivity.
Defined.

Lemma X8_witness :
  let self := test_replay 5 5 1 three_memory false 0 in
  ExpReplay.consistent self /\
  ExpReplay.init_memory_size self <= ExpReplay.memory_size self /\
  (Z.to_nat (ExpReplay.init_memory_size self
             - __len__ (ExpReplay.mem self)) <= 2)%nat /\
  exists self',
    snd (ExpReplay._init_memory test_collaborators 2 self (mkWorld 0 []))
    = Some (Ok self') /\
    ExpReplay._init_memory_flag self' = true /\
    __len__ (ExpReplay.mem self') = 5.
Proof.
  intros self.
  assert (Hc : ExpReplay.consistent self)
    by apply test_replay_consistent.
  assert (H2 : ExpReplay.init_memory_size self <= ExpReplay.memory_size self)
    by (vm_compute; discriminate).
  assert (H3 : (Z.to_nat (ExpReplay.init_memory_size self
                          - __len__ (ExpReplay.mem self)) <= 2)%nat)
    by (vm_compute; lia).
  repeat (split; [assumption|]).
  destruct (X8_init_memory_fills_the_memory_and_sets_the_flag
              test_collaborators self (mkWorld 0 []) 2%nat Hc H2 H3)
    as (_ & _ & F).
  exact (F test_dependable (or_introl eq_refl)
           (test_replay_tidy 5 1 false 0)).
Defined.

Lemma X9_witness :
  let self := test_replay 5 7 1 three_memory false 0 in
  ExpReplay.consistent self /\
  ExpReplay.memory_size self < ExpReplay.init_memory_size self /\
  snd (ExpReplay._init_memory test_collaborators 20 self (mkWorld 0 []))
  <> Some (Ok self).
Proof.
  intros self.
  assert (Hc : ExpReplay.consistent self)
    by apply test_replay_consistent.
  assert (H2 : ExpReplay.memory_size self < ExpReplay.init_memory_size self)
    by (vm_compute; reflexivity).
  repeat (split; [assumption|]).
  exact (X9_init_memory_above_capacity_never_returns
           test_collaborators self self (mkWorld 0 []) 20%nat Hc H2).
Defined.

Lemma X10_witness :
  let self := test_replay 5 5 2 three_memory true 1 in
  ExpReplay.consistent self /\
  0 < ExpReplay._populate_job_queue self /\
  exists self' more,
    snd (ExpReplay.populate_job_func test_collaborators self (mkWorld 0 []))
    = Some (Ok self') /\
    ExpReplay._populate_job_queue self' = 0 /\
    len more = 2 /\
    appends (ExpReplay.mem self) more = Ok (ExpReplay.mem self').
Proof.
  intros self.
  assert (Hc : ExpReplay.consistent self)
    by apply test_replay_consistent.
  assert (H2 : 0 < ExpReplay._populate_job_queue self)
    by (vm_compute; reflexivity).
  repeat (split; [assumption|]).
  destruct (X10_populate_job_appends_update_frequency_transitions
              test_collaborators self (mkWorld 0 []) Hc) as (_ & H).
  destruct (H H2) as (_ & F).
  exact (F test_dependable (or_introl eq_refl)
           (test_replay_tidy 5 2 true 1)).
Defined.

Lemma X11_witness :
  let self := test_replay 7 7 1 seven_memory false 0 in
  ExpReplay.consistent self /\
  Forall (fun e => storable (state_shape (ExpReplay.mem self)) e = true)
    (items (_hist (ExpReplay.mem self))) /\
  5 <= __len__ (ExpReplay.mem self) /\
  ExpReplay.init_memory_size self <= ExpReplay.memory_size self /\
  (Z.to_nat (ExpReplay.init_memory_size self
             - __len__ (ExpReplay.mem self)) <= 2)%nat /\
  items (_hist (ExpReplay.mem self)) <> [] /\
  exists self',
    snd (ExpReplay._fake_init_memory test_collaborators 2 self (mkWorld 0 []))
    = Some (Ok self') /\
    ExpReplay._init_memory_flag self' = true /\
    __len__ (ExpReplay.mem self') = 7.
Proof.
  intros self.
  assert (Hc : ExpReplay.consistent self)
    by (split; [prove_wf | split; reflexivity]).
  assert (S1 : Forall
                 (fun e => storable (state_shape (ExpReplay.mem self)) e
                           = true)
                 (items (_hist (ExpReplay.mem self))))
    by (repeat constructor).
  assert (H2 : 5 <= __len__ (ExpReplay.mem self))
    by (vm_compute; discriminate).
  assert (H3 : ExpReplay.init_memory_size self <= ExpReplay.memory_size self)
    by (vm_compute; discriminate).
  assert (H4 : (Z.to_nat (ExpReplay.init_memory_size self
                          - __len__ (ExpReplay.mem self)) <= 2)%nat)
    by (vm_compute; lia).
  assert (H5 : items (_hist (ExpReplay.mem self)) <> [])
    by (vm_compute; discriminate).
  repeat (split; [assumption|]).
  destruct (X11_fake_init_memory_needs_a_recent_transition
              test_collaborators self (mkWorld 0 []) 2%nat Hc S1 H2 H3 H4)
    as (_ & H).
  destruct (H H5) as (self' & E & Hf & Hl & _).
  exists self'. split; [exact E|]. split; [exact Hf | exact Hl].
Defined.


Lemma X20_witness :
  0 < 5 /\ 3 <= 5 /\ (Z.to_nat 3 <= 3)%nat /\
  exists w1 self self',
    ExpReplay.__init__ test_collaborators [1; 1] 2 5 3 0 1 2 (mkWorld 0 [])
    = (w1, Ok self) /\
    snd (ExpReplay._init_memory test_collaborators 3 self w1)
    = Some (Ok self') /\
    ExpReplay._init_memory_flag self' = true /\
    __len__ (ExpReplay.mem self') = 3.
Proof.
  assert (H1 : 0 < 5) by lia.
  assert (H2 : 3 <= 5) by lia.
  assert (H3 : (Z.to_nat 3 <= 3)%nat) by lia.
  repeat (split; [assumption|]).
  destruct (X20_a_new_replay_is_filled_to_init_memory_size
              test_collaborators [1; 1] 2 5 3 0 1 2 (mkWorld 0 []) 3%nat
              H1 H2 H3) as (_ & F).
  apply F.
  - exact test_dependable.
  - lia.
  - repeat constructor; lia.
  - left; reflexivity.
Defined.

Lemma X13_witness :
  Forall (fun n => newline_free n = true) ["a.nii.gz"%string] /\
  Forall (fun n => newline_free n = true) ["a.fcsv"; "b.txt"]%string /\
  newline_free "b.nii.gz"%string = true /\ newline_free EmptyString = true /\
  test_files "images.txt"%string = Some (unlines ["a.nii.gz"] ++ "b.nii.gz")%string /\
  test_files "landmarks.txt"%string
  = Some (unlines ["a.fcsv"; "b.txt"] ++ EmptyString)%string /\
  filesListBrainMRLandmark.__init__ test_files
    (Some ["images.txt"; "landmarks.txt"]%string) true 0
  = Ok test_list.
Proof.
  assert (H1 : Forall (fun n => newline_free n = true) ["a.nii.gz"%string])
    by (repeat constructor).
  assert (H2 : Forall (fun n => newline_free n = true)
                 ["a.fcsv"; "b.txt"]%string)
    by (repeat constructor).
  assert (H3 : newline_free "b.nii.gz"%string = true) by reflexivity.
  assert (H4 : newline_free EmptyString = true) by reflexivity.
  assert (H5 : test_files "images.txt"%string
               = Some (unlines ["a.nii.gz"] ++ "b.nii.gz")%string)
    by reflexivity.
  assert (H6 : test_files "landmarks.txt"%string
               = Some (unlines ["a.fcsv"; "b.txt"] ++ EmptyString)%string)
    by reflexivity.
  repeat (split; [assumption|]).
  destruct (X13_files_list_reads_back_the_names test_files
              "images.txt"%string "landmarks.txt"%string []
              ["a.nii.gz"%string] ["a.fcsv"; "b.txt"]%string
              "b.nii.gz"%string EmptyString 0 H1 H2 H3 H4 H5 H6) as (_ & E).
  exact E.
Defined.

Lemma X14_witness :
  filesListBrainMRLandmark.__init__ test_files
    (Some ["images.txt"; "landmarks.txt"]%string) true 0
  = Ok test_list /\
  In 1 (filesListBrainMRLandmark.arange
          (filesListBrainMRLandmark.num_files test_list)) /\
  exists l image landmark,
    filesListBrainMRLandmark.landmark_files test_list = Some l /\
    len l = filesListBrainMRLandmark.num_files test_list /\
    getitem (filesListBrainMRLandmark.image_files test_list) 1 = Ok image /\
    getitem l 1 = Ok landmark.
Proof.
  assert (H1 : filesListBrainMRLandmark.__init__ test_files
                 (Some ["images.txt"; "landmarks.txt"]%string) true 0
               = Ok test_list) by reflexivity.
  assert (H2 : In 1 (filesListBrainMRLandmark.arange
                       (filesListBrainMRLandmark.num_files test_list)))
    by (right; left; reflexivity).
  repeat (split; [assumption|]).
  exact (X14_files_list_indices_are_in_both_lists test_files
           (Some ["images.txt"; "landmarks.txt"]%string) 0 test_list 1
           H1 H2).
Defined.

Lemma test_list_yields :
  forall i,
    (i < length (filesListBrainMRLandmark.image_files test_list))%nat ->
    exists item,
      filesListBrainMRLandmark.yield_for test_imaging test_list (Z.of_nat i)
      = Ok item.
Proof.
  intros [|[|i]] Hi.
  - eexists. reflexivity.
  - eexists. reflexivity.
  - simpl in Hi. lia.
Defined.

Lemma X15_witness :
  (0 < length (filesListBrainMRLandmark.image_files test_list))%nat /\
  exists items,
    filesListBrainMRLandmark.take test_imaging 3 1 test_list
      (filesListBrainMRLandmark.NotStarted false) = Some (Ok items) /\
    length items = 3%nat /\
    forall image lm name sp,
      nth_error items 2 = Some (image, lm, name, sp) ->
      name = "a.nii.gz"%string.
Proof.
  assert (H1 : (0 < length (filesListBrainMRLandmark.image_files
                              test_list))%nat) by (simpl; lia).
  split; [exact H1|].
  destruct (X15_sample_circular_cycles_through_the_files test_imaging
              test_list 3 0 H1 test_list_yields) as (items & T & L & N).
  exists items. split; [exact T|]. split; [exact L|].
  intros image lm name sp Nj.
  destruct (N 2%nat image lm name sp Nj) as (_ & Hn).
  simpl in Hn. injection Hn as <-. reflexivity.
Defined.

Lemma X16_witness :
  filesListBrainMRLandmark.image_files
    (filesListBrainMRLandmark.make [] false 0 None) = [] /\
  filesListBrainMRLandmark.take test_imaging 1 50
    (filesListBrainMRLandmark.make [] false 0 None)
    (filesListBrainMRLandmark.NotStarted false) = None.
Proof.
  split; [reflexivity|].
  destruct (X16_sample_circular_without_items test_imaging
              (filesListBrainMRLandmark.make [] false 0 None) 0 50)
    as (_ & H).
  exact (H eq_refl).
Defined.

Lemma X17_witness :
  In ".img"%string [".nii"; ".img"; ".hdr"]%string /\
  NiftiImage._is_nifti ("scan"%string ++ ".img"%string ++ ".bak"%string) = true.
Proof.
  assert (H1 : In ".img"%string [".nii"; ".img"; ".hdr"]%string)
    by (right; left; reflexivity).
  split; [exact H1|].
  destruct (X17_is_nifti_is_a_substring_test test_imaging "scan.txt"%string false)
    as (_ & H & _).
  exact (H "scan"%string ".bak"%string ".img"%string H1).
Defined.

Lemma X21_witness :
  Play.env_reset test_game 0 = (0, Ok 0) /\
  Play.episode test_game false (mkWorld 0 []) 0 [10; 10; 10] (mkWorld 3 [])
    ([("filename", 7); ("distError", 2); ("location", 3)]%string, [2; 0]) /\
  (length [10; 10; 10] <= 5)%nat /\
  Play.play_one_episode test_game 5 false (mkWorld 0 [])
  = (mkWorld 3 [], Some (Ok (30, 7, 2, [2; 0], 3))).
Proof.
  assert (H1 : Play.env_reset test_game 0 = (0, Ok 0)) by reflexivity.
  assert (H2 : Play.episode test_game false (mkWorld 0 []) 0 [10; 10; 10]
                 (mkWorld 3 [])
                 ([("filename", 7); ("distError", 2); ("location", 3)]%string,
                  [2; 0])).
  { eapply Play.episode_goes_on; [cbv; reflexivity|].
    eapply Play.episode_goes_on; [cbv; reflexivity|].
    eapply Play.episode_ends. cbv. reflexivity. }
  assert (H3 : (length [10; 10; 10] <= 5)%nat) by (simpl; lia).
  repeat (split; [assumption|]).
  destruct (X21_play_one_episode_sums_the_rewards_up_to_the_first_end
              test_game false (mkWorld 0 []) (mkWorld 3 []) 5
              (30, 7, 2, [2; 0], 3)) as (H & _).
  exact (H (mkWorld 0 []) 0 [10; 10; 10] _ _ H1 eq_refl H2 H3).
Defined.

(** ** What [sample] returns shares the memory *)

(** X22.  When the window does not wrap and nothing is zeroed, the
    state [sample] returns is a view of the state array, not a copy:
    an append that falls on a slot of the window shows through the
    array returned before it, which then holds at that position the
    state just appended, as the array stores it (for a state of the
    shape of the slot, its elements modulo 256), and the frames it
    had elsewhere.  When frames were zeroed the array is a copy, and
    no later change of the memory reaches it. *)
Theorem X22_a_sampled_view_shows_later_appends
    (m : t) (li : Z) (e : Experience) :
  wf m -> shape_2d_or_3d (state_shape m) -> 0 < _curr_size m ->
  phys m li + history_len m + 1 <= _curr_size m ->
  exists st r a o,
    sample m li = Ok (m, (st, r, a, o)) /\
    (first_set (range_down (history_len m - 2))
       (read_window m li (isOver m)) = None ->
     phys m li <= _curr_pos m < phys m li + history_len m + 1 ->
     storable (state_shape m) e = true ->
     exists m',
       append m e = Ok m' /\
       base st = View (phys m li) (phys m li + (history_len m + 1)) /\
       nth_error (frames m' (base st))
         (Z.to_nat (_curr_pos m - phys m li))
       = Some (Experience.state (as_stored (state_shape m) e)) /\
       (Frame.shape (Experience.state e) = state_shape m ->
        is_array (Experience.state e) = true ->
        nth_error (frames m' (base st))
          (Z.to_nat (_curr_pos m - phys m li))
        = Some (Frame.make (state_shape m)
                  (map (fun v => v mod 256)
                     (Frame.data (Experience.state e))))) /\
       forall j, Z.of_nat j < history_len m + 1 ->
         Z.of_nat j <> _curr_pos m - phys m li ->
         nth_error (frames m' (base st)) j
         = nth_error (frames m (base st)) j) /\
    (first_set (range_down (history_len m - 2))
       (read_window m li (isOver m)) <> None ->
     forall m', frames m' (base st) = frames m (base st)).
Proof.
  intros W Hsh Hs Hfit.
  pose proof (phys_range m li Hs) as Hp.
  pose proof (wf_size m W) as Hsz. pose proof (wf_hl m W) as Hhl.
  pose proof (wf_state m W) as Ls.
  destruct (sample_spec m li W Hsh Hs ltac:(lia))
    as (ax & r & a & o & _ & _ & _ & Es).
  eexists _, r, a, o. split; [exact Es|]. simpl. split.
  - intros Hnone Hcur Hst. rewrite Hnone.
    exists (appended m e). split; [apply append_ok; assumption|].
    unfold state_window.
    destruct (Z.leb_spec (phys m li + (history_len m + 1)) (_curr_size m));
      [|lia].
    split; [reflexivity|]. simpl.
    set (f := Experience.state (as_stored (state_shape m) e)).
    assert (Lu : len (update (state m) (Z.to_nat (_curr_pos m)) f)
                 = max_size m)
      by (unfold len in *; rewrite update_length; exact Ls).
    assert (Hn : nth_error
                   (slice (update (state m) (Z.to_nat (_curr_pos m)) f)
                      (phys m li) (phys m li + (history_len m + 1)))
                   (Z.to_nat (_curr_pos m - phys m li)) = Some f).
    { rewrite slice_inside_nth by lia.
      replace (Z.to_nat (phys m li) + Z.to_nat (_curr_pos m - phys m li))%nat
        with (Z.to_nat (_curr_pos m)) by lia.
      apply update_nth_same. unfold len in Ls. lia. }
    split; [exact Hn|]. split.
    + intros S1 S2. rewrite Hn. f_equal. unfold f.
      rewrite <- S1 in Hst |- *. apply as_stored_state_same; assumption.
    + intros j Hj Hne.
      rewrite !slice_inside_nth by lia.
      apply update_nth_other. lia.
  - intros Hsome m'.
    destruct (first_set (range_down (history_len m - 2))
                (read_window m li (isOver m))); [reflexivity|congruence].
Qed.

Lemma X22_witness :
  wf scenario_memory /\ shape_2d_or_3d (state_shape scenario_memory) /\
  0 < _curr_size scenario_memory /\
  phys scenario_memory 0 + history_len scenario_memory + 1
  <= _curr_size scenario_memory /\
  exists st r a o m',
    sample scenario_memory 0 = Ok (scenario_memory, (st, r, a, o)) /\
    append scenario_memory (Experience.make (pixel 262) 16 (f32 6) false)
    = Ok m' /\
    frames scenario_memory (base st) = [pixel 1; pixel 2; pixel 3] /\
    nth_error (frames m' (base st)) 0 = Some (pixel 6).
Proof.
  assert (W : wf scenario_memory) by prove_wf.
  assert (H2 : shape_2d_or_3d (state_shape scenario_memory))
    by (left; reflexivity).
  assert (H3 : 0 < _curr_size scenario_memory) by (vm_compute; reflexivity).
  assert (H4 : phys scenario_memory 0 + history_len scenario_memory + 1
               <= _curr_size scenario_memory)
    by (vm_compute; discriminate).
  repeat (split; [assumption|]).
  destruct (X22_a_sampled_view_shows_later_appends scenario_memory 0
              (Experience.make (pixel 262) 16 (f32 6) false) W H2 H3 H4)
    as (st & r & a & o & Es & Hview & _).
  destruct Hview as (m' & Ea & Hb & _ & Hn & _).
  - reflexivity.
  - vm_compute. split; [discriminate | reflexivity].
  - reflexivity.
  - exists st, r, a, o, m'. split; [exact Es|]. split; [exact Ea|].
    split; [rewrite Hb; reflexivity |].
    exact (Hn eq_refl eq_refl).
Defined.
